(** * A shallow embedding of the MetaAI client (src/metaai/index.ts)

    The class [MetaAI] keeps five fields and talks to a backend through an
    HTTP transport.  The embedding follows the TypeScript source method by
    method.  The JavaScript built-ins the methods call (string methods, the
    four regular expressions of [init], [JSON.parse], [URLSearchParams],
    property access, [==] against the empty string, string conversion) are
    embedded first, then the class, then the loop of the command line
    (src/index.ts), then the properties. *)

From Stdlib Require Import String Ascii List ZArith NArith Bool Arith Lia.
Import ListNotations.
Set Warnings "-register-all".
Open Scope string_scope.

(** ** Strings

    A JavaScript string is modelled as a [string]; a character outside ASCII
    is held as the bytes of its UTF-8 encoding.  Source literals that contain
    the JavaScript double quote are written here with an apostrophe in its
    place and passed through [js]; no literal of the program contains an
    apostrophe of its own. *)

Definition dquote : ascii := "034"%char.
Definition backslash : ascii := "092"%char.
Definition newline : ascii := "010"%char.

Fixpoint js (s : string) : string :=
  match s with
  | EmptyString => EmptyString
  | String c s' => String (if Ascii.eqb c "'"%char then dquote else c) (js s')
  end.

Definition str1 (c : ascii) : string := String c EmptyString.

Module JsString.

(** [s.charAt(i)]: the character at index [i], or the empty string. *)
Definition charAt (s : string) (i : nat) : string :=
  match String.get i s with
  | Some c => str1 c
  | None => EmptyString
  end.

Fixpoint startsWith (s p : string) : bool :=
  match p, s with
  | EmptyString, _ => true
  | String a p', String b s' => Ascii.eqb a b && startsWith s' p'
  | String _ _, EmptyString => false
  end.

(** [s.includes(needle)] *)
Fixpoint includes (s needle : string) : bool :=
  startsWith s needle ||
  match s with
  | EmptyString => false
  | String _ s' => includes s' needle
  end.

(** [s.split(sep)] for a separator of one character. *)
Fixpoint split (sep : ascii) (s : string) : list string :=
  match s with
  | EmptyString => [EmptyString]
  | String c s' =>
      if Ascii.eqb c sep then EmptyString :: split sep s'
      else match split sep s' with
           | [] => [str1 c]
           | h :: t => String c h :: t
           end
  end.

Fixpoint drop (n : nat) (s : string) : string :=
  match n, s with
  | O, _ => s
  | S n', String _ s' => drop n' s'
  | S _, EmptyString => EmptyString
  end.

Fixpoint all (p : ascii -> bool) (s : string) : bool :=
  match s with
  | EmptyString => true
  | String c s' => p c && all p s'
  end.

Fixpoint join (sep : string) (l : list string) : string :=
  match l with
  | [] => EmptyString
  | [x] => x
  | x :: rest => x ++ sep ++ join sep rest
  end.

End JsString.

(** ** Values, completions *)

Module JS.

(** The values that reach the client: what [JSON.parse] and the transport
    produce, [undefined], and the one built-in function object a property
    read of this program can return ([String.prototype.link]).  A number is
    held as the literal that denotes it; the double itself is not
    computed. *)
Inductive Value : Type :=
| VUndefined
| VNull
| VBool (b : bool)
| VNumber (literal : string)
| VString (s : string)
| VArray (items : list Value)
| VObject (members : list (string * Value))
| VBuiltin (name : string).

Inductive Error : Type :=
| TypeError
| SyntaxError
| TransportError.

(** How an evaluation ends: with a value, with a thrown exception, or with
    the bound of a [while (true)] loop used up. *)
Inductive Completion (A : Type) : Type :=
| Normal (a : A)
| Throw (e : Error)
| OutOfFuel.
Arguments Normal {A} a.
Arguments Throw {A} e.
Arguments OutOfFuel {A}.

Definition cbind {A B} (c : Completion A) (k : A -> Completion B) : Completion B :=
  match c with
  | Normal a => k a
  | Throw e => Throw e
  | OutOfFuel => OutOfFuel
  end.

(** Own property of an object built from JSON text: a later duplicate of a
    key overrides an earlier one. *)
Fixpoint own (members : list (string * Value)) (k : string) : option Value :=
  match members with
  | [] => None
  | (k', v) :: rest =>
      match own rest k with
      | Some v' => Some v'
      | None => if String.eqb k' k then Some v else None
      end
  end.

(** The property names the client reads. *)
Inductive Key : Type :=
| Kdata | Kxab_abra_accept_terms_of_service | Knew_temp_user_auth | Kaccess_token
| Knode | Kbot_response_message | Ksnippet | Kfetch_id
| Kmessage | KsearchResults | Ksearch_engine | Ksearch_query | Kreferences
| Klink | Ktitle.

Definition key_name (k : Key) : string :=
  match k with
  | Kdata => "data"
  | Kxab_abra_accept_terms_of_service => "xab_abra_accept_terms_of_service"
  | Knew_temp_user_auth => "new_temp_user_auth"
  | Kaccess_token => "access_token"
  | Knode => "node"
  | Kbot_response_message => "bot_response_message"
  | Ksnippet => "snippet"
  | Kfetch_id => "fetch_id"
  | Kmessage => "message"
  | KsearchResults => "searchResults"
  | Ksearch_engine => "search_engine"
  | Ksearch_query => "search_query"
  | Kreferences => "references"
  | Klink => "link"
  | Ktitle => "title"
  end.

(** [v[k]] for [k] one of the names above.  Reading a property of
    [undefined] or [null] throws; an object answers with its own property
    ([Object.prototype] has none of these names); a string primitive has
    [link] from [String.prototype] and none of the others; arrays, numbers,
    booleans and function objects have none of them. *)
Definition get (v : Value) (k : Key) : Completion Value :=
  match v with
  | VUndefined | VNull => Throw TypeError
  | VObject members =>
      match own members (key_name k) with
      | Some x => Normal x
      | None => Normal VUndefined
      end
  | VString _ =>
      match k with
      | Klink => Normal (VBuiltin "link")
      | _ => Normal VUndefined
      end
  | VBool _ | VNumber _ | VArray _ | VBuiltin _ => Normal VUndefined
  end.

Section Conversions.
(** [Number::toString] of the double a number literal denotes, supplied
    by the host. *)
Variable number_text : string -> string.

(** [ToString(v)].  An object built from JSON text has no callable own
    property: with an own [toString] no method yields a primitive and the
    conversion throws, without one [Object.prototype.toString] answers.
    An array joins its elements with a comma, [undefined] and [null]
    counting as empty. *)
Fixpoint to_string (v : Value) : Completion string :=
  match v with
  | VUndefined => Normal "undefined"
  | VNull => Normal "null"
  | VBool true => Normal "true"
  | VBool false => Normal "false"
  | VNumber n => Normal (number_text n)
  | VString s => Normal s
  | VObject members =>
      match own members "toString" with
      | Some _ => Throw TypeError
      | None => Normal "[object Object]"
      end
  | VBuiltin name => Normal ("function " ++ name ++ "() { [native code] }")
  | VArray items =>
      let element (x : Value) : Completion string :=
        match x with
        | VUndefined | VNull => Normal EmptyString
        | _ => to_string x
        end in
      (fix join (l : list Value) : Completion string :=
         match l with
         | [] => Normal EmptyString
         | [x] => element x
         | x :: rest =>
             cbind (element x) (fun a =>
             cbind (join rest) (fun b => Normal (a ++ "," ++ b)))
         end) items
  end.

(** [v == ''].  A string compares by content; a boolean and a number are
    compared as numbers with [0]; [undefined] and [null] are unequal to
    every string; an object is converted to a primitive first. *)
Definition loosely_empty (v : Value) : Completion bool :=
  match v with
  | VUndefined | VNull => Normal false
  | VBool b => Normal (negb b)
  | VNumber n => Normal (String.eqb (number_text n) "0")
  | VString s => Normal (String.eqb s EmptyString)
  | VArray _ | VObject _ | VBuiltin _ =>
      cbind (to_string v) (fun p => Normal (String.eqb p EmptyString))
  end.
End Conversions.

End JS.

(** ** The regular expressions of [init]

    Each of the four patterns is a run of literal characters and lazy [.*?]
    with one capturing group [(.*?)] in it.  The matcher is the backtracking
    one of ECMAScript: a start position is tried from left to right, a lazy
    quantifier takes the fewest characters that let the rest match, and [.]
    refuses a line terminator. *)

Module Regex.

Inductive Atom : Type :=
| Ch (c : ascii)      (* a literal character *)
| LazyDots.           (* .*? outside the group *)

(** [before (.*?) after] *)
Record t : Type := { before : list Atom; after : list Atom }.

Fixpoint literal (s : string) : list Atom :=
  match s with
  | EmptyString => []
  | String c s' => Ch c :: literal s'
  end.

(** A line terminator starts here: LF, CR, or U+2028 / U+2029 in UTF-8. *)
Definition line_terminator_at (s : string) : bool :=
  JsString.startsWith s (str1 "010"%char)
  || JsString.startsWith s (str1 "013"%char)
  || JsString.startsWith s (String "226"%char (String "128"%char (str1 "168"%char)))
  || JsString.startsWith s (String "226"%char (String "128"%char (str1 "169"%char))).

(** [.*?] followed by the continuation [k]. *)
Fixpoint lazy_dots {A} (k : string -> option A) (s : string) : option A :=
  match k s with
  | Some r => Some r
  | None =>
      match s with
      | EmptyString => None
      | String _ s' => if line_terminator_at s then None else lazy_dots k s'
      end
  end.

(** [(.*?)] followed by [k]; [seen] is what the group holds so far. *)
Fixpoint lazy_group (k : string -> bool) (seen : string) (s : string) : option string :=
  if k s then Some seen
  else match s with
       | EmptyString => None
       | String c s' =>
           if line_terminator_at s then None
           else lazy_group k (seen ++ str1 c) s'
       end.

Fixpoint atoms {A} (re : list Atom) (k : string -> option A) (s : string) : option A :=
  match re with
  | [] => k s
  | Ch c :: re' =>
      match s with
      | String c' s' => if Ascii.eqb c c' then atoms re' k s' else None
      | EmptyString => None
      end
  | LazyDots :: re' => lazy_dots (atoms re' k) s
  end.

Definition matches_here (re : list Atom) (s : string) : bool :=
  match atoms re (fun _ => Some tt) s with
  | Some _ => true
  | None => false
  end.

(** A match that starts at the head of [s]; the result is group 1. *)
Definition match_at (re : t) (s : string) : option string :=
  atoms (before re) (lazy_group (matches_here (after re)) EmptyString) s.

(** [s.match(re)]: the leftmost match, or [None] for [null]. *)
Fixpoint search (re : t) (s : string) : option string :=
  match match_at re s with
  | Some g => Some g
  | None =>
      match s with
      | EmptyString => None
      | String _ s' => search re s'
      end
  end.

(** /abra_csrf':{'value':'(.*?)'/ (the quotes of the source are double) *)
Definition abra_csrf : t :=
  {| before := literal (js "abra_csrf':{'value':'"); after := [Ch dquote] |}.

(** /_js_datr':{'value':'(.*?)'/ *)
Definition _js_datr : t :=
  {| before := literal (js "_js_datr':{'value':'"); after := [Ch dquote] |}.

(** /datr':{'value':'(.*?)'/ *)
Definition datr : t :=
  {| before := literal (js "datr':{'value':'"); after := [Ch dquote] |}.

(** /LSD.*?token':'(.*?)'/ *)
Definition lsd : t :=
  {| before := literal "LSD" ++ LazyDots :: literal (js "token':'");
     after := [Ch dquote] |}.

End Regex.

(** ** [JSON.parse]

    The JSON grammar of ECMA-404 in two passes: [lex] cuts the text into
    tokens, [value] reads one value off the token list.  Both recurse on a
    bound; [parse] starts them with a bound the input cannot exhaust (one
    step per character, then one per token). *)

Module JSON.
Import JS.

Inductive Token : Type :=
| TLBrace | TRBrace | TLBracket | TRBracket | TColon | TComma
| TString (s : string)
| TNumber (literal : string)
| TTrue | TFalse | TNull.

Definition code (c : ascii) : N := N_of_ascii c.

Definition is_ws (c : ascii) : bool :=
  N.eqb (code c) 32 || N.eqb (code c) 9 || N.eqb (code c) 10 || N.eqb (code c) 13.

Definition is_digit (c : ascii) : bool := N.leb 48 (code c) && N.leb (code c) 57.

(** *** String literals *)

(** A character of a string literal: a character of the text as it stands,
    or a UTF-16 code unit written as an escape. *)
Inductive Piece : Type :=
| Raw (c : ascii)
| Unit16 (u : N).

Definition hex (c : ascii) : option N :=
  let n := code c in
  if N.leb 48 n && N.leb n 57 then Some (n - 48)%N
  else if N.leb 65 n && N.leb n 70 then Some (n - 55)%N
  else if N.leb 97 n && N.leb n 102 then Some (n - 87)%N
  else None.

Definition hex4 (a b c d : ascii) : option N :=
  match hex a, hex b, hex c, hex d with
  | Some x, Some y, Some z, Some w => Some (((x * 16 + y) * 16 + z) * 16 + w)%N
  | _, _, _, _ => None
  end.

Definition simple_escape (e : ascii) : option ascii :=
  if Ascii.eqb e dquote then Some dquote
  else if Ascii.eqb e backslash then Some backslash
  else if Ascii.eqb e "/"%char then Some "/"%char
  else if Ascii.eqb e "b"%char then Some "008"%char
  else if Ascii.eqb e "f"%char then Some "012"%char
  else if Ascii.eqb e "n"%char then Some "010"%char
  else if Ascii.eqb e "r"%char then Some "013"%char
  else if Ascii.eqb e "t"%char then Some "009"%char
  else None.

Definition more (p : Piece) (r : option (list Piece * string)) : option (list Piece * string) :=
  match r with
  | Some (ps, rest) => Some (p :: ps, rest)
  | None => None
  end.

(** The characters after an opening quote, up to the closing one.  A control
    character (below U+0020) may not stand unescaped. *)
Fixpoint scan_string (s : string) : option (list Piece * string) :=
  match s with
  | EmptyString => None
  | String c s' =>
      if Ascii.eqb c dquote then Some ([], s')
      else if Ascii.eqb c backslash then
        match s' with
        | EmptyString => None
        | String e s'' =>
            match simple_escape e with
            | Some x => more (Raw x) (scan_string s'')
            | None =>
                if Ascii.eqb e "u"%char then
                  match s'' with
                  | String h1 (String h2 (String h3 (String h4 s3))) =>
                      match hex4 h1 h2 h3 h4 with
                      | Some u => more (Unit16 u) (scan_string s3)
                      | None => None
                      end
                  | _ => None
                  end
                else None
            end
        end
      else if N.ltb (code c) 32 then None
      else more (Raw c) (scan_string s')
  end.

Definition byte (n : N) : ascii := ascii_of_N n.

(** UTF-8 of a code point. *)
Definition utf8 (cp : N) : string :=
  if N.ltb cp 128 then str1 (byte cp)
  else if N.ltb cp 2048 then
    String (byte (192 + cp / 64)) (str1 (byte (128 + cp mod 64)))
  else if N.ltb cp 65536 then
    String (byte (224 + cp / 4096))
      (String (byte (128 + (cp / 64) mod 64)) (str1 (byte (128 + cp mod 64))))
  else
    String (byte (240 + cp / 262144))
      (String (byte (128 + (cp / 4096) mod 64))
         (String (byte (128 + (cp / 64) mod 64)) (str1 (byte (128 + cp mod 64))))).

Definition high_surrogate (u : N) : bool := N.leb 55296 u && N.leb u 56319.
Definition low_surrogate (u : N) : bool := N.leb 56320 u && N.leb u 57343.

(** The string the pieces spell; an escaped surrogate pair is one code
    point. *)
Fixpoint text (ps : list Piece) : string :=
  match ps with
  | [] => EmptyString
  | Raw c :: r => String c (text r)
  | Unit16 u :: r =>
      match r with
      | Unit16 v :: r' =>
          if high_surrogate u && low_surrogate v
          then utf8 (65536 + (u - 55296) * 1024 + (v - 56320)) ++ text r'
          else utf8 u ++ text r
      | _ => utf8 u ++ text r
      end
  end.

(** *** Number literals *)

Fixpoint digits (s : string) : string * string :=
  match s with
  | EmptyString => (EmptyString, EmptyString)
  | String c s' =>
      if is_digit c then let (d, r) := digits s' in (String c d, r)
      else (EmptyString, s)
  end.

Definition scan_int (s : string) : option (string * string) :=
  match s with
  | EmptyString => None
  | String c s' =>
      if Ascii.eqb c "0"%char then Some ("0", s')
      else if is_digit c then Some (digits s)
      else None
  end.

Definition scan_frac (s : string) : option (string * string) :=
  match s with
  | String "."%char s' =>
      match digits s' with
      | (EmptyString, _) => None
      | (d, r) => Some (String "."%char d, r)
      end
  | _ => Some (EmptyString, s)
  end.

Definition scan_sign (s : string) : string * string :=
  match s with
  | String c s' =>
      if Ascii.eqb c "+"%char || Ascii.eqb c "-"%char then (str1 c, s') else (EmptyString, s)
  | EmptyString => (EmptyString, s)
  end.

Definition scan_exp (s : string) : option (string * string) :=
  match s with
  | String c s' =>
      if Ascii.eqb c "e"%char || Ascii.eqb c "E"%char then
        let (sg, s1) := scan_sign s' in
        match digits s1 with
        | (EmptyString, _) => None
        | (d, r) => Some (String c (sg ++ d), r)
        end
      else Some (EmptyString, s)
  | EmptyString => Some (EmptyString, s)
  end.

(** -? int frac? exp? *)
Definition scan_number (s : string) : option (string * string) :=
  let (minus, s0) :=
    match s with
    | String "-"%char s' => ("-", s')
    | _ => (EmptyString, s)
    end in
  match scan_int s0 with
  | None => None
  | Some (i, s1) =>
      match scan_frac s1 with
      | None => None
      | Some (f, s2) =>
          match scan_exp s2 with
          | None => None
          | Some (e, s3) => Some (minus ++ i ++ f ++ e, s3)
          end
      end
  end.

(** *** Tokens *)

Definition cons_token (t : Token) (r : option (list Token)) : option (list Token) :=
  match r with
  | Some ts => Some (t :: ts)
  | None => None
  end.

Fixpoint lex (fuel : nat) (s : string) : option (list Token) :=
  match fuel with
  | O => None
  | S fuel' =>
      match s with
      | EmptyString => Some []
      | String c s' =>
          if is_ws c then lex fuel' s'
          else if Ascii.eqb c "{"%char then cons_token TLBrace (lex fuel' s')
          else if Ascii.eqb c "}"%char then cons_token TRBrace (lex fuel' s')
          else if Ascii.eqb c "["%char then cons_token TLBracket (lex fuel' s')
          else if Ascii.eqb c "]"%char then cons_token TRBracket (lex fuel' s')
          else if Ascii.eqb c ":"%char then cons_token TColon (lex fuel' s')
          else if Ascii.eqb c ","%char then cons_token TComma (lex fuel' s')
          else if Ascii.eqb c dquote then
            match scan_string s' with
            | Some (ps, rest) => cons_token (TString (text ps)) (lex fuel' rest)
            | None => None
            end
          else if Ascii.eqb c "-"%char || is_digit c then
            match scan_number s with
            | Some (n, rest) => cons_token (TNumber n) (lex fuel' rest)
            | None => None
            end
          else if JsString.startsWith s "true" then
            cons_token TTrue (lex fuel' (JsString.drop 4 s))
          else if JsString.startsWith s "false" then
            cons_token TFalse (lex fuel' (JsString.drop 5 s))
          else if JsString.startsWith s "null" then
            cons_token TNull (lex fuel' (JsString.drop 4 s))
          else None
      end
  end.

(** *** Values *)

Fixpoint value (fuel : nat) (ts : list Token) : option (Value * list Token) :=
  match fuel with
  | O => None
  | S fuel' =>
      match ts with
      | TNull :: r => Some (VNull, r)
      | TTrue :: r => Some (VBool true, r)
      | TFalse :: r => Some (VBool false, r)
      | TString s :: r => Some (VString s, r)
      | TNumber n :: r => Some (VNumber n, r)
      | TLBracket :: TRBracket :: r => Some (VArray [], r)
      | TLBracket :: r =>
          match elements fuel' r with
          | Some (vs, r') => Some (VArray vs, r')
          | None => None
          end
      | TLBrace :: TRBrace :: r => Some (VObject [], r)
      | TLBrace :: r =>
          match members fuel' r with
          | Some (ms, r') => Some (VObject ms, r')
          | None => None
          end
      | _ => None
      end
  end
with elements (fuel : nat) (ts : list Token) : option (list Value * list Token) :=
  match fuel with
  | O => None
  | S fuel' =>
      match value fuel' ts with
      | Some (v, TComma :: r) =>
          match elements fuel' r with
          | Some (vs, r') => Some (v :: vs, r')
          | None => None
          end
      | Some (v, TRBracket :: r) => Some ([v], r)
      | _ => None
      end
  end
with members (fuel : nat) (ts : list Token) : option (list (string * Value) * list Token) :=
  match fuel with
  | O => None
  | S fuel' =>
      match ts with
      | TString k :: TColon :: r =>
          match value fuel' r with
          | Some (v, TComma :: r') =>
              match members fuel' r' with
              | Some (ms, r'') => Some ((k, v) :: ms, r'')
              | None => None
              end
          | Some (v, TRBrace :: r') => Some ([(k, v)], r')
          | _ => None
          end
      | _ => None
      end
  end.

Definition document (s : string) : option Value :=
  match lex (S (String.length s)) s with
  | None => None
  | Some ts =>
      match value (S (List.length ts)) ts with
      | Some (v, []) => Some v
      | _ => None
      end
  end.

(** [JSON.parse(s)]: the value, or a thrown [SyntaxError]. *)
Definition parse (s : string) : Completion Value :=
  match document s with
  | Some v => Normal v
  | None => Throw SyntaxError
  end.

End JSON.

(** ** [new URLSearchParams(body).toString()]

    The constructor converts each name and each value to a string of scalar
    values: a surrogate code unit that is not half of a pair becomes U+FFFD.
    The application/x-www-form-urlencoded serializer then writes [name=value]
    pairs joined by an ampersand; a byte of the UTF-8 text is kept when it is
    an ASCII letter or digit or one of * - . _ , a space becomes a plus sign,
    any other byte is written as a percent sign and two upper-case
    hexadecimal digits.

    A surrogate code unit is held in a [string] as the three bytes [JSON.text]
    gives it; a leading one followed by a trailing one is the pair they form
    in the JavaScript string. *)

Module URLSearchParams.

Definition hex_digit (n : N) : ascii :=
  if N.ltb n 10 then ascii_of_N (48 + n) else ascii_of_N (55 + n).

Definition unreserved (c : ascii) : bool :=
  let n := N_of_ascii c in
  (N.leb 48 n && N.leb n 57) || (N.leb 65 n && N.leb n 90) || (N.leb 97 n && N.leb n 122)
  || N.eqb n 42 || N.eqb n 45 || N.eqb n 46 || N.eqb n 95.

(** The bytes [b1 b2 b3] hold a surrogate code unit, U+D800 to U+DFFF. *)
Definition surrogate (b1 b2 b3 : ascii) : bool :=
  Ascii.eqb b1 "237"%char
  && N.leb 160 (N_of_ascii b2) && N.leb (N_of_ascii b2) 191
  && N.leb 128 (N_of_ascii b3) && N.leb (N_of_ascii b3) 191.

(** The code unit the second and third byte of a surrogate hold. *)
Definition unit16 (b2 b3 : ascii) : N :=
  53248 + (N_of_ascii b2 - 128) * 64 + (N_of_ascii b3 - 128).

(** U+FFFD *)
Definition replacement : string := JSON.utf8 65533.

(** The conversion to a string of scalar values: the two halves of a pair
    become the code point of the pair, a surrogate on its own becomes
    U+FFFD. *)
Fixpoint USVString (s : string) : string :=
  match s with
  | EmptyString => EmptyString
  | String b1 s1 =>
      match s1 with
      | String b2 (String b3 s3) =>
          if surrogate b1 b2 b3 then
            match s3 with
            | String c1 (String c2 (String c3 s6)) =>
                if surrogate c1 c2 c3
                   && JSON.high_surrogate (unit16 b2 b3)
                   && JSON.low_surrogate (unit16 c2 c3)
                then JSON.utf8 (65536 + (unit16 b2 b3 - 55296) * 1024
                                + (unit16 c2 c3 - 56320))
                     ++ USVString s6
                else replacement ++ USVString s3
            | _ => replacement ++ USVString s3
            end
          else String b1 (USVString s1)
      | _ => String b1 (USVString s1)
      end
  end.

(** The byte serializer. *)
Fixpoint percent_encode (s : string) : string :=
  match s with
  | EmptyString => EmptyString
  | String c s' =>
      if unreserved c then String c (percent_encode s')
      else if Ascii.eqb c " "%char then String "+"%char (percent_encode s')
      else
        let n := N_of_ascii c in
        String "%"%char
          (String (hex_digit (n / 16)) (String (hex_digit (n mod 16)) (percent_encode s')))
  end.

Definition encode (s : string) : string := percent_encode (USVString s).

Definition toString (body : list (string * string)) : string :=
  JsString.join "&" (map (fun kv => encode (fst kv) ++ "=" ++ encode (snd kv)) body).

End URLSearchParams.

(** ** The class [MetaAI] *)

Module Client.
Import JS.

(** *** The transport

    [session] is an HTTP client: a request is answered by a response with a
    status and a body, or the call rejects.  [data] is the body as the
    transport hands it over: a string, or the value of a JSON body. *)

Record Request : Type :=
  { method : string;
    url : string;
    headers : list (string * string);
    body : option string }.

Record Response : Type := { status : Z; data : Value }.

Inductive Answer : Type :=
| Resolved (response : Response)
| Rejected.

(** What surrounds one call of a method: the transport, the successive
    values of [Math.floor(Math.random() * characters.length)], the bound put
    on the loop of [threadingID], and the host's rendering of numbers. *)
Record Env : Type :=
  { http : Request -> Answer;
    random_index : nat -> nat;
    loop_bound : nat;
    number_text : string -> string }.

(** *** The fields *)

Record MetaAI : Type :=
  { access_token : Value;
    cookies : string;
    lsd : string;
    conversation_id : string;
    last_fetch_id : Value }.

(** [constructor()]; [uuid] is what [uuidv4()] returns. *)
Definition constructor (uuid : string) : MetaAI :=
  {| access_token := VString EmptyString;
     cookies := EmptyString;
     lsd := EmptyString;
     conversation_id := uuid;
     last_fetch_id := VString EmptyString |}.

(** The object, the requests sent so far (oldest first) and the number of
    random values drawn so far. *)
Record World : Type :=
  { self : MetaAI;
    sent : list Request;
    draws : nat }.

Definition fresh (uuid : string) : World :=
  {| self := constructor uuid; sent := []; draws := 0 |}.

(** *** Methods as state transformers

    A method runs in a world and ends with a completion and a world: an
    assignment made before an exception is thrown stays made. *)

Definition M (A : Type) : Type := Env -> World -> Completion A * World.

Definition ret {A} (a : A) : M A := fun _ w => (Normal a, w).

Definition bind {A B} (m : M A) (k : A -> M B) : M B :=
  fun env w =>
    match m env w with
    | (Normal a, w') => k a env w'
    | (Throw e, w') => (Throw e, w')
    | (OutOfFuel, w') => (OutOfFuel, w')
    end.

Notation "x <- c1 ;; c2" := (bind c1 (fun x => c2))
  (at level 61, c1 at next level, right associativity).
Notation "c1 ;; c2" := (bind c1 (fun _ => c2))
  (at level 61, right associativity).

Definition lift {A} (c : Completion A) : M A := fun _ w => (c, w).

Definition this : M MetaAI := fun _ w => (Normal (self w), w).

Definition assign (f : MetaAI -> MetaAI) : M unit :=
  fun _ w => (Normal tt, {| self := f (self w); sent := sent w; draws := draws w |}).

Definition set_cookies (v : string) (o : MetaAI) : MetaAI :=
  {| access_token := access_token o; cookies := v; lsd := lsd o;
     conversation_id := conversation_id o; last_fetch_id := last_fetch_id o |}.

Definition set_lsd (v : string) (o : MetaAI) : MetaAI :=
  {| access_token := access_token o; cookies := cookies o; lsd := v;
     conversation_id := conversation_id o; last_fetch_id := last_fetch_id o |}.

Definition set_token (v : Value) (o : MetaAI) : MetaAI :=
  {| access_token := v; cookies := cookies o; lsd := lsd o;
     conversation_id := conversation_id o; last_fetch_id := last_fetch_id o |}.

Definition set_last_fetch_id (v : Value) (o : MetaAI) : MetaAI :=
  {| access_token := access_token o; cookies := cookies o; lsd := lsd o;
     conversation_id := conversation_id o; last_fetch_id := v |}.

(** [await this.session.get(...)] and [await this.session.post(...)] *)
Definition exchange (r : Request) : M Response :=
  fun env w =>
    let w' := {| self := self w; sent := sent w ++ [r]; draws := draws w |} in
    match http env r with
    | Resolved response => (Normal response, w')
    | Rejected => (Throw TransportError, w')
    end.

Definition get_ (u : string) (h : list (string * string)) : M Response :=
  exchange {| method := "GET"; url := u; headers := h; body := None |}.

Definition post (u : string) (b : string) (h : list (string * string)) : M Response :=
  exchange {| method := "POST"; url := u; headers := h; body := Some b |}.

(** String conversion and [== ''] with the host's rendering of numbers. *)
Definition text_of (v : Value) : M string :=
  fun env w => (to_string (number_text env) v, w).

Definition is_empty (v : Value) : M bool :=
  fun env w => (loosely_empty (number_text env) v, w).

(** *** [threadingID] *)

Definition characters : string := "1234567890".

(** The [for] loop: [n] characters appended to [result], the first of them
    chosen by draw number [pos]. *)
Fixpoint sample (rnd : nat -> nat) (n pos : nat) (result : string) : string :=
  match n with
  | O => result
  | S n' => sample rnd n' (S pos) (result ++ JsString.charAt characters (rnd pos))
  end.

Definition rejected (result : string) : bool :=
  String.eqb (JsString.charAt result 0) "9" || String.eqb (JsString.charAt result 0) "0".

(** The [while (true)] loop, cut after [fuel] rounds. *)
Fixpoint threadingID_loop (rnd : nat -> nat) (fuel pos : nat) : option (string * nat) :=
  match fuel with
  | O => None
  | S fuel' =>
      let result := sample rnd 19 pos EmptyString in
      if rejected result then threadingID_loop rnd fuel' (pos + 19)
      else Some (result, pos + 19)
  end.

Definition threadingID : M string :=
  fun env w =>
    match threadingID_loop (random_index env) (loop_bound env) (draws w) with
    | Some (result, pos) =>
        (Normal result, {| self := self w; sent := sent w; draws := pos |})
    | None => (OutOfFuel, w)
    end.

(** *** [init] *)

Definition user_agent : string :=
  "Mozilla/5.0 (X11; Linux x86_64) AppleWebKit/537.36 (KHTML, like Gecko) Chrome/124.0.0.0 Safari/537.36".

Definition init_headers : list (string * string) :=
  [ ("user-agent", user_agent);
    ("accept-language", "en-US,en;q=0.9");
    ("accept", "text/html,application/xhtml+xml,application/xml;q=0.9,image/avif,image/webp,image/apng,*/*;q=0.8,application/signed-exchange;v=b3;q=0.7");
    ("sec-fetch-mode", "navigate") ].

(** [d.match(re)[1]]: [match] is the string method, absent from every other
    value; its result is [null] when nothing matches, and indexing [null]
    throws. *)
Definition match1 (d : Value) (re : Regex.t) : M string :=
  lift match d with
       | VString s =>
           match Regex.search re s with
           | Some g => Normal g
           | None => Throw TypeError
           end
       | _ => Throw TypeError
       end.

Definition cookie_string (_js_datr abra_csrf datr lsd : string) : string :=
  "_js_datr=" ++ _js_datr ++ "; abra_csrf=" ++ abra_csrf ++ "; datr=" ++ datr
  ++ "; lsd=" ++ lsd.

Definition init : M bool :=
  response <- get_ "https://meta.ai/" init_headers ;;
  if negb (status response =? 200)%Z then ret false
  else
    abra_csrf <- match1 (data response) Regex.abra_csrf ;;
    _js_datr <- match1 (data response) Regex._js_datr ;;
    datr <- match1 (data response) Regex.datr ;;
    lsd <- match1 (data response) Regex.lsd ;;
    assign (set_cookies (cookie_string _js_datr abra_csrf datr lsd)) ;;
    assign (set_lsd lsd) ;;
    ret true.

(** *** [set_access_token] *)

Definition token_body (o : MetaAI) : list (string * string) :=
  [ ("lsd", lsd o);
    ("variables", js "{'dob':'1997-01-01','icebreaker_type':'TEXT','__relay_internal__pv__WebPixelRatiorelayprovider':1}");
    ("server_timestamps", "true");
    ("doc_id", "7604648749596940") ].

Definition token_headers (o : MetaAI) : list (string * string) :=
  [ ("user-agent", user_agent);
    ("x-fb-friendly-name", "useAbraAcceptTOSForTempUserMutation");
    ("x-fb-lsd", lsd o);
    ("accept", "*/*");
    ("origin", "https://www.meta.ai");
    ("sec-fetch-site", "same-origin");
    ("sec-fetch-mode", "cors");
    ("sec-fetch-dest", "empty");
    ("referer", "https://www.meta.ai/");
    ("accept-language", "en-US,en;q=0.9");
    ("priority", "u=1, i");
    ("content-type", "application/x-www-form-urlencoded");
    ("cookie", cookies o) ].

(** [v[k1][k2]...] *)
Fixpoint path (v : Value) (ks : list Key) : Completion Value :=
  match ks with
  | [] => Normal v
  | k :: ks' => cbind (get v k) (fun x => path x ks')
  end.

Definition set_access_token : M bool :=
  o <- this ;;
  let encoded_body := URLSearchParams.toString (token_body o) in
  response <- post "https://www.meta.ai/api/graphql/" encoded_body (token_headers o) ;;
  if negb (status response =? 200)%Z then ret false
  else
    token <- lift (path (data response)
                     [Kdata; Kxab_abra_accept_terms_of_service; Knew_temp_user_auth; Kaccess_token]) ;;
    assign (set_token token) ;;
    ret true.

(** *** [prompt] *)

Definition chat_headers (o : MetaAI) (friendly_name : string) : list (string * string) :=
  [ ("cookie", cookies o);
    ("accept", "*/*");
    ("referer", "https://www.meta.ai/");
    ("accept-language", "en-US,en;q=0.9");
    ("content-type", "application/x-www-form-urlencoded");
    ("user-agent", user_agent);
    ("origin", "https://www.meta.ai");
    ("priority", "u=1, i");
    ("x-fb-friendly-name", friendly_name) ].

(** The template literal of [variables]. *)
Definition prompt_variables (message conversation_id threading_id : string) : string :=
  js "{'message':{'sensitive_string_value':'" ++ message
  ++ js "'},'externalConversationId':'" ++ conversation_id
  ++ js "','offlineThreadingId':'" ++ threading_id
  ++ js "','suggestedPromptIndex':null,'flashVideoRecapInput':{'images':[]},'flashPreviewInput':null,'promptPrefix':null,'entrypoint':'ABRA__CHAT__TEXT','icebreaker_type':'TEXT','__relay_internal__pv__AbraDebugDevOnlyrelayprovider':false,'__relay_internal__pv__WebPixelRatiorelayprovider':1}".

Definition prompt_body (token lsd variables : string) : list (string * string) :=
  [ ("access_token", token);
    ("dpr", "1");
    ("lsd", lsd);
    ("jazoest", "2925");
    ("fb_api_caller_class", "useAbraSendMessageMutation");
    ("server_timestamps", "true");
    ("doc_id", "7783822248314888");
    ("variables", variables) ].

Definition marker : string := "OVERALL_DONE".

(** The scan of [response_arr]: [llm_done] is overwritten by every fragment
    that includes the marker. *)
Fixpoint scan (response_arr : list string) (llm_done : string) : string :=
  match response_arr with
  | [] => llm_done
  | fragment :: rest =>
      scan rest (if JsString.includes fragment marker then fragment else llm_done)
  end.

(** [d.split('\n')]: [split] is the string method, absent from every other
    value. *)
Definition split_lines (d : Value) : M (list string) :=
  lift match d with
       | VString s => Normal (JsString.split newline s)
       | _ => Throw TypeError
       end.

Definition reply_path : list Key := [Kdata; Knode; Kbot_response_message; Ksnippet].
Definition fetch_id_path : list Key := [Kdata; Knode; Kbot_response_message; Kfetch_id].

(** The fields [cookies], [lsd] and [conversation_id] hold strings; the
    field [access_token] holds what the token exchange delivered, which
    [new URLSearchParams(body)] converts to a string. *)
Definition prompt (message : string) : M Value :=
  o <- this ;;
  (* if (this.cookies == '') { if (!(await this.init())) return false; } *)
  initialized <- (if String.eqb (cookies o) EmptyString then init else ret true) ;;
  if negb initialized then ret (VBool false)
  else
    o <- this ;;
    (* if (this.access_token == '') { if (!(await this.set_access_token())) return false; } *)
    no_token <- is_empty (access_token o) ;;
    authorized <- (if (no_token : bool) then set_access_token else ret true) ;;
    if negb authorized then ret (VBool false)
    else
      o <- this ;;
      let headers := chat_headers o "useAbraSendMessageMutation" in
      threading_id <- threadingID ;;
      let variables := prompt_variables message (conversation_id o) threading_id in
      token <- text_of (access_token o) ;;
      let encoded_body := URLSearchParams.toString (prompt_body token (lsd o) variables) in
      response <- post "https://graph.meta.ai/graphql?locale=user" encoded_body headers ;;
      if negb (status response =? 200)%Z then ret (VBool false)
      else
        response_arr <- split_lines (data response) ;;
        let llm_done := scan response_arr EmptyString in
        json_resp <- lift (JSON.parse llm_done) ;;
        llm_response <- lift (path json_resp reply_path) ;;
        fetch_id <- lift (path json_resp fetch_id_path) ;;
        assign (set_last_fetch_id fetch_id) ;;
        ret llm_response.

(** *** [sources] *)

Record Reference : Type := { link : Value; title : Value }.

Record Sources : Type :=
  { search_engine : Value;
    search_query : Value;
    references : list Reference }.

(** [Sources | false] *)
Inductive SourcesOrFalse : Type :=
| NoSources
| TheSources (s : Sources).

Definition sources_variables (fetch_id : string) : string :=
  js "{'abraMessageFetchID':'" ++ fetch_id ++ js "'}".

Definition sources_body (token lsd variables : string) : list (string * string) :=
  [ ("access_token", token);
    ("av", "0");
    ("lsd", lsd);
    ("dpr", "1");
    ("fbi_api_caller_class", "RelayModern");
    ("fbi_api_req_friendly_name", "AbraSearchPluginDialogQuery");
    ("server_timestamps", "true");
    ("doc_id", "6946734308765963");
    ("variables", variables) ].

Definition continuation_byte (c : ascii) : bool :=
  let n := N_of_ascii c in N.leb 128 n && N.ltb n 192.

(** The characters of a string, each with the bytes that continue it. *)
Fixpoint characters_of (s : string) : string * list string :=
  match s with
  | EmptyString => (EmptyString, [])
  | String c s' =>
      let (k, l) := characters_of s' in
      if continuation_byte c then (String c k, l) else (EmptyString, String c k :: l)
  end.

(** What [for (const x of v)] goes through: the elements of an array, the
    characters of a string; no other value here is iterable. *)
Definition iterate (v : Value) : Completion (list Value) :=
  match v with
  | VArray items => Normal items
  | VString s =>
      match characters_of s with
      | (EmptyString, l) => Normal (map VString l)
      | (k, l) => Normal (map VString (k :: l))
      end
  | _ => Throw TypeError
  end.

Fixpoint push_references (items : list Value) : Completion (list Reference) :=
  match items with
  | [] => Normal []
  | reference :: rest =>
      cbind (get reference Klink) (fun l =>
      cbind (get reference Ktitle) (fun t =>
      cbind (push_references rest) (fun rs =>
      Normal ({| link := l; title := t |} :: rs))))
  end.

(** The template literal of [variables] converts [fetch_id] to a string,
    then [new URLSearchParams(body)] converts [access_token]. *)
Definition sources (fetch_id : option string) : M SourcesOrFalse :=
  o <- this ;;
  (* if (typeof fetch_id == 'undefined') { fetch_id = this.last_fetch_id; } *)
  let fetch_id : Value :=
    match fetch_id with
    | None => last_fetch_id o
    | Some id => VString id
    end in
  let headers := chat_headers o "AbraSearchPluginDialogQuery" in
  id <- text_of fetch_id ;;
  token <- text_of (access_token o) ;;
  let encoded_body :=
    URLSearchParams.toString (sources_body token (lsd o) (sources_variables id)) in
  response <- post "https://graph.meta.ai/graphql?locale=user" encoded_body headers ;;
  if negb (status response =? 200)%Z then ret NoSources
  else
    searchResults <- lift (path (data response) [Kdata; Kmessage; KsearchResults]) ;;
    engine <- lift (get searchResults Ksearch_engine) ;;
    query <- lift (get searchResults Ksearch_query) ;;
    listed <- lift (get searchResults Kreferences) ;;
    items <- lift (iterate listed) ;;
    refs <- lift (push_references items) ;;
    ret (TheSources {| search_engine := engine; search_query := query; references := refs |}).

End Client.

(** ** The command line (src/index.ts)

    The program asks for a line, serves it, and asks again, for ever.  A
    session is told here by the lines typed, each with the backend and the
    host that are there while the line is served. *)

Module Cli.
Import JS.

(** What the program does to the terminal: a call of [prompt(ask)] of
    prompt-sync, or a call of [console.log] with its arguments. *)
Inductive Output : Type :=
| Asked (ask : string)
| Logged (args : list Value).

(** The client [metaai] with what it has sent, and the terminal so far
    (oldest first). *)
Record Terminal : Type :=
  { world : Client.World;
    shown : list Output }.

(** The body of the [async] function: it goes on with a terminal, or ends
    with an exception that nothing catches. *)
Definition T (A : Type) : Type := Terminal -> Completion A * Terminal.

Definition ret {A} (a : A) : T A := fun t => (Normal a, t).

Definition bind {A B} (m : T A) (k : A -> T B) : T B :=
  fun t =>
    match m t with
    | (Normal a, t') => k a t'
    | (Throw e, t') => (Throw e, t')
    | (OutOfFuel, t') => (OutOfFuel, t')
    end.

Notation "x <- c1 ;; c2" := (bind c1 (fun x => c2))
  (at level 61, c1 at next level, right associativity).
Notation "c1 ;; c2" := (bind c1 (fun _ => c2))
  (at level 61, right associativity).

Definition lift {A} (c : Completion A) : T A := fun t => (c, t).

Definition output (o : Output) : T unit :=
  fun t => (Normal tt, {| world := world t; shown := shown t ++ [o] |}).

Definition console_log (args : list Value) : T unit := output (Logged args).

(** [await metaai.method(...)] *)
Definition await {A} (method : Client.M A) (env : Client.Env) : T A :=
  fun t =>
    let (r, w) := method env (world t) in
    (r, {| world := w; shown := shown t |}).

(** A substitution of a template literal. *)
Definition template (env : Client.Env) (v : Value) : T string :=
  lift (to_string (Client.number_text env) v).

Section Loop.
(** [String.prototype.toUpperCase], supplied by the host. *)
Variable toUpperCase : string -> string.

(** [for (const reference of sources.references) console.log(...)] *)
Fixpoint log_references (env : Client.Env) (references : list Client.Reference) : T unit :=
  match references with
  | [] => ret tt
  | reference :: rest =>
      title <- template env (Client.title reference) ;;
      link <- template env (Client.link reference) ;;
      console_log [VString (title ++ " - " ++ link)] ;;
      log_references env rest
  end.

(** One round of the [while (true)] loop.  [typed] is what [prompt(...)]
    returns: the line, or [null] when the entry was aborted. *)
Definition round (typed : option string) (env : Client.Env) : T unit :=
  output (Asked "Ask me anything: ") ;;
  match typed with
  | None => lift (Throw TypeError)
  | Some message =>
      if String.eqb (toUpperCase message) "SOURCES" then
        sources <- await (Client.sources None) env ;;
        match sources with
        | Client.NoSources =>
            console_log [VString "There was an error grabbing sources."]
        | Client.TheSources sources =>
            search_engine <- template env (Client.search_engine sources) ;;
            search_query <- template env (Client.search_query sources) ;;
            console_log [VString ("Search Engine: " ++ search_engine
                                  ++ " | Query: " ++ search_query)] ;;
            log_references env (Client.references sources)
        end
      else
        console_log [] ;;
        resp <- await (Client.prompt message) env ;;
        console_log [resp] ;;
        console_log [] ;;
        console_log []
  end.

(** The loop over the lines typed; when they are used up the program is
    waiting for the next one. *)
Fixpoint loop (session : list (option string * Client.Env)) : T unit :=
  match session with
  | [] => ret tt
  | (typed, env) :: rest => round typed env ;; loop rest
  end.

(** [const metaai = new MetaAI()], then the loop. *)
Definition main (uuid : string) (session : list (option string * Client.Env)) :
    Completion unit * Terminal :=
  loop session {| world := Client.fresh uuid; shown := [] |}.

End Loop.

End Cli.

(** * Properties *)

Import JS Client.

(** ** Vocabulary of the statements *)

Definition decimal_digit (c : ascii) : bool :=
  N.leb 48 (N_of_ascii c) && N.leb (N_of_ascii c) 57.

(** Sample number [j] of a call of [threadingID] that starts with [pos]
    values drawn: nineteen fresh draws. *)
Definition nth_sample (rnd : nat -> nat) (pos j : nat) : string :=
  sample rnd 19 (pos + 19 * j) EmptyString.

Definition after_draws (w : World) (n : nat) : World :=
  {| self := self w; sent := sent w; draws := n |}.

Definition logged (w : World) (r : Request) : World :=
  {| self := self w; sent := (sent w ++ [r])%list; draws := draws w |}.

Definition with_self (o : MetaAI) (w : World) : World :=
  {| self := o; sent := sent w; draws := draws w |}.

(** The requests of the four exchanges. *)
Definition init_request : Request :=
  {| method := "GET"; url := "https://meta.ai/"; headers := init_headers; body := None |}.

Definition token_request (o : MetaAI) : Request :=
  {| method := "POST";
     url := "https://www.meta.ai/api/graphql/";
     headers := token_headers o;
     body := Some (URLSearchParams.toString (token_body o)) |}.

Definition chat_url : string := "https://graph.meta.ai/graphql?locale=user".

Definition chat_request (o : MetaAI) (message threading_id token : string) : Request :=
  {| method := "POST";
     url := chat_url;
     headers := chat_headers o "useAbraSendMessageMutation";
     body := Some (URLSearchParams.toString
                     (prompt_body token (lsd o)
                        (prompt_variables message (conversation_id o) threading_id))) |}.

Definition sources_request (o : MetaAI) (fetch_id token : string) : Request :=
  {| method := "POST";
     url := chat_url;
     headers := chat_headers o "AbraSearchPluginDialogQuery";
     body := Some (URLSearchParams.toString
                     (sources_body token (lsd o) (sources_variables fetch_id))) |}.

(** The requests a call sent: what [sent] holds after the call beyond what
    it held before. *)
Definition new_requests (w w' : World) : list Request :=
  skipn (List.length (sent w)) (sent w').

(** The transport answered [r] with a status other than 200. *)
Definition refused (env : Env) (r : Request) : Prop :=
  exists response, http env r = Resolved response /\ status response <> 200%Z.

(** The transport answered [r] with status 200. *)
Definition accepted (env : Env) (r : Request) : Prop :=
  exists response, http env r = Resolved response /\ status response = 200%Z.

(** [fragment] is the last of [fragments] that includes the marker. *)
Definition last_with_marker (fragments : list string) (fragment : string) : Prop :=
  exists before after,
    fragments = (before ++ fragment :: after)%list
    /\ JsString.includes fragment marker = true
    /\ Forall (fun f => JsString.includes f marker = false) after.

(** How a guard of [prompt] ends when it keeps the call from going on: its
    request [q] was answered with another status than 200 and the guard
    returns [false], or the transport rejected, or the answer had status 200
    and reading it threw. *)
Definition stopped_at (env : Env) (q : Request) (r : Completion bool) : Prop :=
  (refused env q /\ r = Normal false)
  \/ (http env q = Rejected /\ r = Throw TransportError)
  \/ (accepted env q /\ exists e, r = Throw e).

(** The three parts of the body of [prompt]: lines 160-164, 165-169 and
    170-225 of the source. *)
Definition ensure_cookies : M bool :=
  o <- this ;;
  if String.eqb (cookies o) EmptyString then init else ret true.

Definition ensure_access_token : M bool :=
  o <- this ;;
  no_token <- is_empty (access_token o) ;;
  if (no_token : bool) then set_access_token else ret true.

(** What the last lines of [prompt] take from the body of the response:
    the reply and the fetch identifier. *)
Definition read_reply (d : Value) : Completion (Value * Value) :=
  match d with
  | VString s =>
      cbind (JSON.parse (scan (JsString.split newline s) EmptyString)) (fun json_resp =>
      cbind (path json_resp reply_path) (fun llm_response =>
      cbind (path json_resp fetch_id_path) (fun fetch_id =>
      Normal (llm_response, fetch_id))))
  | _ => Throw TypeError
  end.

(** What the last lines of [sources] make of the body of the response. *)
Definition read_sources (d : Value) : Completion SourcesOrFalse :=
  cbind (path d [Kdata; Kmessage; KsearchResults]) (fun searchResults =>
  cbind (get searchResults Ksearch_engine) (fun engine =>
  cbind (get searchResults Ksearch_query) (fun query =>
  cbind (get searchResults Kreferences) (fun listed =>
  cbind (iterate listed) (fun items =>
  cbind (push_references items) (fun refs =>
  Normal (TheSources {| search_engine := engine;
                        search_query := query;
                        references := refs |}))))))).

(** Lines 170-225 of the source in explicit form: the world after [prompt]
    when both guards have passed. *)
Definition send_message (message : string) (env : Env) (w : World) : Completion Value * World :=
  let o := self w in
  match threadingID_loop (random_index env) (loop_bound env) (draws w) with
  | None => (OutOfFuel, w)
  | Some (threading_id, drawn) =>
      let w1 := after_draws w drawn in
      match to_string (number_text env) (access_token o) with
      | Throw e => (Throw e, w1)
      | OutOfFuel => (OutOfFuel, w1)
      | Normal token =>
          let request := chat_request o message threading_id token in
          match http env request with
          | Rejected => (Throw TransportError, logged w1 request)
          | Resolved response =>
              if negb (status response =? 200)%Z
              then (Normal (VBool false), logged w1 request)
              else match read_reply (data response) with
                   | Normal (llm_response, fetch_id) =>
                       (Normal llm_response,
                        with_self (set_last_fetch_id fetch_id o) (logged w1 request))
                   | Throw e => (Throw e, logged w1 request)
                   | OutOfFuel => (OutOfFuel, logged w1 request)
                   end
          end
      end
  end.

(** The calls a user of the class can make, and a run of them, each call
    in an environment of its own. *)
Inductive Call : Type :=
| CallInit
| CallSetAccessToken
| CallPrompt (message : string)
| CallSources (fetch_id : option string).

Definition call (c : Call) (env : Env) (w : World) : World :=
  match c with
  | CallInit => snd (init env w)
  | CallSetAccessToken => snd (set_access_token env w)
  | CallPrompt message => snd (prompt message env w)
  | CallSources fetch_id => snd (sources fetch_id env w)
  end.

Fixpoint run (calls : list (Call * Env)) (w : World) : World :=
  match calls with
  | [] => w
  | (c, env) :: rest => run rest (call c env w)
  end.

Definition direct_token_call (c : Call * Env) : bool :=
  match fst c with
  | CallSetAccessToken => true
  | _ => false
  end.

(** A string that can stand between the quotes of a JSON string literal as
    it is: no double quote, no backslash, no control character. *)
Definition plain (c : ascii) : bool :=
  negb (Ascii.eqb c dquote) && negb (Ascii.eqb c backslash)
  && negb (N.ltb (N_of_ascii c) 32).

(** The cookie string the specification describes: the three cookie values
    as [key=value] pairs separated by a semicolon. *)
Definition three_cookies (_js_datr abra_csrf datr : string) : string :=
  "_js_datr=" ++ _js_datr ++ "; abra_csrf=" ++ abra_csrf ++ "; datr=" ++ datr.

(** The four groups [init] takes from the page. *)
Definition page_groups (d : Value) : option (string * string * string * string) :=
  match d with
  | VString page =>
      match Regex.search Regex.abra_csrf page, Regex.search Regex._js_datr page,
            Regex.search Regex.datr page, Regex.search Regex.lsd page with
      | Some a, Some j, Some t, Some l => Some (a, j, t, l)
      | _, _, _, _ => None
      end
  | _ => None
  end.

Definition no_marker (fragments : list string) : Prop :=
  Forall (fun f => JsString.includes f marker = false) fragments.

(** The four patterns of [init], and the text each of them begins with. *)
Definition init_patterns : list Regex.t :=
  [Regex.abra_csrf; Regex._js_datr; Regex.datr; Regex.lsd].

Definition init_markers : list string :=
  [js "abra_csrf':{'value':'"; js "_js_datr':{'value':'"; js "datr':{'value':'"; "LSD"].

(** The token is there only behind cookies. *)
Definition token_behind_cookies (o : MetaAI) : Prop :=
  access_token o <> VString EmptyString -> cookies o <> EmptyString.

(** The pieces of a string whose characters all stand for themselves. *)
Fixpoint raw (s : string) : list JSON.Piece :=
  match s with
  | EmptyString => []
  | String c s' => JSON.Raw c :: raw s'
  end.

Fixpoint cons_tokens (ts : list JSON.Token) (r : option (list JSON.Token)) :
    option (list JSON.Token) :=
  match ts with
  | [] => r
  | t :: ts' => JSON.cons_token t (cons_tokens ts' r)
  end.

(** What [lex] does after an opening quote. *)
Definition then_string (f : nat) (s : string) : option (list JSON.Token) :=
  match JSON.scan_string s with
  | Some (ps, rest) => JSON.cons_token (JSON.TString (JSON.text ps)) (JSON.lex f rest)
  | None => None
  end.

(** The template of [variables], cut at its three holes; each hole is
    followed by the closing quote of its string. *)
Definition part1 : string := js "{'message':{'sensitive_string_value':'".
Definition part2 : string := js "},'externalConversationId':'".
Definition part3 : string := js ",'offlineThreadingId':'".
Definition part4 : string :=
  js ",'suggestedPromptIndex':null,'flashVideoRecapInput':{'images':[]},'flashPreviewInput':null,'promptPrefix':null,'entrypoint':'ABRA__CHAT__TEXT','icebreaker_type':'TEXT','__relay_internal__pv__AbraDebugDevOnlyrelayprovider':false,'__relay_internal__pv__WebPixelRatiorelayprovider':1}".

(** The document the template spells. *)
Definition variables_document (message conversation_id threading_id : string) : Value :=
  VObject
    [ ("message", VObject [("sensitive_string_value", VString message)]);
      ("externalConversationId", VString conversation_id);
      ("offlineThreadingId", VString threading_id);
      ("suggestedPromptIndex", VNull);
      ("flashVideoRecapInput", VObject [("images", VArray [])]);
      ("flashPreviewInput", VNull);
      ("promptPrefix", VNull);
      ("entrypoint", VString "ABRA__CHAT__TEXT");
      ("icebreaker_type", VString "TEXT");
      ("__relay_internal__pv__AbraDebugDevOnlyrelayprovider", VBool false);
      ("__relay_internal__pv__WebPixelRatiorelayprovider", VNumber "1") ].

(** [message.sensitive_string_value] of a document. *)
Definition sensitive_string_value (json : Value) : option Value :=
  match json with
  | VObject members =>
      match own members "message" with
      | Some (VObject inner) => own inner "sensitive_string_value"
      | _ => None
      end
  | _ => None
  end.

(** A character that ends neither a captured group nor a header line. *)
Definition header_safe (c : ascii) : bool :=
  negb (Ascii.eqb c dquote) && negb (Ascii.eqb c "010"%char)
  && negb (Ascii.eqb c "013"%char).

(** A printable ASCII character other than the double quote. *)
Definition printable (c : ascii) : bool :=
  N.leb 32 (N_of_ascii c) && N.ltb (N_of_ascii c) 127 && negb (Ascii.eqb c dquote).

(** [l] is [m] with some of its elements left out. *)
Fixpoint subsequence (l m : list string) : bool :=
  match l, m with
  | [], _ => true
  | _ :: _, [] => false
  | x :: l', y :: m' => if String.eqb x y then subsequence l' m' else subsequence l m'
  end.

(** The address of the token exchange. *)
Definition token_url : string := "https://www.meta.ai/api/graphql/".

(** The three addresses the client talks to, in the order of a first
    [prompt]. *)
Definition endpoints : list string :=
  ["https://meta.ai/"; token_url; chat_url].

(** The mark of a chat request among the requests of the client: its
    [x-fb-friendly-name] header. *)
Definition sends_message (q : Request) : Prop :=
  In ("x-fb-friendly-name", "useAbraSendMessageMutation") (headers q).

(** A chat request of the conversation [uuid]. *)
Definition in_conversation (uuid : string) (q : Request) : Prop :=
  exists message threading_id token lsd,
    body q = Some (URLSearchParams.toString
                     (prompt_body token lsd (prompt_variables message uuid threading_id))).

(** A character the serializer writes for a name or a value: never the
    separator of two fields nor the one of a name and its value. *)
Definition no_separator (c : ascii) : bool :=
  negb (Ascii.eqb c "&"%char) && negb (Ascii.eqb c "="%char).

(** One field of a body as the serializer writes it. *)
Definition field (kv : string * string) : string :=
  URLSearchParams.encode (fst kv) ++ "=" ++ URLSearchParams.encode (snd kv).

(** The byte two hexadecimal digits denote. *)
Definition unhex (h1 h2 : ascii) : option ascii :=
  match JSON.hex h1, JSON.hex h2 with
  | Some x, Some y => Some (ascii_of_N (x * 16 + y))
  | _, _ => None
  end.

(** A text that holds no surrogate code unit. *)
Fixpoint scalar (s : string) : bool :=
  match s with
  | EmptyString => true
  | String b1 s1 =>
      match s1 with
      | String b2 (String b3 _) => negb (URLSearchParams.surrogate b1 b2 b3) && scalar s1
      | _ => true
      end
  end.

(** [undefined] or [null]: a value no property can be read of. *)
Definition nullish (v : Value) : bool :=
  match v with
  | VUndefined | VNull => true
  | _ => false
  end.

(** Text, as against the value of a parsed body. *)
Definition is_text (d : Value) : bool :=
  match d with
  | VString _ => true
  | _ => false
  end.

(** The carriage return. *)
Definition cr : ascii := "013"%char.

(** What a scan gives when a carriage return is put at the end of the
    text. *)
Definition then_cr (r : option (string * string)) : option (string * string) :=
  match r with
  | Some (n, rest) => Some (n, rest ++ str1 cr)
  | None => None
  end.

Definition pieces_then_cr (r : option (list JSON.Piece * string)) :
    option (list JSON.Piece * string) :=
  match r with
  | Some (ps, rest) => Some (ps, rest ++ str1 cr)
  | None => None
  end.

(** The fragments of a text whose lines end with a carriage return and a
    line feed: each but the last keeps the carriage return. *)
Fixpoint with_cr (fragments : list string) : list string :=
  match fragments with
  | [] => []
  | [x] => [x]
  | x :: rest => (x ++ str1 cr) :: with_cr rest
  end.

Definition no_line_feed (f : string) : bool :=
  JsString.all (fun c => negb (Ascii.eqb c newline)) f.

(** The call a line is served by. *)
Definition served_by (toUpperCase : string -> string) (typed : option string) : option Call :=
  match typed with
  | None => None
  | Some message =>
      if String.eqb (toUpperCase message) "SOURCES" then Some (CallSources None)
      else Some (CallPrompt message)
  end.

(** A character the dot of a pattern takes (the byte that begins U+2028
    and U+2029 in UTF-8 is left aside). *)
Definition inline (c : ascii) : bool :=
  negb (Ascii.eqb c "010"%char) && negb (Ascii.eqb c "013"%char)
  && negb (Ascii.eqb c "226"%char).

(** [marker] stands at one of the first [n] places of [page]. *)
Fixpoint stands_before (n : nat) (marker page : string) : bool :=
  match n with
  | O => false
  | S n' =>
      JsString.startsWith page marker
      || match page with
         | EmptyString => false
         | String _ page' => stands_before n' marker page'
         end
  end.

(** The first [marker] of [page] stands after [pre]; [value], made of
    printable characters, and a double quote follow it. *)
Definition marked (marker page pre value post : string) : Prop :=
  page = pre ++ marker ++ value ++ String dquote post
  /\ stands_before (String.length pre) marker page = false
  /\ JsString.all printable value = true.

(** The first LSD of [page] stands after [pre]; [mid] follows it on the same
    line, then the first token marker, then [value] and a double quote. *)
Definition lsd_marked (page pre mid value post : string) : Prop :=
  let rest := mid ++ js "token':'" ++ value ++ String dquote post in
  page = pre ++ "LSD" ++ rest
  /\ stands_before (String.length pre) "LSD" page = false
  /\ JsString.all inline mid = true
  /\ stands_before (String.length mid) (js "token':'") rest = false
  /\ JsString.all printable value = true.

(** ** Worlds to run the client in

    No number is converted to a string in these worlds; [number_text] is the
    identity in all of them. *)


(** A landing page with the four markers. *)
Definition landing_page : string :=
  js "<script>{'abra_csrf':{'value':'AAA'},'datr':{'value':'DDD'},'_js_datr':{'value':'JJJ'}}, ['LSD',[],{'token':'LLL'}]</script>".

Definition token_answer : Value :=
  VObject [("data", VObject [("xab_abra_accept_terms_of_service",
     VObject [("new_temp_user_auth", VObject [("access_token", VString "TOK")])])])].

(** A backend that serves the landing page and the token, and answers any
    other request with [other]. *)
Definition backend (other : Answer) : Env :=
  {| http := fun r =>
       if String.eqb (url r) "https://meta.ai/"
       then Resolved {| status := 200; data := VString landing_page |}
       else if String.eqb (url r) "https://www.meta.ai/api/graphql/"
            then Resolved {| status := 200; data := token_answer |}
            else other;
     random_index := fun _ => 0;
     loop_bound := 1;
     number_text := fun literal => literal |}.

(** A streamed chat answer of five fragments; the third alone includes the
    completion marker. *)
Definition five_fragments : string :=
  js "{'data':{'node':{'bot_response_message':{'snippet':'h','fetch_id':'F0','streaming_state':'STREAMING'}}}}"
  ++ str1 newline
  ++ js "{'data':{'node':{'bot_response_message':{'snippet':'he','fetch_id':'F0','streaming_state':'STREAMING'}}}}"
  ++ str1 newline
  ++ js "{'data':{'node':{'bot_response_message':{'snippet':'hello','fetch_id':'F1','streaming_state':'OVERALL_DONE'}}}}"
  ++ str1 newline
  ++ js "{'data':{'node':{'bot_response_message':{'snippet':'late','fetch_id':'F2','streaming_state':'STREAMING'}}}}"
  ++ str1 newline
  ++ js "{'extensions':{'is_final':true}}".

Definition third_fragment : string :=
  js "{'data':{'node':{'bot_response_message':{'snippet':'hello','fetch_id':'F1','streaming_state':'OVERALL_DONE'}}}}".

Definition streaming : Env :=
  backend (Resolved {| status := 200; data := VString five_fragments |}).

Definition chat_refused : Env :=
  backend (Resolved {| status := 500; data := VString EmptyString |}).

Definition all_refused : Env :=
  {| http := fun _ => Resolved {| status := 503; data := VString "Service Unavailable" |};
     random_index := fun _ => 0;
     loop_bound := 1;
     number_text := fun literal => literal |}.

(** A session whose cookies and token are there already. *)
Definition ready : World :=
  {| self := {| access_token := VString "TOK";
                cookies := "_js_datr=JJJ; abra_csrf=AAA; datr=DDD; lsd=LLL";
                lsd := "LLL";
                conversation_id := "c0ffee";
                last_fetch_id := VString "F1" |};
     sent := [];
     draws := 0 |}.

(** A backend whose answers have status 200 and none of the content the
    client reads. *)
Definition drifted : Env :=
  {| http := fun r =>
       Resolved
         {| status := 200;
            data := if String.eqb (url r) "https://www.meta.ai/api/graphql/"
                    then VObject [("errors", VArray [])]
                    else VString (js "{'errors':[]}") |};
     random_index := fun _ => 0;
     loop_bound := 1;
     number_text := fun literal => literal |}.

(** A landing page whose [lsd] token is empty. *)
Definition empty_lsd : Env :=
  {| http := fun r =>
       if String.eqb (url r) "https://meta.ai/"
       then Resolved
              {| status := 200;
                 data := VString (js "{'abra_csrf':{'value':'AAA'},'datr':{'value':'DDD'},'_js_datr':{'value':'JJJ'}}, ['LSD',[],{'token':''}]") |}
       else if String.eqb (url r) "https://www.meta.ai/api/graphql/"
            then Resolved {| status := 200; data := token_answer |}
            else Rejected;
     random_index := fun _ => 0;
     loop_bound := 1;
     number_text := fun literal => literal |}.

(** A backend that answers the lookup with two references. *)
Definition found : Env :=
  {| http := fun _ =>
       Resolved
         {| status := 200;
            data := VObject [("data", VObject [("message", VObject [("searchResults",
                      VObject [("search_engine", VString "BING");
                               ("search_query", VString "rocq");
                               ("references",
                                VArray [VObject [("link", VString "https://a.example");
                                                 ("title", VString "A")];
                                        VObject [("link", VString "https://b.example");
                                                 ("title", VString "B")]])])])])] |};
     random_index := fun _ => 0;
     loop_bound := 1;
     number_text := fun literal => literal |}.

(** A landing page with a [_js_datr] marker and no [datr] marker of its
    own. *)
Definition page_without_datr : string :=
  js "{'abra_csrf':{'value':'AAA'},'_js_datr':{'value':'JJJ'}}, ['LSD',[],{'token':'LLL'}]".

Definition without_datr : Env :=
  {| http := fun _ => Resolved {| status := 200; data := VString page_without_datr |};
     random_index := fun _ => 0;
     loop_bound := 1;
     number_text := fun literal => literal |}.

(** A backend that serves the landing page and refuses everything else. *)
Definition token_refused : Env :=
  {| http := fun r =>
       if String.eqb (url r) "https://meta.ai/"
       then Resolved {| status := 200; data := VString landing_page |}
       else Resolved {| status := 403; data := VString "Forbidden" |};
     random_index := fun _ => 0;
     loop_bound := 1;
     number_text := fun literal => literal |}.

(** A backend whose chat answer has lines that end with a carriage return
    and a line feed. *)
Definition carriage_returns : Env :=
  backend (Resolved {| status := 200;
                       data := VString ("{}" ++ String "013" (String "010" third_fragment)
                                        ++ String "013" (String "010" "{}")) |}).

(** [toUpperCase] on a line of ASCII characters. *)
Definition upper (c : ascii) : ascii :=
  let n := N_of_ascii c in
  if N.leb 97 n && N.leb n 122 then ascii_of_N (n - 32) else c.

Fixpoint ascii_upper (s : string) : string :=
  match s with
  | EmptyString => EmptyString
  | String c s' => String (upper c) (ascii_upper s')
  end.

(** Case analysis on the comparisons of a character of the text with a
    character of a pattern. *)
Ltac case_eqb :=
  repeat match goal with
         | |- context [Ascii.eqb ?a ?b] =>
             lazymatch b with
             | Ascii _ _ _ _ _ _ _ _ => fail
             | _ => destruct (Ascii.eqb a b); cbn [andb]
             end
         end.

(** A landing page where markers come twice. *)
Definition page_with_repeats : string :=
  js "{'abra_csrf':{'value':'A1'},'datr':{'value':'D1'},'_js_datr':{'value':'J1'},'abra_csrf':{'value':'A2'}} ['LSD',[],{'token':'L1'}] ['LSD',[],{'token':'L2'}]".

Definition repeated_markers : Env :=
  {| http := fun _ => Resolved {| status := 200; data := VString page_with_repeats |};
     random_index := fun _ => 0;
     loop_bound := 1;
     number_text := fun literal => literal |}.

(** ** [threadingID] *)

Section ThreadingID.

Variable rnd : nat -> nat.
Hypothesis in_range : forall k, rnd k < 10.

Lemma charAt_characters (k : nat) :
  k < 10 ->
  exists c, JsString.charAt characters k = str1 c /\ decimal_digit c = true
            /\ (c = "9"%char <-> k = 8) /\ (c = "0"%char <-> k = 9).
Proof.
  intro H.
  do 10 (destruct k as [|k];
         [eexists; repeat split; try reflexivity; intro; discriminate|]).
  lia.
Qed.

Lemma sample_append (n pos : nat) (r : string) :
  sample rnd n pos r = r ++ sample rnd n pos EmptyString.
Proof.
  revert pos r. induction n as [|n IH]; intros pos r; simpl.
  - induction r; simpl; congruence.
  - rewrite IH. rewrite (IH (S pos) (JsString.charAt _ _)).
    clear. induction r; simpl; [reflexivity | now f_equal].
Qed.

Lemma sample_step (n pos : nat) :
  sample rnd (S n) pos EmptyString
  = JsString.charAt characters (rnd pos) ++ sample rnd n (S pos) EmptyString.
Proof. simpl. now rewrite sample_append. Qed.

Lemma sample_length (n pos : nat) :
  String.length (sample rnd n pos EmptyString) = n.
Proof.
  revert pos. induction n as [|n IH]; intro pos; [reflexivity|].
  rewrite sample_step.
  destruct (charAt_characters (rnd pos) (in_range pos)) as (c & -> & _).
  simpl. now rewrite IH.
Qed.

Lemma sample_digits (n pos : nat) :
  JsString.all decimal_digit (sample rnd n pos EmptyString) = true.
Proof.
  revert pos. induction n as [|n IH]; intro pos; [reflexivity|].
  rewrite sample_step.
  destruct (charAt_characters (rnd pos) (in_range pos)) as (c & -> & Hc & _).
  simpl. now rewrite Hc, IH.
Qed.


Lemma loop_first_accepted (fuel pos : nat) (s : string) (pos' : nat) :
  threadingID_loop rnd fuel pos = Some (s, pos') <->
  exists n, n < fuel
            /\ (forall j, j < n -> rejected (nth_sample rnd pos j) = true)
            /\ rejected (nth_sample rnd pos n) = false
            /\ s = nth_sample rnd pos n
            /\ pos' = pos + 19 * (n + 1).
Proof.
  assert (shift : forall p j, nth_sample rnd (p + 19) j = nth_sample rnd p (S j)).
  { intros p j. unfold nth_sample. f_equal. lia. }
  assert (zero : forall p, nth_sample rnd p 0 = sample rnd 19 p EmptyString).
  { intro p. unfold nth_sample. f_equal. lia. }
  revert pos. induction fuel as [|fuel IH]; intro pos.
  - simpl. split; [discriminate | intros (n & H & _); lia].
  - cbn [threadingID_loop]. rewrite <- zero.
    destruct (rejected (nth_sample rnd pos 0)) eqn:R.
    + split.
      * intro H. apply IH in H. destruct H as (n & Hn & Hrej & Hacc & Hs & Hp).
        rewrite shift in Hacc, Hs. exists (S n).
        split; [lia|]. split; [|split; [exact Hacc|split; [exact Hs|lia]]].
        intros [|j] Hj; [exact R|]. rewrite <- shift. apply Hrej. lia.
      * intros (n & Hn & Hrej & Hacc & Hs & Hp).
        destruct n as [|n]; [congruence|].
        apply IH. exists n.
        split; [lia|]. rewrite shift.
        split; [|split; [exact Hacc|split; [exact Hs|lia]]].
        intros j Hj. rewrite shift. apply Hrej. lia.
    + split.
      * intro H. inversion H; subst. exists 0.
        repeat split; try lia; try assumption.
      * intros (n & Hn & Hrej & Hacc & -> & ->).
        destruct n as [|n].
        -- reflexivity.
        -- specialize (Hrej 0 ltac:(lia)). congruence.
Qed.

End ThreadingID.



(** ** The methods, case by case *)

Lemma status_not_200 (z : Z) : negb (z =? 200)%Z = true <-> z <> 200%Z.
Proof. rewrite Bool.negb_true_iff. apply Z.eqb_neq. Qed.

Lemma status_200 (z : Z) : negb (z =? 200)%Z = false <-> z = 200%Z.
Proof. rewrite Bool.negb_false_iff. apply Z.eqb_eq. Qed.

Lemma init_cases (env : Env) (w : World) :
  init env w =
  match http env init_request with
  | Rejected => (Throw TransportError, logged w init_request)
  | Resolved response =>
      if negb (status response =? 200)%Z then (Normal false, logged w init_request)
      else match page_groups (data response) with
           | Some (a, j, t, l) =>
               (Normal true,
                with_self (set_lsd l (set_cookies (cookie_string j a t l) (self w)))
                  (logged w init_request))
           | None => (Throw TypeError, logged w init_request)
           end
  end.
Proof.
  unfold init, get_, exchange, bind, match1, lift, assign, ret, page_groups.
  fold init_request.
  destruct (http env init_request) as [response|]; [|reflexivity].
  destruct (negb (status response =? 200)%Z); [reflexivity|].
  destruct (data response); try reflexivity.
  repeat (match goal with
          | |- context [Regex.search ?re ?s] => destruct (Regex.search re s)
          end; simpl; try reflexivity).
Qed.

Lemma set_access_token_cases (env : Env) (w : World) :
  set_access_token env w =
  let request := token_request (self w) in
  match http env request with
  | Rejected => (Throw TransportError, logged w request)
  | Resolved response =>
      if negb (status response =? 200)%Z then (Normal false, logged w request)
      else match path (data response)
                   [Kdata; Kxab_abra_accept_terms_of_service; Knew_temp_user_auth;
                    Kaccess_token] with
           | Normal token => (Normal true, with_self (set_token token (self w)) (logged w request))
           | Throw e => (Throw e, logged w request)
           | OutOfFuel => (OutOfFuel, logged w request)
           end
  end.
Proof.
  unfold set_access_token, post, exchange, bind, this, lift, assign, ret.
  fold (token_request (self w)). cbv zeta.
  destruct (http env (token_request (self w))) as [response|]; [|reflexivity].
  destruct (negb (status response =? 200)%Z); [reflexivity|].
  destruct (path _ _); reflexivity.
Qed.

(** Property reads and conversions end with a value or an exception. *)
Lemma get_total (v : Value) (k : Key) : get v k <> OutOfFuel.
Proof. destruct v; simpl; try discriminate; destruct k; try discriminate;
       destruct (own _ _); discriminate. Qed.

Lemma path_total (ks : list Key) (v : Value) : path v ks <> OutOfFuel.
Proof.
  revert v. induction ks as [|k ks IH]; intro v; simpl; [discriminate|].
  destruct (get v k) eqn:G; simpl; try discriminate; [apply IH|].
  now apply get_total in G.
Qed.

(** Induction over a value and the values inside it. *)
Lemma Value_induction (P : Value -> Prop) :
  P VUndefined -> P VNull -> (forall b, P (VBool b)) -> (forall n, P (VNumber n)) ->
  (forall s, P (VString s)) ->
  (forall items, Forall P items -> P (VArray items)) ->
  (forall members, Forall (fun m => P (snd m)) members -> P (VObject members)) ->
  (forall name, P (VBuiltin name)) ->
  forall v, P v.
Proof.
  intros Hu Hn Hb Hnum Hs Ha Ho Hf.
  exact (fix go (v : Value) : P v :=
           match v with
           | VUndefined => Hu
           | VNull => Hn
           | VBool b => Hb b
           | VNumber n => Hnum n
           | VString s => Hs s
           | VArray items =>
               Ha items
                 ((fix all (l : list Value) : Forall P l :=
                     match l with
                     | [] => Forall_nil P
                     | x :: r => Forall_cons x (go x) (all r)
                     end) items)
           | VObject members =>
               Ho members
                 ((fix all (l : list (string * Value)) : Forall (fun m => P (snd m)) l :=
                     match l with
                     | [] => Forall_nil _
                     | m :: r => Forall_cons m (go (snd m)) (all r)
                     end) members)
           | VBuiltin name => Hf name
           end).
Qed.

Lemma to_string_total (number_text : string -> string) :
  forall v, to_string number_text v <> OutOfFuel.
Proof.
  induction v as [| |[|]|n|s|items IH|members _|name] using Value_induction;
    simpl; try discriminate.
  - induction IH as [|x rest Hx _ IHrest]; [discriminate|].
    assert (E : match x with
                | VUndefined | VNull => Normal EmptyString
                | _ => to_string number_text x
                end <> OutOfFuel).
    { destruct x; try discriminate; exact Hx. }
    destruct rest as [|y rest]; [exact E|].
    destruct (match x with
              | VUndefined | VNull => Normal EmptyString
              | _ => to_string number_text x
              end); try discriminate; [|congruence].
    simpl. simpl in IHrest.
    match goal with
    | |- cbind ?c _ <> _ => destruct c; simpl; try discriminate; congruence
    end.
  - destruct (own members "toString"); discriminate.
Qed.

Lemma loosely_empty_total (number_text : string -> string) (v : Value) :
  loosely_empty number_text v <> OutOfFuel.
Proof.
  pose proof (to_string_total number_text v) as T.
  destruct v; try (simpl; discriminate);
    unfold loosely_empty; destruct (to_string _ _); simpl; congruence.
Qed.

Lemma sources_cases (fetch_id : option string) (env : Env) (w : World) :
  sources fetch_id env w =
  let o := self w in
  let wanted := match fetch_id with None => last_fetch_id o | Some id => VString id end in
  match to_string (number_text env) wanted with
  | Throw e => (Throw e, w)
  | OutOfFuel => (OutOfFuel, w)
  | Normal id =>
      match to_string (number_text env) (access_token o) with
      | Throw e => (Throw e, w)
      | OutOfFuel => (OutOfFuel, w)
      | Normal token =>
          let request := sources_request o id token in
          match http env request with
          | Rejected => (Throw TransportError, logged w request)
          | Resolved response =>
              if negb (status response =? 200)%Z then (Normal NoSources, logged w request)
              else (read_sources (data response), logged w request)
          end
      end
  end.
Proof.
  unfold sources, post, exchange, bind, this, lift, text_of, ret, read_sources. cbv zeta.
  destruct (to_string (number_text env) _) as [id| |]; try reflexivity.
  destruct (to_string (number_text env) (access_token (self w))) as [token| |];
    try reflexivity.
  fold chat_url. fold (sources_request (self w) id token).
  destruct (http env _) as [response|]; [|reflexivity].
  destruct (negb (status response =? 200)%Z); [reflexivity|].
  repeat match goal with
         | |- context [match ?c with _ => _ end] =>
             lazymatch c with
             | context [match _ with _ => _ end] => fail
             | _ => destruct c; simpl; try reflexivity
             end
         end.
Qed.

Lemma read_sources_total (d : Value) : read_sources d <> OutOfFuel.
Proof.
  unfold read_sources.
  pose proof (path_total [Kdata; Kmessage; KsearchResults] d) as P.
  destruct (path _ _) as [results| |]; cbn [cbind]; try congruence.
  pose proof (get_total results Ksearch_engine) as G1.
  pose proof (get_total results Ksearch_query) as G2.
  pose proof (get_total results Kreferences) as G3.
  destruct (get results Ksearch_engine); cbn [cbind]; try congruence.
  destruct (get results Ksearch_query); cbn [cbind]; try congruence.
  destruct (get results Kreferences) as [listed| |]; cbn [cbind]; try congruence.
  assert (I : iterate listed <> OutOfFuel).
  { destruct listed; simpl; try discriminate.
    destruct (characters_of _) as [[|? ?] ?]; discriminate. }
  destruct (iterate listed) as [items| |]; cbn [cbind]; try congruence.
  assert (R : push_references items <> OutOfFuel).
  { clear. induction items as [|x items IH]; simpl; [discriminate|].
    pose proof (get_total x Klink). pose proof (get_total x Ktitle).
    destruct (get x Klink); cbn [cbind]; try congruence.
    destruct (get x Ktitle); cbn [cbind]; try congruence.
    destruct (push_references items); cbn [cbind]; congruence. }
  destruct (push_references items); cbn [cbind]; congruence.
Qed.

Lemma ensure_cookies_cases (env : Env) (w : World) :
  ensure_cookies env w =
  if String.eqb (cookies (self w)) EmptyString then init env w else (Normal true, w).
Proof.
  unfold ensure_cookies, bind, this.
  destruct (String.eqb _ _); [destruct (init env w) as [[]]|]; reflexivity.
Qed.

Lemma ensure_access_token_cases (env : Env) (w : World) :
  ensure_access_token env w =
  match loosely_empty (number_text env) (access_token (self w)) with
  | Normal true => set_access_token env w
  | Normal false => (Normal true, w)
  | Throw e => (Throw e, w)
  | OutOfFuel => (OutOfFuel, w)
  end.
Proof.
  unfold ensure_access_token, bind, this, is_empty.
  destruct (loosely_empty _ _) as [[|]| |]; reflexivity.
Qed.

Lemma prompt_cases (message : string) (env : Env) (w : World) :
  prompt message env w =
  match ensure_cookies env w with
  | (Normal true, w1) =>
      match ensure_access_token env w1 with
      | (Normal true, w2) => send_message message env w2
      | (Normal false, w2) => (Normal (VBool false), w2)
      | (Throw e, w2) => (Throw e, w2)
      | (OutOfFuel, w2) => (OutOfFuel, w2)
      end
  | (Normal false, w1) => (Normal (VBool false), w1)
  | (Throw e, w1) => (Throw e, w1)
  | (OutOfFuel, w1) => (OutOfFuel, w1)
  end.
Proof.
  unfold prompt, ensure_cookies, ensure_access_token, send_message, read_reply,
    chat_request, chat_url, logged, after_draws, with_self,
    bind, this, threadingID, text_of, is_empty, post, exchange, split_lines,
    lift, assign, ret; cbv zeta.
  repeat match goal with
         | |- context [negb ?b] => is_var b; destruct b; simpl; try reflexivity
         | |- context [match ?c with _ => _ end] =>
             lazymatch c with
             | context [match _ with _ => _ end] => fail
             | _ => destruct c; simpl; try reflexivity
             end
         end.
Qed.

(** ** What a call of [prompt] sends, returns and changes *)

Lemma cookie_string_not_empty (j a t l : string) : cookie_string j a t l <> EmptyString.
Proof. discriminate. Qed.

Lemma new_requests_of (w w' : World) (l : list Request) :
  sent w' = (sent w ++ l)%list -> new_requests w w' = l.
Proof.
  intro E. unfold new_requests. rewrite E. clear E.
  induction (sent w) as [|x s IH]; [reflexivity | exact IH].
Qed.

Lemma refused_not_accepted (env : Env) (q : Request) : refused env q -> ~ accepted env q.
Proof. intros (r1 & A1 & S1) (r2 & A2 & S2). congruence. Qed.

Lemma rejected_not_accepted (env : Env) (q : Request) :
  http env q = Rejected -> ~ accepted env q.
Proof. intros A (r & A' & _). congruence. Qed.

Lemma rejected_not_refused (env : Env) (q : Request) :
  http env q = Rejected -> ~ refused env q.
Proof. intros A (r & A' & _). congruence. Qed.

Lemma ensure_cookies_summary (env : Env) (w : World) (r : Completion bool) (w1 : World) :
  ensure_cookies env w = (r, w1) ->
  draws w1 = draws w
  /\ conversation_id (self w1) = conversation_id (self w)
  /\ last_fetch_id (self w1) = last_fetch_id (self w)
  /\ access_token (self w1) = access_token (self w)
  /\ exists l,
      sent w1 = (sent w ++ l)%list
      /\ Forall (fun q => url q <> chat_url) l
      /\ ((r = Normal true /\ cookies (self w1) <> EmptyString
           /\ Forall (accepted env) l /\ (l = [] -> self w1 = self w))
          \/ (self w1 = self w /\ exists q, l = [q] /\ stopped_at env q r)).
Proof.
  rewrite ensure_cookies_cases.
  destruct (String.eqb (cookies (self w)) EmptyString) eqn:C.
  - rewrite init_cases.
    assert (U : Forall (fun q => url q <> chat_url) [init_request]).
    { constructor; [discriminate | constructor]. }
    destruct (http env init_request) as [response|] eqn:A.
    + destruct (negb (status response =? 200)%Z) eqn:S.
      * intro H; inversion H; subst; clear H. simpl.
        repeat split. exists [init_request]. repeat split; [exact U|].
        right. split; [reflexivity|]. eexists; split; [reflexivity|].
        left. split; [|reflexivity]. exists response. split; [exact A|].
        now apply status_not_200.
      * assert (Acc : accepted env init_request).
        { exists response. split; [exact A | now apply status_200]. }
        destruct (page_groups (data response)) as [[[[a j] t] l]|];
          intro H; inversion H; subst; clear H; simpl;
          (repeat split); exists [init_request]; (repeat split); try exact U.
        -- left. repeat split; [discriminate | constructor; [exact Acc|constructor]
                               | discriminate].
        -- right. split; [reflexivity|]. eexists; split; [reflexivity|].
           right; right. split; [exact Acc|]. now exists TypeError.
    + intro H; inversion H; subst; clear H. simpl.
      repeat split. exists [init_request]. repeat split; [exact U|].
      right. split; [reflexivity|]. eexists; split; [reflexivity|].
      right; left. split; [exact A | reflexivity].
  - intro H; inversion H; subst; clear H.
    repeat split. exists []. rewrite app_nil_r. repeat split; [constructor|].
    left. repeat split; [|constructor].
    intro E. rewrite E in C. discriminate.
Qed.

Lemma ensure_access_token_summary (env : Env) (w : World) (r : Completion bool) (w1 : World) :
  ensure_access_token env w = (r, w1) ->
  draws w1 = draws w
  /\ conversation_id (self w1) = conversation_id (self w)
  /\ last_fetch_id (self w1) = last_fetch_id (self w)
  /\ cookies (self w1) = cookies (self w)
  /\ exists l,
      sent w1 = (sent w ++ l)%list
      /\ Forall (fun q => url q <> chat_url) l
      /\ ((r = Normal true /\ Forall (accepted env) l /\ (l = [] -> self w1 = self w))
          \/ (self w1 = self w /\ l = [] /\ exists e, r = Throw e)
          \/ (self w1 = self w /\ exists q, l = [q] /\ stopped_at env q r)).
Proof.
  rewrite ensure_access_token_cases.
  pose proof (loosely_empty_total (number_text env) (access_token (self w))) as T.
  destruct (loosely_empty _ _) as [[|]|e|]; [| | |contradiction].
  - rewrite set_access_token_cases. cbv zeta.
    set (q := token_request (self w)).
    assert (U : Forall (fun q => url q <> chat_url) [q]).
    { constructor; [discriminate | constructor]. }
    destruct (http env q) as [response|] eqn:A.
    + destruct (negb (status response =? 200)%Z) eqn:S.
      * intro H; inversion H; subst; clear H. simpl.
        repeat split. exists [q]. repeat split; [exact U|].
        right; right. split; [reflexivity|]. eexists; split; [reflexivity|].
        left. split; [|reflexivity]. exists response. split; [exact A|].
        now apply status_not_200.
      * assert (Acc : accepted env q).
        { exists response. split; [exact A | now apply status_200]. }
        pose proof (path_total [Kdata; Kxab_abra_accept_terms_of_service;
                                Knew_temp_user_auth; Kaccess_token] (data response)) as P.
        destruct (path _ _) as [token|e|]; [| |contradiction];
          intro H; inversion H; subst; clear H; simpl;
          (repeat split); exists [q]; (repeat split); try exact U.
        -- left. repeat split; [constructor; [exact Acc|constructor] | discriminate].
        -- right; right. split; [reflexivity|]. eexists; split; [reflexivity|].
           right; right. split; [exact Acc|]. now exists e.
    + intro H; inversion H; subst; clear H. simpl.
      repeat split. exists [q]. repeat split; [exact U|].
      right; right. split; [reflexivity|]. eexists; split; [reflexivity|].
      right; left. split; [exact A | reflexivity].
  - intro H; inversion H; subst; clear H.
    repeat split. exists []. rewrite app_nil_r. repeat split; [constructor|].
    left. repeat split. constructor.
  - intro H; inversion H; subst; clear H.
    repeat split. exists []. rewrite app_nil_r. repeat split; [constructor|].
    right; left. repeat split. now exists e.
Qed.

Lemma read_reply_total (d : Value) : read_reply d <> OutOfFuel.
Proof.
  destruct d; try discriminate. unfold read_reply, JSON.parse.
  destruct (JSON.document _) as [j|]; [|discriminate].
  pose proof (path_total reply_path j) as P1.
  pose proof (path_total fetch_id_path j) as P2.
  unfold cbind.
  destruct (path j reply_path); try congruence.
  destruct (path j fetch_id_path); congruence.
Qed.

Lemma send_message_summary (message : string) (env : Env) (w : World)
    (r : Completion Value) (w' : World) :
  send_message message env w = (r, w') ->
  conversation_id (self w') = conversation_id (self w)
  /\ cookies (self w') = cookies (self w)
  /\ access_token (self w') = access_token (self w)
  /\ ((sent w' = sent w /\ self w' = self w
       /\ ((r = OutOfFuel
            /\ threadingID_loop (random_index env) (loop_bound env) (draws w) = None)
           \/ exists e, r = Throw e))
      \/ exists q,
          sent w' = (sent w ++ [q])%list /\ url q = chat_url
          /\ ((self w' = self w /\ refused env q /\ r = Normal (VBool false))
              \/ (self w' = self w /\ http env q = Rejected /\ r = Throw TransportError)
              \/ exists response,
                  http env q = Resolved response /\ status response = 200%Z
                  /\ match read_reply (data response) with
                     | Normal (llm_response, fetch_id) =>
                         r = Normal llm_response
                         /\ self w' = set_last_fetch_id fetch_id (self w)
                     | Throw e => r = Throw e /\ self w' = self w
                     | OutOfFuel => False
                     end)).
Proof.
  unfold send_message. cbv zeta.
  destruct (threadingID_loop _ _ _) as [[threading_id drawn]|] eqn:Loop.
  2:{ intro H; inversion H; subst; clear H. repeat split. left. auto. }
  pose proof (to_string_total (number_text env) (access_token (self w))) as T.
  destruct (to_string _ _) as [token|e|]; [| |contradiction].
  2:{ intro H; inversion H; subst; clear H. repeat split. left. repeat split.
      right. now exists e. }
  set (q := chat_request (self w) message threading_id token).
  destruct (http env q) as [response|] eqn:A.
  - destruct (negb (status response =? 200)%Z) eqn:S.
    + intro H; inversion H; subst; clear H. repeat split.
      right. exists q. repeat split. left. repeat split.
      exists response. split; [exact A | now apply status_not_200].
    + apply status_200 in S.
      pose proof (read_reply_total (data response)) as R.
      destruct (read_reply (data response)) as [[v f]|e|] eqn:E; [| |contradiction];
        intro H; inversion H; subst; clear H; (repeat split);
        right; exists q; (repeat split); right; right;
        exists response; rewrite E; repeat split; assumption.
  - intro H; inversion H; subst; clear H. repeat split.
    right. exists q. repeat split. right; left. repeat split. exact A.
Qed.

(** Every path through [prompt].  [lazy] holds the requests of the guards
    that passed and [o] the object they left; the call then stopped before
    another request, or at a request that was not answered with status 200,
    or it read the answer to its chat request. *)
Lemma prompt_summary (message : string) (env : Env) (w : World)
    (r : Completion Value) (w' : World) :
  prompt message env w = (r, w') ->
  conversation_id (self w') = conversation_id (self w)
  /\ exists (lazy : list Request) (o : MetaAI),
      Forall (accepted env) lazy
      /\ Forall (fun q => url q <> chat_url) lazy
      /\ last_fetch_id o = last_fetch_id (self w)
      /\ (lazy = [] -> o = self w)
      /\ (cookies o <> EmptyString \/ o = self w)
      /\ ((new_requests w w' = lazy /\ self w' = o
           /\ ((r = OutOfFuel
                /\ threadingID_loop (random_index env) (loop_bound env) (draws w) = None)
               \/ exists e, r = Throw e))
          \/ (exists q,
                 new_requests w w' = (lazy ++ [q])%list /\ self w' = o
                 /\ ((refused env q /\ r = Normal (VBool false))
                     \/ (http env q = Rejected /\ r = Throw TransportError)))
          \/ (exists q response,
                 new_requests w w' = (lazy ++ [q])%list /\ url q = chat_url
                 /\ http env q = Resolved response /\ status response = 200%Z
                 /\ match read_reply (data response) with
                    | Normal (llm_response, fetch_id) =>
                        r = Normal llm_response /\ self w' = set_last_fetch_id fetch_id o
                    | Throw e => r = Throw e /\ self w' = o
                    | OutOfFuel => False
                    end)).
Proof.
  intro H. rewrite prompt_cases in H.
  destruct (ensure_cookies env w) as [r1 w1] eqn:E1.
  apply ensure_cookies_summary in E1.
  destruct E1 as (D1 & C1 & F1 & T1 & l1 & S1 & U1 & G1).
  destruct G1 as [(-> & K1 & A1 & N1) | (O1 & q & -> & Stop)].
  - destruct (ensure_access_token env w1) as [r2 w2] eqn:E2.
    apply ensure_access_token_summary in E2.
    destruct E2 as (D2 & C2 & F2 & K2 & l2 & S2 & U2 & G2).
    assert (S12 : sent w2 = (sent w ++ (l1 ++ l2))%list).
    { rewrite S2, S1. now rewrite <- !app_assoc. }
    destruct G2 as [(-> & A2 & N2) | [(O2 & -> & e & ->) | (O2 & q & -> & Stop)]].
    + apply send_message_summary in H.
      destruct H as (C3 & K3 & T3 & G3).
      split; [congruence|].
      exists (l1 ++ l2)%list, (self w2).
      split; [now apply Forall_app|]. split; [now apply Forall_app|].
      split; [congruence|].
      split.
      { intro E. apply app_eq_nil in E. destruct E as [E1 E2].
        rewrite (N2 E2). exact (N1 E1). }
      split; [left; congruence|].
      destruct G3 as [(S3 & O3 & R3) | (q & S3 & Uq & G3)].
      * left. split; [apply new_requests_of; congruence|]. split; [assumption|].
        destruct R3 as [[-> Loop]|R3]; [left|now right].
        split; [reflexivity|]. now rewrite D2, D1 in Loop.
      * assert (S123 : new_requests w w' = ((l1 ++ l2) ++ [q])%list).
        { apply new_requests_of. rewrite S3, S12. now rewrite <- !app_assoc. }
        destruct G3 as [(O3 & R3 & ->) | [(O3 & R3 & ->) | (response & A3 & St3 & G3)]].
        -- right; left. exists q. auto.
        -- right; left. exists q. auto.
        -- right; right. exists q, response. auto.
    + inversion H; subst; clear H.
      split; [congruence|].
      exists l1, (self w').
      split; [exact A1|]. split; [exact U1|]. split; [congruence|].
      split; [intro E; rewrite O2; exact (N1 E)|].
      split; [left; congruence|].
      left. split; [apply new_requests_of; rewrite S12; now rewrite app_nil_r|].
      split; [reflexivity|]. right. now exists e.
    + assert (Sq : new_requests w w2 = (l1 ++ [q])%list) by now apply new_requests_of.
      assert (R : r = match r2 with
                      | Normal _ => Normal (VBool false)
                      | Throw e => Throw e
                      | OutOfFuel => OutOfFuel
                      end /\ w' = w2).
      { destruct Stop as [(_ & ->) | [(_ & ->) | (_ & e & ->)]];
          inversion H; subst; auto. }
      destruct R as [-> ->].
      split; [congruence|].
      destruct Stop as [(Rf & ->) | [(Rj & ->) | (Acc & e & ->)]].
      * exists l1, (self w2). rewrite O2 in *.
        repeat split; auto; try congruence.
        right; left. exists q. auto.
      * exists l1, (self w2). rewrite O2 in *.
        repeat split; auto; try congruence.
        right; left. exists q. auto.
      * exists (l1 ++ [q])%list, (self w2). rewrite O2 in *.
        split; [apply Forall_app; split; [exact A1 | now constructor]|].
        split; [apply Forall_app; split; assumption|].
        split; [congruence|].
        split; [intro E; now apply app_eq_nil in E|].
        split; [left; congruence|].
        left. repeat split; auto. right. now exists e.
  - assert (Sq : new_requests w w1 = [q]) by now apply new_requests_of.
    assert (R : r = match r1 with
                    | Normal _ => Normal (VBool false)
                    | Throw e => Throw e
                    | OutOfFuel => OutOfFuel
                    end /\ w' = w1).
    { destruct Stop as [(_ & ->) | [(_ & ->) | (_ & e & ->)]];
        inversion H; subst; auto. }
    destruct R as [-> ->].
    split; [congruence|].
    destruct Stop as [(Rf & ->) | [(Rj & ->) | (Acc & e & ->)]].
    + exists [], (self w1). rewrite O1 in *.
      repeat split; auto. right; left. exists q. auto.
    + exists [], (self w1). rewrite O1 in *.
      repeat split; auto. right; left. exists q. auto.
    + exists [q], (self w1). rewrite O1 in *.
      split; [now constructor|]. split; [assumption|].
      repeat split; auto. left. repeat split; auto. right. now exists e.
Qed.

(** ** The scan for the completion fragment *)

Lemma scan_none (l : list string) (llm_done : string) :
  Forall (fun f => JsString.includes f marker = false) l -> scan l llm_done = llm_done.
Proof.
  intro H. revert llm_done. induction H as [|f l Hf _ IH]; intro llm_done; simpl.
  - reflexivity.
  - rewrite Hf. apply IH.
Qed.

Lemma scan_last (l : list string) (fragment llm_done : string) :
  last_with_marker l fragment -> scan l llm_done = fragment.
Proof.
  intros (before & after & -> & Hf & Hafter). revert llm_done.
  induction before as [|b before IH]; intro llm_done; simpl.
  - rewrite Hf. now apply scan_none.
  - apply IH.
Qed.

Lemma scan_result (l : list string) (llm_done : string) :
  (scan l llm_done = llm_done /\ Forall (fun f => JsString.includes f marker = false) l)
  \/ last_with_marker l (scan l llm_done).
Proof.
  revert llm_done. induction l as [|f l IH]; intro llm_done; simpl.
  - left. split; [reflexivity | constructor].
  - destruct (JsString.includes f marker) eqn:Hf.
    + right. destruct (IH f) as [[E Hl] | (before & after & El & Hm & Ha)].
      * rewrite E. exists [], l. repeat split; assumption.
      * exists (f :: before), after. simpl. rewrite <- El. repeat split; assumption.
    + destruct (IH llm_done) as [[E Hl] | (before & after & El & Hm & Ha)].
      * left. split; [exact E | now constructor].
      * right. exists (f :: before), after. simpl. rewrite <- El.
        repeat split; assumption.
Qed.

Lemma parse_empty : JSON.parse EmptyString = Throw SyntaxError.
Proof. reflexivity. Qed.

(** A value that has a [snippet] to read has a [fetch_id] to read. *)
Lemma fetch_id_readable (json_resp v : Value) :
  path json_resp reply_path = Normal v ->
  exists f, path json_resp fetch_id_path = Normal f.
Proof.
  unfold reply_path, fetch_id_path. simpl.
  destruct (get json_resp Kdata) as [d| |]; try discriminate. simpl.
  destruct (get d Knode) as [n| |]; try discriminate. simpl.
  destruct (get n Kbot_response_message) as [m| |]; try discriminate. simpl.
  destruct m; simpl; try discriminate; intros _;
    try (eexists; reflexivity);
    destruct (own _ _); eexists; reflexivity.
Qed.

(** What [read_reply] makes of a body whose last fragment with the marker
    is [fragment]. *)
Lemma read_reply_last (body fragment : string) :
  last_with_marker (JsString.split newline body) fragment ->
  match read_reply (VString body) with
  | Normal (llm_response, fetch_id) =>
      exists json_resp,
        JSON.parse fragment = Normal json_resp
        /\ path json_resp reply_path = Normal llm_response
        /\ path json_resp fetch_id_path = Normal fetch_id
  | Throw e =>
      cbind (JSON.parse fragment) (fun json_resp => path json_resp reply_path) = Throw e
  | OutOfFuel => False
  end.
Proof.
  intro L. pose proof (read_reply_total (VString body)) as T.
  unfold read_reply in *. rewrite (scan_last _ fragment EmptyString L) in *.
  destruct (JSON.parse fragment) as [j|e|]; cbn [cbind] in *; try congruence.
  destruct (path j reply_path) as [v|e|] eqn:P; cbn [cbind] in *; try congruence.
  destruct (fetch_id_readable _ _ P) as (f & F). rewrite F in *. cbn [cbind].
  exists j. auto.
Qed.

(** The last request of a list. *)
Lemma last_request (l l' : list Request) (q q' : Request) :
  (l ++ [q] = l' ++ [q'])%list -> l = l' /\ q = q'.
Proof. apply app_inj_tail. Qed.

Lemma in_last (l l' : list Request) (q : Request) (P : Request -> Prop) :
  l = (l' ++ [q])%list -> Forall P l -> P q.
Proof.
  intros -> H. apply Forall_app in H. destruct H as [_ H]. now inversion H.
Qed.

(** C3.  When the chat request of a call of [prompt] is answered with status
    200 and a body whose fragments (the body split at newlines) include the
    completion marker, what the call returns is read from the last fragment
    that includes the marker and from nothing else: the call parses that
    fragment and returns its [data.node.bot_response_message.snippet] (or
    throws what parsing or reading that fragment throws). *)
Theorem prompt_reads_last_completion_fragment
    (message : string) (env : Env) (w : World) (r : Completion Value) (w' : World)
    (request : Request) (body fragment : string) :
  prompt message env w = (r, w') ->
  (exists earlier, new_requests w w' = (earlier ++ [request])%list) ->
  url request = chat_url ->
  http env request = Resolved {| status := 200; data := VString body |} ->
  last_with_marker (JsString.split newline body) fragment ->
  r = cbind (JSON.parse fragment) (fun json_resp => path json_resp reply_path).
Proof.
  intros H (earlier & New) Url Answer Last.
  apply prompt_summary in H.
  destruct H as (_ & lazy & o & Acc & Urls & _ & _ & _ & Cases).
  destruct Cases as [(N & _) | [(q & N & _ & Stop) | (q & response & N & _ & A & _ & R)]].
  - rewrite N in New. exfalso. exact (in_last _ _ _ _ New Urls Url).
  - rewrite N in New. apply last_request in New. destruct New as [_ ->].
    destruct Stop as [((resp & A & S) & _) | (A & _)]; rewrite Answer in A.
    + inversion A; subst resp. now contradiction S.
    + discriminate.
  - rewrite N in New. apply last_request in New. destruct New as [_ ->].
    rewrite Answer in A. inversion A; subst response; clear A. cbn [data] in R.
    pose proof (read_reply_last body fragment Last) as RL.
    destruct (read_reply (VString body)) as [[v f]|e|]; [| |contradiction].
    + destruct RL as (j & P & V & _). destruct R as [-> _]. now rewrite P.
    + destruct R as [-> _]. now rewrite RL.
Qed.

Lemma prompt_reads_last_completion_fragment_witness :
  fst (prompt "hi" streaming (fresh "c0ffee")) = Normal (VString "hello").
Proof.
  set (w := fresh "c0ffee").
  set (run := prompt "hi" streaming w).
  refine (eq_trans
            (prompt_reads_last_completion_fragment "hi" streaming w (fst run) (snd run)
               (last (sent (snd run)) init_request) five_fragments third_fragment
               _ _ _ _ _) _).
  - apply surjective_pairing.
  - exists (removelast (new_requests w (snd run))). vm_compute. reflexivity.
  - vm_compute. reflexivity.
  - vm_compute. reflexivity.
  - exists (firstn 2 (JsString.split newline five_fragments)),
      (skipn 3 (JsString.split newline five_fragments)).
    split; [vm_compute; reflexivity|]. split; [vm_compute; reflexivity|].
    repeat constructor.
  - vm_compute. reflexivity.
Defined.

Lemma accepted_all_but (env : Env) (l : list Request) (q : Request) :
  Forall (accepted env) (l ++ [q])%list -> accepted env q.
Proof. intro H. apply Forall_app in H. destruct H as [_ H]. now inversion H. Qed.

Lemma refused_among (env : Env) (l : list Request) (q request : Request) :
  Forall (accepted env) l -> In request (l ++ [q])%list -> refused env request ->
  request = q.
Proof.
  intros A I R. apply in_app_or in I. destruct I as [I|[I|[]]]; [|now symmetry].
  exfalso. rewrite Forall_forall in A. exact (refused_not_accepted _ _ R (A _ I)).
Qed.

(** A call of [prompt] one of whose exchanges is refused. *)
Lemma prompt_refused (message : string) (env : Env) (w : World)
    (r : Completion Value) (w' : World) (request : Request) :
  prompt message env w = (r, w') ->
  In request (new_requests w w') -> refused env request ->
  r = Normal (VBool false)
  /\ conversation_id (self w') = conversation_id (self w)
  /\ last_fetch_id (self w') = last_fetch_id (self w)
  /\ (new_requests w w' = [request] -> self w' = self w).
Proof.
  intros H I Rf. apply prompt_summary in H.
  destruct H as (C & lazy & o & Acc & _ & F & Lazy & _ & Cases).
  destruct Cases as [(N & _) | [(q & N & Ow & Stop) | (q & response & N & _ & A & S & _)]].
  - exfalso. rewrite N in I. rewrite Forall_forall in Acc.
    exact (refused_not_accepted _ _ Rf (Acc _ I)).
  - rewrite N in I. apply (refused_among _ _ _ _ Acc I) in Rf as E. subst request.
    rewrite Ow in *.
    destruct Stop as [(_ & ->) | (Rj & _)].
    + split; [reflexivity|]. split; [assumption|]. split; [assumption|].
      intro One. rewrite N in One. apply Lazy.
      destruct lazy as [|x [|y lazy]]; [reflexivity|discriminate|discriminate].
    + exfalso. exact (rejected_not_refused _ _ Rj Rf).
  - exfalso. rewrite N in I. apply (refused_among _ _ _ _ Acc I) in Rf as E.
    subst request. apply (refused_not_accepted _ _ Rf). now exists response.
Qed.

(** C5.  A call of [prompt] that succeeds (every exchange of the call is
    answered with status 200 and the call returns) leaves in [last_fetch_id]
    the [fetch_id] of the fragment it selected, the last fragment of the chat
    answer that includes the completion marker.  A call that fails (one of
    its exchanges is answered with another status, and the call returns
    [false]) leaves [last_fetch_id] as it was, and so does a call that ends
    with an exception.  A call that returns is of one of these two kinds. *)
Theorem prompt_last_fetch_id
    (message : string) (env : Env) (w : World) (r : Completion Value) (w' : World) :
  prompt message env w = (r, w') ->
  (forall llm_response,
      r = Normal llm_response ->
      Forall (accepted env) (new_requests w w') ->
      exists earlier request body fragment json_resp,
        new_requests w w' = (earlier ++ [request])%list
        /\ url request = chat_url
        /\ http env request = Resolved {| status := 200; data := VString body |}
        /\ last_with_marker (JsString.split newline body) fragment
        /\ JSON.parse fragment = Normal json_resp
        /\ path json_resp fetch_id_path = Normal (last_fetch_id (self w')))
  /\ ((exists request, In request (new_requests w w') /\ refused env request) ->
      r = Normal (VBool false) /\ last_fetch_id (self w') = last_fetch_id (self w))
  /\ ((exists e, r = Throw e) -> last_fetch_id (self w') = last_fetch_id (self w))
  /\ (forall v,
         r = Normal v ->
         (exists request, In request (new_requests w w') /\ refused env request)
         \/ Forall (accepted env) (new_requests w w')).
Proof.
  intro H0. pose proof (prompt_summary _ _ _ _ _ H0) as H.
  destruct H as (_ & lazy & o & Acc & Urls & F & _ & _ & Cases).
  split; [|split; [|split]].
  - intros v -> All.
    destruct Cases as [(_ & _ & [[R _]|(e & R)]) | [(q & N & _ & Stop) | Read]];
      try discriminate.
    + exfalso. rewrite N in All. apply accepted_all_but in All.
      destruct Stop as [(Rf & _) | (Rj & _)].
      * exact (refused_not_accepted _ _ Rf All).
      * exact (rejected_not_accepted _ _ Rj All).
    + destruct Read as (q & response & N & Url & A & S & R).
      destruct response as [status body]. simpl in S, R. subst status.
      destruct body as [| | | |body| | |]; try (destruct R; discriminate).
      pose proof (scan_result (JsString.split newline body) EmptyString) as Sel.
      unfold read_reply in R.
      destruct Sel as [[E _]|Last].
      { rewrite E, parse_empty in R. destruct R; discriminate. }
      pose proof (read_reply_last body _ Last) as RL. unfold read_reply in RL.
      destruct (cbind _ _) as [[v' f]|e|]; [| destruct R; discriminate | contradiction].
      destruct RL as (j & P & _ & Fj). destruct R as [_ ->].
      exists lazy, q, body, (scan (JsString.split newline body) EmptyString), j.
      repeat split; assumption.
  - intros (request & I & Rf).
    destruct (prompt_refused _ _ _ _ _ _ H0 I Rf) as (R & _ & F' & _). now split.
  - intros (e & ->).
    destruct Cases as [(_ & -> & _) | [(q & _ & -> & _) | (q & response & _ & _ & _ & _ & R)]];
      try assumption.
    destruct (read_reply (data response)) as [[v f]|e'|]; [|now destruct R as [_ ->]|easy].
    destruct R; discriminate.
  - intros v ->.
    destruct Cases as [(_ & _ & [[R _]|(e & R)]) | [(q & N & _ & Stop)
                      | (q & response & N & _ & A & S & _)]];
      try discriminate.
    + left. exists q. rewrite N. split; [apply in_or_app; right; now left|].
      destruct Stop as [(Rf & _) | (_ & R)]; [exact Rf | discriminate].
    + right. rewrite N. apply Forall_app. split; [exact Acc|].
      constructor; [now exists response | constructor].
Qed.

Lemma prompt_last_fetch_id_witness :
  last_fetch_id (self (snd (prompt "hi" streaming (fresh "c0ffee")))) = VString "F1"
  /\ last_fetch_id (self (snd (prompt "hi" chat_refused (fresh "c0ffee"))))
     = VString EmptyString.
Proof.
  split.
  - set (w := fresh "c0ffee"). set (run := prompt "hi" streaming w).
    destruct (prompt_last_fetch_id "hi" streaming w (fst run) (snd run)
                (surjective_pairing run)) as (success & _ & _).
    destruct (success (VString "hello")) as (_ & _ & _ & _ & _ & _ & _ & _ & _ & _ & _);
      vm_compute; try reflexivity.
    repeat constructor; eexists; (split; [reflexivity | reflexivity]).
  - set (w := fresh "c0ffee"). set (run := prompt "hi" chat_refused w).
    destruct (prompt_last_fetch_id "hi" chat_refused w (fst run) (snd run)
                (surjective_pairing run)) as (_ & failure & _).
    refine (proj2 (failure _)).
    exists (last (sent (snd run)) init_request). split.
    + vm_compute. right. right. left. reflexivity.
    + eexists. split; [vm_compute; reflexivity | discriminate].
Defined.

(** ** A refused exchange *)

Lemma only_request (w w' : World) (q request : Request) :
  sent w' = (sent w ++ [q])%list -> In request (new_requests w w') -> request = q.
Proof.
  intros S I. rewrite (new_requests_of _ _ _ S) in I.
  destruct I as [I|[]]. now symmetry.
Qed.

(** C1, as the code has it.  When an exchange of a call is answered with a
    status other than 200: [init], [set_access_token] and [sources] return
    [false] and leave every field as it was; [prompt] returns [false] and
    leaves [conversation_id] and [last_fetch_id] as they were, and leaves
    every field as it was when the refused exchange is the first one of the
    call. *)
Theorem refused_exchange_returns_false (env : Env) (w : World) :
  (forall r w' request,
      init env w = (r, w') ->
      In request (new_requests w w') -> refused env request ->
      r = Normal false /\ self w' = self w)
  /\ (forall r w' request,
         set_access_token env w = (r, w') ->
         In request (new_requests w w') -> refused env request ->
         r = Normal false /\ self w' = self w)
  /\ (forall fetch_id r w' request,
         sources fetch_id env w = (r, w') ->
         In request (new_requests w w') -> refused env request ->
         r = Normal NoSources /\ self w' = self w)
  /\ (forall message r w' request,
         prompt message env w = (r, w') ->
         In request (new_requests w w') -> refused env request ->
         r = Normal (VBool false)
         /\ conversation_id (self w') = conversation_id (self w)
         /\ last_fetch_id (self w') = last_fetch_id (self w)
         /\ (new_requests w w' = [request] -> self w' = self w)).
Proof.
  split; [|split; [|split]].
  - intros r w' request H I (response & A & S).
    rewrite init_cases in H.
    assert (request = init_request).
    { apply (only_request w w'); [|exact I].
      destruct (http env init_request) as [x|]; [|now inversion H].
      destruct (negb _); [now inversion H|].
      destruct (page_groups _) as [[[[? ?] ?] ?]|]; now inversion H. }
    subst request. rewrite A in H. apply status_not_200 in S. rewrite S in H.
    now inversion H.
  - intros r w' request H I (response & A & S).
    rewrite set_access_token_cases in H. cbv zeta in H.
    assert (request = token_request (self w)).
    { apply (only_request w w'); [|exact I].
      destruct (http env _) as [x|]; [|now inversion H].
      destruct (negb _); [now inversion H|].
      destruct (path _ _); now inversion H. }
    subst request. rewrite A in H. apply status_not_200 in S. rewrite S in H.
    now inversion H.
  - intros fetch_id r w' request H I (response & A & S).
    rewrite sources_cases in H. cbv zeta in H.
    destruct (to_string _ _) as [id| |].
    2,3: inversion H; subst; unfold new_requests in I;
      rewrite skipn_all in I; contradiction.
    destruct (to_string _ _) as [token| |].
    2,3: inversion H; subst; unfold new_requests in I;
      rewrite skipn_all in I; contradiction.
    assert (request = sources_request (self w) id token).
    { apply (only_request w w'); [|exact I].
      destruct (http env _) as [x|]; [|now inversion H].
      destruct (negb _); now inversion H. }
    subst request. rewrite A in H. apply status_not_200 in S. rewrite S in H.
    now inversion H.
  - intros message r w' request H I Rf. exact (prompt_refused _ _ _ _ _ _ H I Rf).
Qed.

Lemma refused_exchange_returns_false_witness :
  init all_refused ready = (Normal false, logged ready init_request)
  /\ fst (set_access_token all_refused ready) = Normal false
  /\ fst (sources None all_refused ready) = Normal NoSources
  /\ fst (prompt "hi" all_refused ready) = Normal (VBool false)
  /\ self (snd (prompt "hi" all_refused ready)) = self ready.
Proof.
  destruct (refused_exchange_returns_false all_refused ready) as (I & T & S & P).
  assert (R : forall q, refused all_refused q).
  { intro q. eexists. split; [reflexivity | discriminate]. }
  split; [|split; [|split; [|split]]].
  - reflexivity.
  - refine (proj1 (T _ _ _ (surjective_pairing _) _ (R _))). left. reflexivity.
  - refine (proj1 (S _ _ _ _ (surjective_pairing _) _ (R _))). left. reflexivity.
  - refine (proj1 (P _ _ _ _ (surjective_pairing _) _ (R _))). left. reflexivity.
  - refine (proj2 (proj2 (proj2 (P _ _ _ _ (surjective_pairing _) _ (R _)))) _).
    + left. reflexivity.
    + reflexivity.
Defined.

(** C1 as the specification states it fails for [prompt]: on a fresh client
    whose landing page and token exchange succeed and whose chat request is
    answered with status 500, [prompt] returns [false] with [cookies], [lsd]
    and [access_token] changed. *)
Lemma prompt_refused_chat_keeps_lazy_fields :
  (exists request,
      In request (new_requests (fresh "c0ffee")
                    (snd (prompt "hi" chat_refused (fresh "c0ffee"))))
      /\ refused chat_refused request)
  /\ fst (prompt "hi" chat_refused (fresh "c0ffee")) = Normal (VBool false)
  /\ self (fresh "c0ffee") =
     {| access_token := VString EmptyString; cookies := EmptyString; lsd := EmptyString;
        conversation_id := "c0ffee"; last_fetch_id := VString EmptyString |}
  /\ self (snd (prompt "hi" chat_refused (fresh "c0ffee"))) =
     {| access_token := VString "TOK";
        cookies := "_js_datr=JJJ; abra_csrf=AAA; datr=DDD; lsd=LLL";
        lsd := "LLL";
        conversation_id := "c0ffee"; last_fetch_id := VString EmptyString |}.
Proof.
  split; [|split; [|split]]; try (vm_compute; reflexivity).
  exists (last (sent (snd (prompt "hi" chat_refused (fresh "c0ffee")))) init_request).
  split.
  - vm_compute. right. right. left. reflexivity.
  - eexists. split; [vm_compute; reflexivity | discriminate].
Qed.

(** ** An answer of status 200 that lacks what the method reads *)

(** A pattern that begins with a text matches nowhere in a page that does
    not hold the text. *)
Lemma startsWith_empty (s : string) : JsString.startsWith s EmptyString = true.
Proof. now destruct s. Qed.

Lemma atoms_literal_fails {A} (lit : string) (k : string -> option A) (s : string) :
  JsString.startsWith s lit = false -> Regex.atoms (Regex.literal lit) k s = None.
Proof.
  revert s. induction lit as [|c lit IH]; intros s H.
  - now rewrite startsWith_empty in H.
  - destruct s as [|c' s]; [reflexivity|].
    cbn [JsString.startsWith] in H. cbn [Regex.literal Regex.atoms].
    destruct (Ascii.eqb c c'); [apply IH; exact H | reflexivity].
Qed.

Lemma atoms_literal_then {A} (lit : string) (more : list Regex.Atom)
    (k : string -> option A) (s : string) :
  Regex.atoms (Regex.literal lit ++ more) k s
  = Regex.atoms (Regex.literal lit) (Regex.atoms more k) s.
Proof.
  revert s. induction lit as [|c lit IH]; intro s; [reflexivity|].
  cbn [Regex.literal app Regex.atoms].
  destruct s as [|c' s]; [reflexivity|].
  destruct (Ascii.eqb c c'); [apply IH | reflexivity].
Qed.

Lemma search_without (re : Regex.t) (lit : string) (more : list Regex.Atom)
    (page : string) :
  Regex.before re = (Regex.literal lit ++ more)%list ->
  JsString.includes page lit = false ->
  Regex.search re page = None.
Proof.
  intro B. induction page as [|c page IH]; cbn [JsString.includes]; intro I;
    apply Bool.orb_false_elim in I; destruct I as [I1 I2];
    cbn [Regex.search]; unfold Regex.match_at at 1;
    rewrite B, atoms_literal_then, (atoms_literal_fails _ _ _ I1).
  - reflexivity.
  - exact (IH I2).
Qed.

Lemma marker_needed (marker page : string) :
  In marker init_markers -> JsString.includes page marker = false ->
  exists re, In re init_patterns /\ Regex.search re page = None.
Proof.
  intros [<-|[<-|[<-|[<-|[]]]]] I.
  - exists Regex.abra_csrf. split; [now left|].
    exact (search_without Regex.abra_csrf (js "abra_csrf':{'value':'") [] page eq_refl I).
  - exists Regex._js_datr. split; [right; now left|].
    exact (search_without Regex._js_datr (js "_js_datr':{'value':'") [] page eq_refl I).
  - exists Regex.datr. split; [right; right; now left|].
    exact (search_without Regex.datr (js "datr':{'value':'") [] page eq_refl I).
  - exists Regex.lsd. split; [right; right; right; now left|].
    exact (search_without Regex.lsd "LSD" (Regex.LazyDots :: Regex.literal (js "token':'"))
             page eq_refl I).
Qed.

Lemma page_groups_need (page : string) (re : Regex.t) :
  In re init_patterns -> Regex.search re page = None ->
  page_groups (VString page) = None.
Proof.
  unfold page_groups.
  intros [<-|[<-|[<-|[<-|[]]]]] N; rewrite N;
    repeat match goal with
           | |- context [match Regex.search ?r ?p with _ => _ end] =>
               destruct (Regex.search r p)
           end; reflexivity.
Qed.

Lemma init_needs_patterns (env : Env) (w : World) (page : string) (re : Regex.t) :
  http env init_request = Resolved {| status := 200; data := VString page |} ->
  In re init_patterns -> Regex.search re page = None ->
  init env w = (Throw TypeError, logged w init_request).
Proof.
  intros A I N. rewrite init_cases, A.
  cbn [status data negb Z.eqb Pos.eqb]. now rewrite (page_groups_need page re I N).
Qed.

(** C2, as the code has it.  [init], [set_access_token] and [sources] end by
    returning or by throwing, and so does [prompt] unless the loop of
    [threadingID] uses up its bound.  An answer of status 200 that lacks what
    the method reads makes the method throw, not return a sentinel.  [init]
    throws a TypeError when one of its four patterns matches nowhere in the
    page, as is the case when the page does not hold the text one of them
    begins with; [set_access_token] and [sources] throw what reading the
    nested object throws; [prompt] throws a SyntaxError when no fragment of
    the chat answer includes the completion marker.  [init],
    [set_access_token] and [sources] leave every field as it was.  [prompt]
    leaves [conversation_id] and [last_fetch_id] as they were, and every
    field when the chat request is the only request of the call: what [init]
    or [set_access_token] stored earlier in the call stays. *)
Theorem missing_content_throws (env : Env) (w : World) :
  (fst (init env w) <> OutOfFuel
   /\ fst (set_access_token env w) <> OutOfFuel
   /\ (forall fetch_id, fst (sources fetch_id env w) <> OutOfFuel)
   /\ (forall message,
          fst (prompt message env w) = OutOfFuel ->
          threadingID_loop (random_index env) (loop_bound env) (draws w) = None))
  /\ (forall page re,
         http env init_request = Resolved {| status := 200; data := VString page |} ->
         In re init_patterns -> Regex.search re page = None ->
         init env w = (Throw TypeError, logged w init_request))
  /\ (forall page marker,
         http env init_request = Resolved {| status := 200; data := VString page |} ->
         In marker init_markers -> JsString.includes page marker = false ->
         init env w = (Throw TypeError, logged w init_request))
  /\ (forall response e,
         http env (token_request (self w)) = Resolved response ->
         status response = 200%Z ->
         path (data response)
           [Kdata; Kxab_abra_accept_terms_of_service; Knew_temp_user_auth; Kaccess_token]
         = Throw e ->
         set_access_token env w = (Throw e, logged w (token_request (self w))))
  /\ (forall message r w' earlier request body,
         prompt message env w = (r, w') ->
         new_requests w w' = (earlier ++ [request])%list ->
         url request = chat_url ->
         http env request = Resolved {| status := 200; data := VString body |} ->
         no_marker (JsString.split newline body) ->
         r = Throw SyntaxError
         /\ conversation_id (self w') = conversation_id (self w)
         /\ last_fetch_id (self w') = last_fetch_id (self w)
         /\ (earlier = [] -> self w' = self w))
  /\ (forall fetch_id r w' request response e,
         sources fetch_id env w = (r, w') ->
         In request (new_requests w w') ->
         http env request = Resolved response -> status response = 200%Z ->
         path (data response) [Kdata; Kmessage; KsearchResults] = Throw e ->
         r = Throw e /\ self w' = self w).
Proof.
  split; [|split; [|split; [|split; [|split]]]].
  - split; [|split; [|split]].
    + rewrite init_cases. destruct (http env init_request) as [x|]; [|discriminate].
      destruct (negb _); [discriminate|].
      destruct (page_groups _) as [[[[? ?] ?] ?]|]; discriminate.
    + rewrite set_access_token_cases. cbv zeta.
      destruct (http env _) as [x|]; [|discriminate].
      destruct (negb _); [discriminate|].
      pose proof (path_total [Kdata; Kxab_abra_accept_terms_of_service;
                              Knew_temp_user_auth; Kaccess_token] (data x)) as P.
      destruct (path _ _); simpl; congruence.
    + intro fetch_id. rewrite sources_cases. cbv zeta.
      match goal with
      | |- context [to_string ?f ?v] =>
          pose proof (to_string_total f v) as T1; destruct (to_string f v)
      end; cbn [fst]; try congruence.
      pose proof (to_string_total (number_text env) (access_token (self w))) as T2.
      destruct (to_string _ (access_token (self w))); cbn [fst]; try congruence.
      destruct (http env _) as [x|]; [|discriminate].
      destruct (negb _); [discriminate|]. cbn [fst]. apply read_sources_total.
    + intros message E.
      destruct (prompt message env w) as [r w'] eqn:H. simpl in E. subst r.
      apply prompt_summary in H.
      destruct H as (_ & lazy & o & _ & _ & _ & _ & _ & Cases).
      destruct Cases as [(_ & _ & [[_ L]|(e & R)]) | [(q & _ & _ & [(_ & R)|(_ & R)])
                        | (q & response & _ & _ & _ & _ & R)]];
        try discriminate; try assumption.
      destruct (read_reply _) as [[? ?]| |]; destruct R; discriminate.
  - intros page re A I N. exact (init_needs_patterns env w page re A I N).
  - intros page marker A I N.
    destruct (marker_needed marker page I N) as (re & Ire & Nre).
    exact (init_needs_patterns env w page re A Ire Nre).
  - intros response e A S P. rewrite set_access_token_cases. cbv zeta.
    rewrite A. apply status_200 in S. now rewrite S, P.
  - intros message r w' earlier request body H New Url Answer None.
    apply prompt_summary in H.
    destruct H as (Conv & lazy & o & Acc & Urls & F & Same & _ & Cases).
    destruct Cases as [(N & _) | [(q & N & _ & Stop) | (q & response & N & _ & A & _ & R)]].
    + rewrite N in New. exfalso. exact (in_last _ _ _ _ New Urls Url).
    + rewrite N in New. apply last_request in New. destruct New as [_ ->].
      destruct Stop as [((resp & A & S) & _) | (A & _)]; rewrite Answer in A.
      * inversion A; subst resp. now contradiction S.
      * discriminate.
    + rewrite N in New. apply last_request in New. destruct New as [<- ->].
      rewrite Answer in A. inversion A; subst response; clear A.
      cbn [data] in R. unfold read_reply in R.
      rewrite (scan_none _ _ None), parse_empty in R. cbn [cbind] in R.
      destruct R as [-> R]. split; [reflexivity|]. split; [exact Conv|].
      rewrite R. split; [exact F | exact Same].
  - intros fetch_id r w' request response e H I A S P.
    rewrite sources_cases in H. cbv zeta in H.
    destruct (to_string _ _) as [id| |].
    2,3: inversion H; subst; unfold new_requests in I;
      rewrite skipn_all in I; contradiction.
    destruct (to_string _ _) as [token| |].
    2,3: inversion H; subst; unfold new_requests in I;
      rewrite skipn_all in I; contradiction.
    assert (request = sources_request (self w) id token).
    { apply (only_request w w'); [|exact I].
      destruct (http env _) as [x|]; [|now inversion H].
      destruct (negb _); now inversion H. }
    subst request. rewrite A in H. apply status_200 in S. rewrite S in H.
    unfold read_sources in H. rewrite P in H. now inversion H.
Qed.

Lemma missing_content_throws_witness :
  init drifted ready = (Throw TypeError, logged ready init_request)
  /\ set_access_token drifted ready
     = (Throw TypeError, logged ready (token_request (self ready)))
  /\ fst (prompt "hi" drifted ready) = Throw SyntaxError
  /\ self (snd (prompt "hi" drifted ready)) = self ready
  /\ fst (sources None drifted ready) = Throw TypeError.
Proof.
  destruct (missing_content_throws drifted ready) as (_ & I & M & T & P & S).
  set (run := prompt "hi" drifted ready).
  assert (Q : fst run = Throw SyntaxError
              /\ conversation_id (self (snd run)) = conversation_id (self ready)
              /\ last_fetch_id (self (snd run)) = last_fetch_id (self ready)
              /\ (@nil Request = [] -> self (snd run) = self ready)).
  { refine (P "hi" (fst run) (snd run) [] (last (sent (snd run)) init_request)
              (js "{'errors':[]}") (surjective_pairing run) _ _ _ _).
    - vm_compute. reflexivity.
    - vm_compute. reflexivity.
    - vm_compute. reflexivity.
    - repeat constructor. }
  split; [|split; [|split; [|split]]].
  - exact (M (js "{'errors':[]}") "LSD" eq_refl
             (or_intror (or_intror (or_intror (or_introl eq_refl)))) eq_refl).
  - exact (T _ _ eq_refl eq_refl eq_refl).
  - exact (proj1 Q).
  - exact (proj2 (proj2 (proj2 Q)) eq_refl).
  - set (looked := sources None drifted ready).
    refine (proj1 (S None (fst looked) (snd looked) (last (sent (snd looked)) init_request)
                     _ TypeError (surjective_pairing looked) _ eq_refl eq_refl _)).
    + vm_compute. left. reflexivity.
    + vm_compute. reflexivity.
Defined.

(** C2 as the specification states it fails: with a landing page of status
    200 that holds none of the markers, [init] on a fresh client throws a
    TypeError; with a chat answer of status 200 none of whose fragments
    includes the completion marker, [prompt] throws a SyntaxError. *)
Lemma init_throws_on_page_without_markers :
  http drifted init_request
  = Resolved {| status := 200; data := VString (js "{'errors':[]}") |}
  /\ fst (init drifted (fresh "c0ffee")) = Throw TypeError
  /\ fst (prompt "hi" drifted (fresh "c0ffee")) = Throw TypeError
  /\ fst (prompt "hi" drifted ready) = Throw SyntaxError.
Proof. repeat split; vm_compute; reflexivity. Qed.

(** ** [init] on a page with the four markers *)

(** C4, as the code has it.  When the landing page has status 200 and each of
    the four patterns matches, [init] returns [true], sets [lsd] to the
    fourth group, and sets [cookies] to four [key=value] pairs separated by
    a semicolon and a space: the three cookie values and then the [lsd]
    token. *)
Theorem init_sets_cookies_and_lsd
    (env : Env) (w : World) (page abra_csrf _js_datr datr lsd : string) :
  http env init_request = Resolved {| status := 200; data := VString page |} ->
  Regex.search Regex.abra_csrf page = Some abra_csrf ->
  Regex.search Regex._js_datr page = Some _js_datr ->
  Regex.search Regex.datr page = Some datr ->
  Regex.search Regex.lsd page = Some lsd ->
  init env w =
  (Normal true,
   {| self :=
        {| access_token := access_token (self w);
           cookies := "_js_datr=" ++ _js_datr ++ "; abra_csrf=" ++ abra_csrf
                      ++ "; datr=" ++ datr ++ "; lsd=" ++ lsd;
           lsd := lsd;
           conversation_id := conversation_id (self w);
           last_fetch_id := last_fetch_id (self w) |};
      sent := (sent w ++ [init_request])%list;
      draws := draws w |}).
Proof.
  intros A G1 G2 G3 G4. rewrite init_cases, A. cbn [status data negb Z.eqb Pos.eqb].
  unfold page_groups. now rewrite G1, G2, G3, G4.
Qed.

Lemma init_sets_cookies_and_lsd_witness :
  init (backend Rejected) (fresh "c0ffee") =
  (Normal true,
   {| self :=
        {| access_token := VString EmptyString;
           cookies := "_js_datr=JJJ; abra_csrf=AAA; datr=DDD; lsd=LLL";
           lsd := "LLL";
           conversation_id := "c0ffee";
           last_fetch_id := VString EmptyString |};
      sent := [init_request];
      draws := 0 |}).
Proof.
  exact (init_sets_cookies_and_lsd (backend Rejected) (fresh "c0ffee") landing_page
           "AAA" "JJJ" "DDD" "LLL" eq_refl eq_refl eq_refl eq_refl eq_refl).
Defined.

(** C4 as the specification states it fails: on the landing page with the
    groups AAA, JJJ, DDD and LLL, [init] returns [true] and [cookies] holds a
    fourth pair, the [lsd] token, after the three cookie values. *)
Lemma init_cookies_hold_four_pairs :
  page_groups (VString landing_page) = Some ("AAA", "JJJ", "DDD", "LLL")
  /\ fst (init (backend Rejected) (fresh "c0ffee")) = Normal true
  /\ cookies (self (snd (init (backend Rejected) (fresh "c0ffee"))))
     = three_cookies "JJJ" "AAA" "DDD" ++ "; lsd=LLL"
  /\ cookies (self (snd (init (backend Rejected) (fresh "c0ffee"))))
     <> three_cookies "JJJ" "AAA" "DDD".
Proof.
  split; [vm_compute; reflexivity|]. split; [vm_compute; reflexivity|].
  split; [vm_compute; reflexivity|]. vm_compute. discriminate.
Qed.

(** ** What a run of calls keeps *)

Lemma sources_keeps_self (fetch_id : option string) (env : Env) (w : World) :
  self (snd (sources fetch_id env w)) = self w.
Proof.
  rewrite sources_cases. cbv zeta.
  destruct (to_string _ _); try reflexivity.
  destruct (to_string _ _); try reflexivity.
  destruct (http env _) as [x|]; [|reflexivity].
  destruct (negb _); reflexivity.
Qed.

Lemma call_keeps_conversation_id (c : Call) (env : Env) (w : World) :
  conversation_id (self (call c env w)) = conversation_id (self w).
Proof.
  destruct c as [| |message|fetch_id]; simpl.
  - rewrite init_cases. destruct (http env init_request) as [x|]; [|reflexivity].
    destruct (negb _); [reflexivity|].
    destruct (page_groups _) as [[[[? ?] ?] ?]|]; reflexivity.
  - rewrite set_access_token_cases. cbv zeta.
    destruct (http env _) as [x|]; [|reflexivity].
    destruct (negb _); [reflexivity|]. destruct (path _ _); reflexivity.
  - destruct (prompt message env w) as [r w'] eqn:H.
    now apply prompt_summary in H.
  - now rewrite sources_keeps_self.
Qed.

Lemma call_keeps_token_behind_cookies (c : Call) (env : Env) (w : World) :
  direct_token_call (c, env) = false ->
  token_behind_cookies (self w) -> token_behind_cookies (self (call c env w)).
Proof.
  unfold token_behind_cookies.
  destruct c as [| |message|fetch_id]; simpl; intros D Inv; try discriminate.
  - rewrite init_cases. destruct (http env init_request) as [x|]; [|exact Inv].
    destruct (negb _); [exact Inv|].
    destruct (page_groups _) as [[[[? ?] ?] ?]|]; [|exact Inv].
    intros _. discriminate.
  - destruct (prompt message env w) as [r w'] eqn:H.
    apply prompt_summary in H.
    destruct H as (_ & lazy & o & _ & _ & _ & _ & K & Cases).
    assert (Io : access_token o <> VString EmptyString -> cookies o <> EmptyString).
    { destruct K as [K| ->]; [intros _; exact K | exact Inv]. }
    simpl.
    destruct Cases as [(_ & -> & _) | [(q & _ & -> & _) | (q & response & _ & _ & _ & _ & R)]];
      try exact Io.
    destruct (read_reply _) as [[v f]| |]; [| |contradiction];
      destruct R as [_ ->]; exact Io.
  - now rewrite sources_keeps_self.
Qed.

(** C6, as the code has it.  Through any run of calls of the four methods,
    each with a backend of its own, [conversation_id] stays what the
    constructor made it.  Through a run in which [set_access_token] is called
    by [prompt] only, [access_token] differs from the empty string of the
    constructor only when [cookies] is not empty. *)
Theorem run_keeps_conversation_and_order (uuid : string) (calls : list (Call * Env)) :
  conversation_id (self (run calls (fresh uuid))) = uuid
  /\ (forallb (fun c => negb (direct_token_call c)) calls = true ->
      access_token (self (run calls (fresh uuid))) <> VString EmptyString ->
      cookies (self (run calls (fresh uuid))) <> EmptyString).
Proof.
  assert (G : forall w,
             conversation_id (self (run calls w)) = conversation_id (self w)
             /\ (forallb (fun c => negb (direct_token_call c)) calls = true ->
                 token_behind_cookies (self w) ->
                 token_behind_cookies (self (run calls w)))).
  { induction calls as [|[c env] calls IH]; intro w; simpl.
    - split; [reflexivity | auto].
    - destruct (IH (call c env w)) as [C I]. split.
      + rewrite C. apply call_keeps_conversation_id.
      + intros D Inv. apply andb_prop in D. destruct D as [D1 D2].
        apply I; [exact D2|].
        apply call_keeps_token_behind_cookies; [|exact Inv].
        now apply Bool.negb_true_iff in D1. }
  destruct (G (fresh uuid)) as [C I]. split; [exact C|].
  intros D. apply I; [exact D|]. intro N. now contradiction N.
Qed.

Lemma run_keeps_conversation_and_order_witness :
  conversation_id (self (run [(CallPrompt "hi", streaming); (CallSources None, all_refused);
                              (CallInit, drifted); (CallPrompt "more", chat_refused)]
                           (fresh "c0ffee"))) = "c0ffee"
  /\ cookies (self (run [(CallPrompt "hi", streaming); (CallSources None, all_refused);
                         (CallInit, drifted); (CallPrompt "more", chat_refused)]
                      (fresh "c0ffee"))) <> EmptyString.
Proof.
  destruct (run_keeps_conversation_and_order "c0ffee"
              [(CallPrompt "hi", streaming); (CallSources None, all_refused);
               (CallInit, drifted); (CallPrompt "more", chat_refused)]) as [C I].
  split; [exact C|]. apply I; [reflexivity|]. vm_compute. discriminate.
Defined.

(** C6 as the specification states it fails: [set_access_token] called on a
    fresh client sets [access_token] while [cookies] and [lsd] are empty;
    and [prompt] alone, on a landing page whose token is empty, sets
    [access_token] while [lsd] is empty. *)
Lemma token_set_before_cookies :
  self (run [(CallSetAccessToken, backend Rejected)] (fresh "c0ffee"))
  = {| access_token := VString "TOK"; cookies := EmptyString; lsd := EmptyString;
       conversation_id := "c0ffee"; last_fetch_id := VString EmptyString |}
  /\ self (run [(CallPrompt "hi", empty_lsd)] (fresh "c0ffee"))
     = {| access_token := VString "TOK";
          cookies := "_js_datr=JJJ; abra_csrf=AAA; datr=DDD; lsd=";
          lsd := EmptyString;
          conversation_id := "c0ffee"; last_fetch_id := VString EmptyString |}.
Proof. split; vm_compute; reflexivity. Qed.

(** ** The fetch identifier [sources] sends *)

Lemma sources_sends (fetch_id : option string) (env : Env) (w : World)
    (id token : string) :
  to_string (number_text env)
    match fetch_id with None => last_fetch_id (self w) | Some s => VString s end
  = Normal id ->
  to_string (number_text env) (access_token (self w)) = Normal token ->
  let request := sources_request (self w) id token in
  sources fetch_id env w =
  (match http env request with
   | Rejected => Throw TransportError
   | Resolved response =>
       if negb (status response =? 200)%Z then Normal NoSources
       else read_sources (data response)
   end, logged w request).
Proof.
  intros I T. rewrite sources_cases. cbv zeta. rewrite I, T.
  destruct (http env _) as [x|]; [|reflexivity].
  destruct (negb _); reflexivity.
Qed.

Lemma sources_sent (fetch_id : option string) (env : Env) (w : World)
    (r : Completion SourcesOrFalse) (w' : World) (request : Request) :
  sources fetch_id env w = (r, w') ->
  In request (new_requests w w') ->
  exists id token,
    to_string (number_text env)
      match fetch_id with None => last_fetch_id (self w) | Some s => VString s end
    = Normal id
    /\ to_string (number_text env) (access_token (self w)) = Normal token
    /\ request = sources_request (self w) id token.
Proof.
  intros H I. rewrite sources_cases in H. cbv zeta in H.
  destruct (to_string _ _) as [id| |] eqn:Id.
  2,3: inversion H; subst; unfold new_requests in I;
    rewrite skipn_all in I; contradiction.
  destruct (to_string _ (access_token (self w))) as [token| |] eqn:T.
  2,3: inversion H; subst; unfold new_requests in I;
    rewrite skipn_all in I; contradiction.
  exists id, token. repeat split.
  apply (only_request w w'); [|exact I].
  destruct (http env _) as [x|]; [|now inversion H].
  destruct (negb _); now inversion H.
Qed.

(** C7.  The request of [sources] carries, as [variables], the JSON text
    whose [abraMessageFetchID] is the fetch identifier in use.  Called with
    no argument, [sources] puts the current [last_fetch_id] there (as a
    string; a [last_fetch_id] that is a string goes in as it is).  Called
    with an identifier, it puts that identifier there, and neither the
    request nor the result depends on [last_fetch_id]. *)
Theorem sources_embeds_fetch_id (env : Env) (w : World) :
  (forall o id token,
      body (sources_request o id token)
      = Some (URLSearchParams.toString
                [ ("access_token", token); ("av", "0"); ("lsd", lsd o); ("dpr", "1");
                  ("fbi_api_caller_class", "RelayModern");
                  ("fbi_api_req_friendly_name", "AbraSearchPluginDialogQuery");
                  ("server_timestamps", "true"); ("doc_id", "6946734308765963");
                  ("variables", js "{'abraMessageFetchID':'" ++ id ++ js "'}") ]))
  /\ (forall r w' request,
         sources None env w = (r, w') -> In request (new_requests w w') ->
         exists id token,
           to_string (number_text env) (last_fetch_id (self w)) = Normal id
           /\ request = sources_request (self w) id token)
  /\ (forall id token,
         last_fetch_id (self w) = VString id ->
         to_string (number_text env) (access_token (self w)) = Normal token ->
         new_requests w (snd (sources None env w)) = [sources_request (self w) id token])
  /\ (forall id r w' request,
         sources (Some id) env w = (r, w') -> In request (new_requests w w') ->
         exists token, request = sources_request (self w) id token)
  /\ (forall id token,
         to_string (number_text env) (access_token (self w)) = Normal token ->
         new_requests w (snd (sources (Some id) env w))
         = [sources_request (self w) id token])
  /\ (forall id other,
         new_requests (with_self (set_last_fetch_id other (self w)) w)
           (snd (sources (Some id) env (with_self (set_last_fetch_id other (self w)) w)))
         = new_requests w (snd (sources (Some id) env w))
         /\ fst (sources (Some id) env (with_self (set_last_fetch_id other (self w)) w))
            = fst (sources (Some id) env w)).
Proof.
  split; [reflexivity|]. split; [|split; [|split; [|split]]].
  - intros r w' request H I.
    destruct (sources_sent _ _ _ _ _ _ H I) as (id & token & Id & _ & E).
    now exists id, token.
  - intros id token L T. rewrite (sources_sends None env w id token).
    + now apply new_requests_of.
    + now rewrite L.
    + exact T.
  - intros id r w' request H I.
    destruct (sources_sent _ _ _ _ _ _ H I) as (id' & token & Id & _ & E).
    simpl in Id. inversion Id; subst id'. now exists token.
  - intros id token T. rewrite (sources_sends (Some id) env w id token).
    + now apply new_requests_of.
    + reflexivity.
    + exact T.
  - intros id other. rewrite !sources_cases. cbv zeta.
    cbn [self with_self access_token set_last_fetch_id to_string].
    destruct (to_string _ _) as [token| |]; cbn [fst snd];
      try (split; [unfold new_requests; now rewrite !skipn_all | reflexivity]).
    change (sources_request (set_last_fetch_id other (self w)) id token)
      with (sources_request (self w) id token).
    destruct (http env _) as [x|]; [destruct (negb _)|]; cbn [fst snd];
      (split; [|reflexivity]);
      rewrite (new_requests_of _ _ [sources_request (self w) id token]) by reflexivity;
      symmetry; now apply new_requests_of.
Qed.

Lemma sources_embeds_fetch_id_witness :
  new_requests ready (snd (sources None found ready))
  = [sources_request (self ready) "F1" "TOK"]
  /\ new_requests ready (snd (sources (Some "F7") found ready))
     = [sources_request (self ready) "F7" "TOK"].
Proof.
  destruct (sources_embeds_fetch_id found ready) as (_ & _ & Default & _ & Given & _).
  split.
  - exact (Default "F1" "TOK" eq_refl eq_refl).
  - exact (Given "F7" "TOK" eq_refl).
Defined.

(** ** [sources] before any [prompt] *)

(** C8, as the code has it.  Called with no argument while [last_fetch_id]
    is the empty string of the constructor, [sources] sends the lookup with
    an empty fetch identifier, leaves the fields as they were, and returns
    [false] exactly when that request is answered with a status other than
    200.  (It sends nothing, and throws, when [access_token] has no string
    conversion.) *)
Theorem sources_with_empty_last_fetch_id
    (env : Env) (w : World) (r : Completion SourcesOrFalse) (w' : World) :
  last_fetch_id (self w) = VString EmptyString ->
  sources None env w = (r, w') ->
  sources_variables EmptyString = js "{'abraMessageFetchID':''}"
  /\ self w' = self w
  /\ match to_string (number_text env) (access_token (self w)) with
     | Normal token =>
         new_requests w w' = [sources_request (self w) EmptyString token]
         /\ (r = Normal NoSources
             <-> refused env (sources_request (self w) EmptyString token))
     | Throw e => new_requests w w' = [] /\ r = Throw e
     | OutOfFuel => False
     end.
Proof.
  intros L H. split; [reflexivity|].
  pose proof (to_string_total (number_text env) (access_token (self w))) as T.
  destruct (to_string (number_text env) (access_token (self w))) as [token|e|] eqn:C;
    [| |contradiction].
  - rewrite (sources_sends None env w EmptyString token) in H; [|now rewrite L|exact C].
    cbv zeta in H. inversion H; subst; clear H.
    split; [reflexivity|]. split; [now apply new_requests_of|].
    destruct (http env _) as [x|] eqn:A.
    + destruct (negb (status x =? 200)%Z) eqn:S.
      * split; [|reflexivity]. intros _. exists x. split; [exact A|].
        now apply status_not_200.
      * split.
        -- intro E. exfalso. pose proof (read_sources_total (data x)) as R.
           unfold read_sources in E.
           repeat match type of E with
                  | cbind ?c _ = _ => destruct c; cbn [cbind] in E; try discriminate
                  end.
        -- intros (y & A' & S'). apply status_200 in S. congruence.
    + split; [discriminate|]. intros (y & A' & _). congruence.
  - rewrite sources_cases in H. cbv zeta in H. rewrite L in H.
    cbn [to_string] in H. rewrite C in H. inversion H; subst; clear H.
    split; [reflexivity|]. split; [|reflexivity].
    unfold new_requests. now rewrite skipn_all.
Qed.

Lemma sources_with_empty_last_fetch_id_witness :
  new_requests (fresh "c0ffee") (snd (sources None all_refused (fresh "c0ffee")))
  = [sources_request (constructor "c0ffee") EmptyString EmptyString]
  /\ fst (sources None all_refused (fresh "c0ffee")) = Normal NoSources.
Proof.
  destruct (sources_with_empty_last_fetch_id all_refused (fresh "c0ffee")
              _ _ eq_refl (surjective_pairing _)) as (_ & _ & N & R).
  split; [exact N|]. apply R. eexists. split; [reflexivity | discriminate].
Defined.

(** C8 as the specification states it fails: on a fresh client [sources()]
    sends the lookup with an empty fetch identifier and returns the sources
    the backend answers with. *)
Lemma sources_on_fresh_client_sends_empty_identifier :
  last_fetch_id (self (fresh "c0ffee")) = VString EmptyString
  /\ map body (sent (snd (sources None found (fresh "c0ffee"))))
     = [Some "access_token=&av=0&lsd=&dpr=1&fbi_api_caller_class=RelayModern&fbi_api_req_friendly_name=AbraSearchPluginDialogQuery&server_timestamps=true&doc_id=6946734308765963&variables=%7B%22abraMessageFetchID%22%3A%22%22%7D"]
  /\ fst (sources None found (fresh "c0ffee"))
     = Normal (TheSources
                 {| search_engine := VString "BING";
                    search_query := VString "rocq";
                    references :=
                      [ {| link := VString "https://a.example"; title := VString "A" |};
                        {| link := VString "https://b.example"; title := VString "B" |} ] |}).
Proof. repeat split; vm_compute; reflexivity. Qed.

(** ** The bounds of [JSON.document] are never used up *)

Lemma more_some (p : JSON.Piece) (r : option (list JSON.Piece * string))
    (ps : list JSON.Piece) (rest : string) :
  JSON.more p r = Some (ps, rest) -> exists ps', r = Some (ps', rest).
Proof.
  destruct r as [[ps' rest']|]; simpl; [|discriminate].
  intro H. inversion H; subst. now exists ps'.
Qed.

Lemma scan_string_shorter (n : nat) :
  forall s ps rest,
    String.length s <= n -> JSON.scan_string s = Some (ps, rest) ->
    String.length rest < String.length s.
Proof.
  induction n as [|n IH]; intros s ps rest L H.
  - destruct s; [discriminate | simpl in L; lia].
  - destruct s as [|c s]; [discriminate|]. cbn [JSON.scan_string] in H.
    simpl in L.
    destruct (Ascii.eqb c dquote).
    { inversion H; subst. simpl. lia. }
    destruct (Ascii.eqb c backslash).
    + destruct s as [|e s]; [discriminate|].
      destruct (JSON.simple_escape e).
      * apply more_some in H. destruct H as (ps' & H).
        apply IH in H; simpl in *; lia.
      * destruct (Ascii.eqb e "u"%char); [|discriminate].
        destruct s as [|h1 [|h2 [|h3 [|h4 s]]]]; try discriminate.
        destruct (JSON.hex4 h1 h2 h3 h4); [|discriminate].
        apply more_some in H. destruct H as (ps' & H).
        apply IH in H; simpl in *; lia.
    + destruct (N.ltb (JSON.code c) 32); [discriminate|].
      apply more_some in H. destruct H as (ps' & H).
      apply IH in H; simpl in *; lia.
Qed.

Lemma digits_length (s : string) :
  String.length (snd (JSON.digits s)) <= String.length s.
Proof.
  induction s as [|c s IH]; simpl; [lia|].
  destruct (JSON.is_digit c); [|simpl; lia].
  destruct (JSON.digits s) as [d r]. simpl in *. lia.
Qed.

Lemma scan_number_shorter (s n rest : string) :
  JSON.scan_number s = Some (n, rest) -> String.length rest < String.length s.
Proof.
  unfold JSON.scan_number.
  assert (I : forall s0 i s1, JSON.scan_int s0 = Some (i, s1) ->
                              String.length s1 < String.length s0).
  { intros s0 i s1. unfold JSON.scan_int. destruct s0 as [|c s0]; [discriminate|].
    destruct (Ascii.eqb c "0"%char).
    - intro H. inversion H; subst. simpl. lia.
    - destruct (JSON.is_digit c) eqn:D; [|discriminate].
      intro H. inversion H as [E]. simpl in E. rewrite D in E.
      pose proof (digits_length s0) as DL.
      destruct (JSON.digits s0) as [d r]. inversion E; subst. simpl in *. lia. }
  assert (F : forall s1 f s2, JSON.scan_frac s1 = Some (f, s2) ->
                              String.length s2 <= String.length s1).
  { intros s1 f s2. unfold JSON.scan_frac.
    destruct s1 as [|c s1]; [intro H; inversion H; subst; lia|].
    destruct (Ascii.eqb_spec c "."%char) as [->|N].
    - pose proof (digits_length s1) as DL.
      destruct (JSON.digits s1) as [[|d0 d] r]; [discriminate|].
      intro H. inversion H; subst. simpl in *. lia.
    - assert (E : match c with
                  | "."%char => match JSON.digits s1 with
                                | (EmptyString, _) => None
                                | (d, r) => Some (String "."%char d, r)
                                end
                  | _ => Some (EmptyString, String c s1)
                  end = Some (EmptyString, String c s1)).
      { destruct c as [[|] [|] [|] [|] [|] [|] [|] [|]]; try reflexivity.
        now contradiction N. }
      rewrite E. intro H. inversion H; subst. lia. }
  assert (X : forall s2 e s3, JSON.scan_exp s2 = Some (e, s3) ->
                              String.length s3 <= String.length s2).
  { intros s2 e s3. unfold JSON.scan_exp.
    destruct s2 as [|c s2]; [intro H; inversion H; subst; lia|].
    destruct (_ || _); [|intro H; inversion H; subst; lia].
    assert (G : String.length (snd (JSON.scan_sign s2)) <= String.length s2).
    { unfold JSON.scan_sign. destruct s2 as [|c' s2]; [simpl; lia|].
      destruct (_ || _); simpl; lia. }
    destruct (JSON.scan_sign s2) as [sg s']. simpl in G.
    pose proof (digits_length s') as DL.
    destruct (JSON.digits s') as [[|d0 d] r]; [discriminate|].
    intro H. inversion H; subst. simpl in *. lia. }
  assert (M : forall s0 : string,
             String.length
               (snd (match s with
                     | String "-"%char s' => ("-", s')
                     | _ => (EmptyString, s)
                     end)) <= String.length s).
  { intros _. destruct s as [|c s']; [simpl; lia|].
    destruct c as [[|] [|] [|] [|] [|] [|] [|] [|]]; simpl; lia. }
  specialize (M s).
  destruct (match s with
            | String "-"%char s' => ("-", s')
            | _ => (EmptyString, s)
            end) as [minus s0]. simpl in M.
  destruct (JSON.scan_int s0) as [[i s1]|] eqn:Ei; [|discriminate].
  destruct (JSON.scan_frac s1) as [[f s2]|] eqn:Ef; [|discriminate].
  destruct (JSON.scan_exp s2) as [[e s3]|] eqn:Ex; [|discriminate].
  intro H. inversion H; subst.
  apply I in Ei. apply F in Ef. apply X in Ex. lia.
Qed.

Lemma drop_shorter (k : nat) (s : string) :
  s <> EmptyString -> String.length (JsString.drop (S k) s) < String.length s.
Proof.
  destruct s as [|c s]; [now intros []|]. intros _. simpl.
  revert s. induction k as [|k IH]; intro s; [simpl; lia|].
  destruct s as [|c' s]; [simpl; lia|].
  specialize (IH s). simpl in *. lia.
Qed.

(** A fuel above the length of the text does as well as any. *)
Lemma lex_enough (n : nat) :
  forall s, String.length s < n ->
  forall f ts, JSON.lex f s = Some ts -> JSON.lex n s = Some ts.
Proof.
  induction n as [|n IH]; intros s L f ts H; [lia|].
  destruct f as [|f]; [discriminate|].
  assert (step : forall t rest,
             String.length rest < String.length s ->
             JSON.cons_token t (JSON.lex f rest) = Some ts ->
             JSON.cons_token t (JSON.lex n rest) = Some ts).
  { intros t rest Lr E. destruct (JSON.lex f rest) as [l|] eqn:Ef; [|discriminate].
    rewrite (IH rest ltac:(lia) f l Ef). exact E. }
  cbn [JSON.lex] in H |- *.
  destruct s as [|c s]; [exact H|].
  assert (L1 : String.length s < String.length (String c s)) by (simpl; lia).
  repeat match goal with
         | |- (if ?b then _ else _) = _ =>
             destruct b;
             [ first [ solve [apply step; [exact L1 | exact H]]
                     | solve [apply (IH s ltac:(simpl in L; lia) f ts H)]
                     | solve [apply step; [now apply drop_shorter | exact H]]
                     | idtac ]
             | ]
         end.
  - destruct (JSON.scan_string s) as [[ps rest]|] eqn:E; [|discriminate].
    apply step; [|exact H].
    apply (scan_string_shorter _ _ _ _ (le_n _)) in E. simpl. lia.
  - destruct (JSON.scan_number _) as [[m rest]|] eqn:E; [|discriminate].
    apply step; [|exact H]. now apply scan_number_shorter in E.
  - discriminate.
Qed.

(** A fuel that covers the tokens a value takes does as well as any. *)
Lemma value_enough (f : nat) :
  (forall ts v r,
      JSON.value f ts = Some (v, r) ->
      List.length r < List.length ts
      /\ forall n, List.length ts - List.length r <= n -> JSON.value n ts = Some (v, r))
  /\ (forall ts vs r,
         JSON.elements f ts = Some (vs, r) ->
         List.length r < List.length ts
         /\ forall n, List.length ts - List.length r <= n ->
                      JSON.elements n ts = Some (vs, r))
  /\ (forall ts ms r,
         JSON.members f ts = Some (ms, r) ->
         List.length r < List.length ts
         /\ forall n, List.length ts - List.length r <= n ->
                      JSON.members n ts = Some (ms, r)).
Proof.
  induction f as [|f (IHv & IHe & IHm)]; [repeat split; discriminate|].
  split; [|split].
  - intros ts v r H. cbn [JSON.value] in H.
    destruct ts as [|t ts]; [discriminate|].
    destruct t; try discriminate;
      try (inversion H; subst; split; [cbn [List.length]; lia|];
           intros [|n] Ln; [cbn [List.length] in Ln; lia | reflexivity]).
    + (* an object *)
      destruct ts as [|t ts]; [destruct f; discriminate|].
      assert (G : forall ms r',
                 JSON.members f (t :: ts) = Some (ms, r') ->
                 Some (VObject ms, r') = Some (v, r) ->
                 List.length r < List.length (JSON.TLBrace :: t :: ts)
                 /\ forall n, List.length (JSON.TLBrace :: t :: ts) - List.length r <= n ->
                              match JSON.members (pred n) (t :: ts) with
                              | Some (ms, r') => Some (VObject ms, r')
                              | None => None
                              end = Some (v, r)).
      { intros ms r' M E. inversion E; subst. destruct (IHm _ _ _ M) as [Lr En].
        split; [cbn [List.length] in *; lia|]. intros n Ln.
        rewrite (En (pred n)); [reflexivity | cbn [List.length] in *; lia]. }
      destruct t;
        try (destruct (JSON.members f _) as [[ms r']|] eqn:M; [|discriminate];
             destruct (G _ _ eq_refl H) as [Lr En]; split; [exact Lr|];
             intros [|n] Ln; [cbn [List.length] in *; lia | exact (En (S n) Ln)]).
      inversion H; subst. split; [cbn [List.length]; lia|].
      intros [|n] Ln; [cbn [List.length] in Ln; lia | reflexivity].
    + (* an array *)
      destruct ts as [|t ts]; [destruct f as [|[|f]]; discriminate|].
      assert (G : forall vs r',
                 JSON.elements f (t :: ts) = Some (vs, r') ->
                 Some (VArray vs, r') = Some (v, r) ->
                 List.length r < List.length (JSON.TLBracket :: t :: ts)
                 /\ forall n, List.length (JSON.TLBracket :: t :: ts) - List.length r <= n ->
                              match JSON.elements (pred n) (t :: ts) with
                              | Some (vs, r') => Some (VArray vs, r')
                              | None => None
                              end = Some (v, r)).
      { intros vs r' M E. inversion E; subst. destruct (IHe _ _ _ M) as [Lr En].
        split; [cbn [List.length] in *; lia|]. intros n Ln.
        rewrite (En (pred n)); [reflexivity | cbn [List.length] in *; lia]. }
      destruct t;
        try (destruct (JSON.elements f _) as [[vs r']|] eqn:M; [|discriminate];
             destruct (G _ _ eq_refl H) as [Lr En]; split; [exact Lr|];
             intros [|n] Ln; [cbn [List.length] in *; lia | exact (En (S n) Ln)]).
      inversion H; subst. split; [cbn [List.length]; lia|].
      intros [|n] Ln; [cbn [List.length] in Ln; lia | reflexivity].
  - intros ts vs r H. cbn [JSON.elements] in H.
    destruct (JSON.value f ts) as [[v r1]|] eqn:V; [|discriminate].
    destruct (IHv _ _ _ V) as [L1 E1].
    destruct r1 as [|t r1]; [discriminate|].
    destruct t; try discriminate.
    + (* closing bracket *)
      inversion H; subst. split; [cbn [List.length] in *; lia|].
      intros [|n] Ln; [cbn [List.length] in *; lia|]. cbn [JSON.elements].
      rewrite (E1 n); [reflexivity | cbn [List.length] in *; lia].
    + (* comma *)
      destruct (JSON.elements f r1) as [[vs' r']|] eqn:E; [|discriminate].
      destruct (IHe _ _ _ E) as [L2 E2]. inversion H; subst.
      split; [cbn [List.length] in *; lia|].
      intros [|n] Ln; [cbn [List.length] in *; lia|]. cbn [JSON.elements].
      rewrite (E1 n); [|cbn [List.length] in *; lia].
      rewrite (E2 n); [reflexivity | cbn [List.length] in *; lia].
  - intros ts ms r H. cbn [JSON.members] in H.
    destruct ts as [|t ts]; [discriminate|].
    destruct t; try discriminate.
    destruct ts as [|t ts]; [discriminate|].
    destruct t; try discriminate.
    destruct (JSON.value f ts) as [[v r1]|] eqn:V; [|discriminate].
    destruct (IHv _ _ _ V) as [L1 E1].
    destruct r1 as [|t r1]; [discriminate|].
    destruct t; try discriminate.
    + (* closing brace *)
      inversion H; subst. split; [cbn [List.length] in *; lia|].
      intros [|n] Ln; [cbn [List.length] in *; lia|]. cbn [JSON.members].
      rewrite (E1 n); [reflexivity | cbn [List.length] in *; lia].
    + (* comma *)
      destruct (JSON.members f r1) as [[ms' r']|] eqn:E; [|discriminate].
      destruct (IHm _ _ _ E) as [L2 E2]. inversion H; subst.
      split; [cbn [List.length] in *; lia|].
      intros [|n] Ln; [cbn [List.length] in *; lia|]. cbn [JSON.members].
      rewrite (E1 n); [|cbn [List.length] in *; lia].
      rewrite (E2 n); [reflexivity | cbn [List.length] in *; lia].
Qed.

(** [JSON.document] finds a value whenever some fuel does. *)
Lemma document_complete (s : string) (f1 f2 : nat) (ts : list JSON.Token) (v : Value) :
  JSON.lex f1 s = Some ts -> JSON.value f2 ts = Some (v, []) ->
  JSON.document s = Some v.
Proof.
  intros L V. unfold JSON.document.
  rewrite (lex_enough (S (String.length s)) s (le_n _) f1 ts L).
  destruct (value_enough f2) as (E & _ & _). destruct (E _ _ _ V) as [_ En].
  rewrite (En (S (List.length ts))); [reflexivity | cbn [List.length]; lia].
Qed.

(** ** The [variables] of [prompt] as JSON text *)

Lemma prompt_variables_parts (m cid tid : string) :
  prompt_variables m cid tid
  = part1 ++ m ++ String dquote (part2 ++ cid ++ String dquote (part3 ++ tid
      ++ String dquote part4)).
Proof. reflexivity. Qed.

Lemma text_raw (s : string) : JSON.text (raw s) = s.
Proof. induction s as [|c s IH]; simpl; [reflexivity | now rewrite IH]. Qed.

Lemma scan_string_plain (m rest : string) :
  JsString.all plain m = true ->
  JSON.scan_string (m ++ String dquote rest) = Some (raw m, rest).
Proof.
  induction m as [|c m IH]; simpl; intro P.
  - reflexivity.
  - apply andb_prop in P. destruct P as [Pc Pm]. unfold plain in Pc.
    apply andb_prop in Pc. destruct Pc as [Pc C3].
    apply andb_prop in Pc. destruct Pc as [C1 C2].
    apply Bool.negb_true_iff in C1, C2, C3.
    unfold dquote, backslash in *. rewrite C1, C2. unfold JSON.code. rewrite C3.
    now rewrite (IH Pm).
Qed.

Lemma then_string_plain (f : nat) (m rest : string) :
  JsString.all plain m = true ->
  then_string f (m ++ String dquote rest) = JSON.cons_token (JSON.TString m) (JSON.lex f rest).
Proof. intro P. unfold then_string. now rewrite (scan_string_plain _ _ P), text_raw. Qed.

Lemma lex_part1 (f : nat) (X : string) :
  JSON.lex (6 + S f) (part1 ++ X)
  = cons_tokens [JSON.TLBrace; JSON.TString "message"; JSON.TColon; JSON.TLBrace;
                 JSON.TString "sensitive_string_value"; JSON.TColon] (then_string f X).
Proof. reflexivity. Qed.

Lemma lex_part2 (f : nat) (X : string) :
  JSON.lex (4 + S f) (part2 ++ X)
  = cons_tokens [JSON.TRBrace; JSON.TComma; JSON.TString "externalConversationId";
                 JSON.TColon] (then_string f X).
Proof. reflexivity. Qed.

Lemma lex_part3 (f : nat) (X : string) :
  JSON.lex (3 + S f) (part3 ++ X)
  = cons_tokens [JSON.TComma; JSON.TString "offlineThreadingId"; JSON.TColon]
      (then_string f X).
Proof. reflexivity. Qed.

Lemma length_append (a b : string) :
  String.length (a ++ b) = String.length a + String.length b.
Proof. induction a as [|c a IH]; simpl; [reflexivity | now rewrite IH]. Qed.

(** More fuel does not change what [lex] finds. *)
Lemma lex_more_fuel (f : nat) :
  forall s ts, JSON.lex f s = Some ts -> forall k, JSON.lex (f + k) s = Some ts.
Proof.
  induction f as [|f IH]; intros s ts H k; [discriminate|].
  assert (step : forall t rest,
             JSON.cons_token t (JSON.lex f rest) = Some ts ->
             JSON.cons_token t (JSON.lex (f + k) rest) = Some ts).
  { intros t rest E. destruct (JSON.lex f rest) as [l|] eqn:L; [|discriminate].
    now rewrite (IH _ _ L k). }
  cbn [JSON.lex Nat.add] in H |- *.
  destruct s as [|c s]; [exact H|].
  repeat match goal with
         | |- (if ?b then _ else _) = _ =>
             destruct b;
             [ first [ solve [auto]
                     | destruct (JSON.scan_string s) as [[ps rest]|];
                       [solve [auto] | discriminate]
                     | destruct (JSON.scan_number _) as [[n rest]|];
                       [solve [auto] | discriminate] ]
             | ]
         end.
  discriminate.
Qed.

Lemma lex_variables (m cid tid : string) :
  JsString.all plain m = true ->
  JsString.all plain cid = true ->
  JsString.all plain tid = true ->
  exists ts,
    JSON.lex (S (String.length (prompt_variables m cid tid))) (prompt_variables m cid tid)
    = Some ts
    /\ JSON.value (S (List.length ts)) ts = Some (variables_document m cid tid, []).
Proof.
  intros Pm Pc Pt. rewrite prompt_variables_parts.
  set (s := part1 ++ _).
  assert (L : exists ts, JSON.lex 55 s = Some ts
              /\ JSON.value (S (List.length ts)) ts = Some (variables_document m cid tid, [])).
  { subst s. change 55 with (6 + S 48). rewrite lex_part1.
    rewrite (then_string_plain _ _ _ Pm).
    change 48 with (4 + S 43). rewrite lex_part2.
    rewrite (then_string_plain _ _ _ Pc).
    change 43 with (3 + S 39). rewrite lex_part3.
    rewrite (then_string_plain _ _ _ Pt).
    eexists. split; [vm_compute; reflexivity|]. vm_compute. reflexivity. }
  destruct L as (ts & L & V). exists ts. split; [|exact V].
  assert (Len : 55 <= S (String.length s)).
  { subst s. rewrite length_append. change (String.length part1) with 38.
    rewrite length_append. cbn [String.length].
    rewrite length_append. change (String.length part2) with 28.
    rewrite length_append. lia. }
  replace (S (String.length s)) with (55 + (S (String.length s) - 55)) by lia.
  now apply lex_more_fuel.
Qed.

Lemma all_append (p : ascii -> bool) (a b : string) :
  JsString.all p (a ++ b) = JsString.all p a && JsString.all p b.
Proof.
  induction a as [|c a IH]; simpl; [reflexivity|].
  now rewrite IH, Bool.andb_assoc.
Qed.

Lemma charAt_characters_plain (k : nat) :
  JsString.all plain (JsString.charAt characters k) = true.
Proof. do 10 (destruct k as [|k]; [reflexivity|]). reflexivity. Qed.

Lemma sample_plain (rnd : nat -> nat) (n : nat) :
  forall pos r, JsString.all plain r = true -> JsString.all plain (sample rnd n pos r) = true.
Proof.
  induction n as [|n IH]; intros pos r P; simpl; [exact P|].
  apply IH. now rewrite all_append, P, charAt_characters_plain.
Qed.

Lemma threadingID_plain (rnd : nat -> nat) (fuel : nat) :
  forall pos tid pos',
    threadingID_loop rnd fuel pos = Some (tid, pos') -> JsString.all plain tid = true.
Proof.
  induction fuel as [|fuel IH]; intros pos tid pos'; cbn [threadingID_loop];
    [discriminate|].
  destruct (rejected _); [apply IH|].
  intro H. assert (E : tid = sample rnd 19 pos EmptyString) by congruence.
  rewrite E. now apply (sample_plain rnd 19 pos EmptyString).
Qed.

Lemma lex_doubled_quote (f : nat) (X : string) :
  JSON.lex f (part1 ++ String dquote (String dquote (part2 ++ X))) = None.
Proof. do 9 (destruct f as [|f]; [reflexivity|]). reflexivity. Qed.

(** C10, as the code has it.  [prompt] puts the message between the quotes
    of a JSON string as it is.  For a message with no double quote, no
    backslash and no control character (and a conversation identifier of
    such characters; a threading identifier is made of digits), [variables]
    is a JSON document whose [message.sensitive_string_value] is the message.
    For the message made of one double quote, [variables] is not a JSON
    document. *)
Theorem prompt_variables_plain_message :
  (forall message conversation_id threading_id,
      JsString.all plain message = true ->
      JsString.all plain conversation_id = true ->
      JsString.all plain threading_id = true ->
      JSON.document (prompt_variables message conversation_id threading_id)
      = Some (variables_document message conversation_id threading_id)
      /\ sensitive_string_value (variables_document message conversation_id threading_id)
         = Some (VString message))
  /\ (forall rnd fuel pos threading_id pos',
         threadingID_loop rnd fuel pos = Some (threading_id, pos') ->
         JsString.all plain threading_id = true)
  /\ (JsString.includes (str1 dquote) (str1 dquote) = true
      /\ forall conversation_id threading_id,
          JSON.document (prompt_variables (str1 dquote) conversation_id threading_id)
          = None).
Proof.
  split; [|split].
  - intros m cid tid Pm Pc Pt. split; [|reflexivity].
    destruct (lex_variables m cid tid Pm Pc Pt) as (ts & L & V).
    unfold JSON.document. now rewrite L, V.
  - intros rnd fuel pos tid pos'. apply threadingID_plain.
  - split; [reflexivity|]. intros cid tid. unfold JSON.document.
    rewrite prompt_variables_parts. cbn [append str1].
    now rewrite lex_doubled_quote.
Qed.

Lemma prompt_variables_plain_message_witness :
  JSON.document (prompt_variables "What is Rocq?" "c0ffee" "1234567890123456789")
  = Some (variables_document "What is Rocq?" "c0ffee" "1234567890123456789").
Proof.
  exact (proj1 (proj1 prompt_variables_plain_message
                  "What is Rocq?" "c0ffee" "1234567890123456789"
                  eq_refl eq_refl eq_refl)).
Defined.

(** C10 as stated fails: a message of two lines has no double quote and no
    backslash, and [variables] is not a JSON document, since a line feed may
    not stand unescaped in a JSON string. *)
Lemma two_line_message_is_not_json :
  JsString.includes ("one" ++ str1 newline ++ "two") (str1 dquote) = false
  /\ JsString.includes ("one" ++ str1 newline ++ "two") (str1 backslash) = false
  /\ JSON.document (prompt_variables ("one" ++ str1 newline ++ "two")
                      "c0ffee" "1234567890123456789") = None.
Proof. repeat split; vm_compute; reflexivity. Qed.

(** * Further properties of the client and of the command line *)

(** ** What [init] takes from the page *)

Lemma lazy_dots_continues {A} (k : string -> option A) (s : string) (r : A) :
  Regex.lazy_dots k s = Some r -> exists s', k s' = Some r.
Proof.
  induction s as [|c s IH]; simpl.
  - destruct (k EmptyString) eqn:K; [|discriminate].
    intro E. exists EmptyString. congruence.
  - destruct (k (String c s)) eqn:K.
    + intro E. exists (String c s). congruence.
    + destruct (Regex.line_terminator_at (String c s)); [discriminate | exact IH].
Qed.

Lemma atoms_continues {A} (re : list Regex.Atom) (k : string -> option A) (s : string) (r : A) :
  Regex.atoms re k s = Some r -> exists s', k s' = Some r.
Proof.
  revert s. induction re as [|[c|] re IH]; intro s; simpl.
  - intro E. now exists s.
  - destruct s as [|c' s]; [discriminate|].
    destruct (Ascii.eqb c c'); [apply IH | discriminate].
  - intro E. apply lazy_dots_continues in E. destruct E as (s' & E). exact (IH _ E).
Qed.

Lemma append_empty (s : string) : s ++ EmptyString = s.
Proof. induction s as [|c s IH]; simpl; [reflexivity | now rewrite IH]. Qed.

Lemma append_assoc (a b c : string) : (a ++ b) ++ c = a ++ (b ++ c).
Proof. induction a as [|x a IH]; simpl; [reflexivity | now rewrite IH]. Qed.

Lemma line_terminator_head (c : ascii) (s : string) :
  Regex.line_terminator_at (String c s) = false ->
  Ascii.eqb c "010" = false /\ Ascii.eqb c "013" = false.
Proof.
  unfold Regex.line_terminator_at. cbn [JsString.startsWith str1].
  rewrite !startsWith_empty, !Bool.andb_true_r.
  intro L. apply Bool.orb_false_elim in L. destruct L as [L _].
  apply Bool.orb_false_elim in L. destruct L as [L _].
  apply Bool.orb_false_elim in L. destruct L as [L1 L2].
  rewrite Ascii.eqb_sym in L1. rewrite Ascii.eqb_sym in L2. now split.
Qed.

Lemma lazy_group_safe (s seen g : string) :
  Regex.lazy_group (Regex.matches_here [Regex.Ch dquote]) seen s = Some g ->
  exists captured, g = seen ++ captured /\ JsString.all header_safe captured = true.
Proof.
  revert seen. induction s as [|c s IH]; intro seen.
  - simpl. discriminate.
  - cbn [Regex.lazy_group].
    destruct (Regex.matches_here [Regex.Ch dquote] (String c s)) eqn:K.
    + intro E. exists EmptyString. split; [|reflexivity].
      rewrite append_empty. congruence.
    + destruct (Regex.line_terminator_at (String c s)) eqn:L; [discriminate|].
      intro E. apply IH in E. destruct E as (captured & -> & Safe).
      exists (String c captured). split.
      * now rewrite append_assoc.
      * cbn [JsString.all]. rewrite Safe, Bool.andb_true_r.
        apply line_terminator_head in L. destruct L as [L1 L2].
        unfold header_safe. rewrite L1, L2.
        unfold Regex.matches_here in K. cbn [Regex.atoms] in K.
        rewrite Ascii.eqb_sym in K.
        destruct (Ascii.eqb c dquote); [discriminate | reflexivity].
Qed.

Lemma match_at_safe (lit : list Regex.Atom) (s g : string) :
  Regex.match_at {| Regex.before := lit; Regex.after := [Regex.Ch dquote] |} s = Some g ->
  JsString.all header_safe g = true.
Proof.
  unfold Regex.match_at. cbn [Regex.before Regex.after].
  intro E. apply atoms_continues in E. destruct E as (s' & E).
  apply lazy_group_safe in E. now destruct E as (captured & -> & Safe).
Qed.

Lemma search_safe (lit : list Regex.Atom) (s g : string) :
  Regex.search {| Regex.before := lit; Regex.after := [Regex.Ch dquote] |} s = Some g ->
  JsString.all header_safe g = true.
Proof.
  induction s as [|c s IH]; cbn [Regex.search].
  - destruct (Regex.match_at _ _) eqn:M; [|discriminate].
    intro E. inversion E; subst. exact (match_at_safe _ _ _ M).
  - destruct (Regex.match_at _ _) eqn:M; [|exact IH].
    intro E. inversion E; subst. exact (match_at_safe _ _ _ M).
Qed.

(** X1.  What [init] stores holds no double quote and no line feed or carriage
    return: after a call that returned [true], [lsd] and [cookies] are made
    of other characters only. *)
Theorem init_stores_no_quote_or_line_break (env : Env) (w w' : World) :
  init env w = (Normal true, w') ->
  JsString.all header_safe (lsd (self w')) = true
  /\ JsString.all header_safe (cookies (self w')) = true.
Proof.
  rewrite init_cases.
  destruct (http env init_request) as [response|]; [|discriminate].
  destruct (negb (status response =? 200)%Z); [discriminate|].
  unfold page_groups.
  destruct (data response) as [| | | |page| | |]; try discriminate.
  destruct (Regex.search Regex.abra_csrf page) as [a|] eqn:A; [|discriminate].
  destruct (Regex.search Regex._js_datr page) as [j|] eqn:J; [|discriminate].
  destruct (Regex.search Regex.datr page) as [t|] eqn:D; [|discriminate].
  destruct (Regex.search Regex.lsd page) as [l|] eqn:L; [|discriminate].
  apply search_safe in A, J, D, L.
  intro E. inversion E; subst; clear E. cbn [with_self self set_lsd set_cookies lsd cookies].
  split; [exact L|].
  unfold cookie_string. rewrite !all_append, A, J, D, L. reflexivity.
Qed.

Lemma init_stores_no_quote_or_line_break_witness :
  JsString.all header_safe (cookies (self (snd (init streaming (fresh "c0ffee"))))) = true.
Proof.
  exact (proj2 (init_stores_no_quote_or_line_break streaming (fresh "c0ffee")
                  (snd (init streaming (fresh "c0ffee"))) eq_refl)).
Defined.

(** A match of the [_js_datr] pattern holds a match of the [datr] pattern
    four characters on. *)
Lemma match_at_js_datr (s j : string) :
  Regex.match_at Regex._js_datr s = Some j ->
  exists s4, s = "_js_" ++ s4 /\ Regex.match_at Regex.datr s4 = Some j.
Proof.
  unfold Regex.match_at.
  change (Regex.before Regex._js_datr)
    with (Regex.Ch "_" :: Regex.Ch "j" :: Regex.Ch "s" :: Regex.Ch "_"
          :: Regex.before Regex.datr)%list.
  change (Regex.after Regex._js_datr) with (Regex.after Regex.datr).
  cbn [Regex.atoms].
  destruct s as [|c1 [|c2 [|c3 [|c4 s4]]]]; try discriminate;
    try (destruct (Ascii.eqb _ _); discriminate).
  - destruct (Ascii.eqb "_" c1); [|discriminate]. destruct (Ascii.eqb "j" c2); discriminate.
  - destruct (Ascii.eqb "_" c1); [|discriminate]. destruct (Ascii.eqb "j" c2); [|discriminate].
    destruct (Ascii.eqb "s" c3); discriminate.
  - destruct (Ascii.eqb_spec "_" c1) as [<-|]; [|discriminate].
    destruct (Ascii.eqb_spec "j" c2) as [<-|]; [|discriminate].
    destruct (Ascii.eqb_spec "s" c3) as [<-|]; [|discriminate].
    destruct (Ascii.eqb_spec "_" c4) as [<-|]; [|discriminate].
    intro E. now exists s4.
Qed.

Lemma search_found (re : Regex.t) (s g : string) :
  Regex.search re s = Some g ->
  exists pre s', s = pre ++ s' /\ Regex.match_at re s' = Some g.
Proof.
  induction s as [|c s IH]; cbn [Regex.search].
  - destruct (Regex.match_at re EmptyString) eqn:M; [|discriminate].
    intro E. exists EmptyString, EmptyString. split; [reflexivity | congruence].
  - destruct (Regex.match_at re (String c s)) eqn:M.
    + intro E. exists EmptyString, (String c s). split; [reflexivity | congruence].
    + intro E. destruct (IH E) as (pre & s' & -> & M').
      exists (String c pre), s'. now split.
Qed.

Lemma search_finds (re : Regex.t) (pre s' g : string) :
  Regex.match_at re s' = Some g -> exists d, Regex.search re (pre ++ s') = Some d.
Proof.
  intro M. induction pre as [|c pre IH].
  - exists g. destruct s'; cbn [append Regex.search]; now rewrite M.
  - cbn [append Regex.search].
    destruct (Regex.match_at re (String c (pre ++ s'))) as [d|]; [now exists d | exact IH].
Qed.

Lemma js_datr_brings_datr (page j : string) :
  Regex.search Regex._js_datr page = Some j ->
  exists d, Regex.search Regex.datr page = Some d.
Proof.
  intro S. apply search_found in S. destruct S as (pre & s' & -> & M).
  apply match_at_js_datr in M. destruct M as (s4 & -> & M).
  rewrite <- append_assoc. exact (search_finds _ _ _ _ M).
Qed.

Lemma search_here (re : Regex.t) (s g : string) :
  Regex.match_at re s = Some g -> Regex.search re s = Some g.
Proof. intro M. destruct s; cbn [Regex.search]; now rewrite M. Qed.

Lemma search_next (re : Regex.t) (c : ascii) (s : string) :
  Regex.match_at re (String c s) = None ->
  Regex.search re (String c s) = Regex.search re s.
Proof. intro M. cbn [Regex.search]. now rewrite M. Qed.

Lemma atoms_literal {A} (lit : string) (k : string -> option A) (x : string) :
  Regex.atoms (Regex.literal lit) k (lit ++ x) = k x.
Proof.
  induction lit as [|c lit IH]; [reflexivity|].
  cbn [Regex.literal Regex.atoms append]. now rewrite Ascii.eqb_refl.
Qed.

Lemma printable_dot (c : ascii) (s : string) :
  printable c = true ->
  Regex.matches_here [Regex.Ch dquote] (String c s) = false
  /\ Regex.line_terminator_at (String c s) = false.
Proof.
  intro P. split.
  - unfold Regex.matches_here. cbn [Regex.atoms].
    destruct (Ascii.eqb_spec dquote c) as [<-|]; [discriminate P | reflexivity].
  - unfold Regex.line_terminator_at. cbn [JsString.startsWith str1].
    destruct (Ascii.eqb_spec "010" c) as [<-|]; [discriminate P|].
    destruct (Ascii.eqb_spec "013" c) as [<-|]; [discriminate P|].
    destruct (Ascii.eqb_spec "226" c) as [<-|]; [discriminate P|].
    reflexivity.
Qed.

Lemma lazy_group_takes (v rest seen : string) :
  JsString.all printable v = true ->
  Regex.lazy_group (Regex.matches_here [Regex.Ch dquote]) seen (v ++ String dquote rest)
  = Some (seen ++ v).
Proof.
  revert seen. induction v as [|c v IH]; intros seen P.
  - cbn [append Regex.lazy_group]. unfold Regex.matches_here. cbn [Regex.atoms].
    rewrite Ascii.eqb_refl. now rewrite append_empty.
  - cbn [JsString.all] in P. apply andb_prop in P. destruct P as [Pc Pv].
    destruct (printable_dot c (v ++ String dquote rest) Pc) as [K L].
    cbn [append Regex.lazy_group]. rewrite K, L, (IH _ Pv).
    now rewrite append_assoc.
Qed.

Lemma match_at_datr_marker (v rest : string) :
  JsString.all printable v = true ->
  Regex.match_at Regex.datr (js "datr':{'value':'" ++ v ++ String dquote rest) = Some v.
Proof.
  intro P. unfold Regex.match_at.
  change (Regex.before Regex.datr) with (Regex.literal (js "datr':{'value':'")).
  rewrite atoms_literal. exact (lazy_group_takes v rest EmptyString P).
Qed.

Lemma match_at_datr_needs (s : string) :
  JsString.startsWith s "datr" = false -> Regex.match_at Regex.datr s = None.
Proof.
  unfold Regex.match_at.
  change (Regex.before Regex.datr)
    with (Regex.Ch "d" :: Regex.Ch "a" :: Regex.Ch "t" :: Regex.Ch "r"
          :: Regex.literal (js "':{'value':'"))%list.
  destruct s as [|c1 [|c2 [|c3 [|c4 s4]]]];
    cbn [Regex.atoms JsString.startsWith]; case_eqb; try reflexivity.
  rewrite startsWith_empty. discriminate.
Qed.

Lemma no_datr_across (pre rest : string) :
  JsString.startsWith pre "datr" = false ->
  JsString.startsWith (pre ++ "_js_" ++ rest) "datr" = false.
Proof.
  destruct pre as [|c1 [|c2 [|c3 [|c4 s4]]]]; cbn [append JsString.startsWith];
    case_eqb; rewrite ?startsWith_empty; intro H; try reflexivity; discriminate H.
Qed.

Lemma search_datr_skips (pre rest : string) :
  JsString.includes pre "datr" = false ->
  Regex.search Regex.datr (pre ++ "_js_" ++ rest) = Regex.search Regex.datr rest.
Proof.
  induction pre as [|c pre IH].
  - intros _. cbn [append]. now rewrite !search_next by reflexivity.
  - intro I. cbn [JsString.includes] in I. apply Bool.orb_false_elim in I.
    destruct I as [I1 I2]. 
    change (String c pre ++ "_js_" ++ rest) with (String c (pre ++ "_js_" ++ rest)).
    rewrite search_next; [exact (IH I2)|].
    apply match_at_datr_needs. exact (no_datr_across (String c pre) rest I1).
Qed.

(** X2.  The pattern of [datr] is the end of the pattern of [_js_datr], so it
    matches wherever that one does: on a page where the patterns of
    [abra_csrf], [_js_datr] and [lsd] match, [init] returns [true] whether or
    not the page has a [datr] marker of its own.  When the text datr does not
    occur before a [_js_datr] marker, the value [init] stores for [datr] is
    the value of that marker. *)
Theorem init_reads_datr_inside_js_datr (env : Env) (w : World) (page : string) :
  http env init_request = Resolved {| status := 200; data := VString page |} ->
  (forall abra_csrf _js_datr lsd,
      Regex.search Regex.abra_csrf page = Some abra_csrf ->
      Regex.search Regex._js_datr page = Some _js_datr ->
      Regex.search Regex.lsd page = Some lsd ->
      exists datr,
        Regex.search Regex.datr page = Some datr
        /\ init env w
           = (Normal true,
              with_self (set_lsd lsd (set_cookies (cookie_string _js_datr abra_csrf datr lsd)
                                        (self w)))
                (logged w init_request)))
  /\ (forall pre value post,
         page = pre ++ js "_js_datr':{'value':'" ++ value ++ String dquote post ->
         JsString.includes pre "datr" = false ->
         JsString.all printable value = true ->
         Regex.search Regex.datr page = Some value).
Proof.
  intro A. split.
  - intros a j l Ha Hj Hl.
    destruct (js_datr_brings_datr page j Hj) as (d & Hd).
    exists d. split; [exact Hd|].
    rewrite init_cases, A. cbn [status data negb Z.eqb Pos.eqb].
    unfold page_groups. now rewrite Ha, Hj, Hd, Hl.
  - intros pre v post -> I P.
    change (js "_js_datr':{'value':'" ++ v ++ String dquote post)
      with ("_js_" ++ js "datr':{'value':'" ++ v ++ String dquote post).
    rewrite (search_datr_skips pre _ I).
    apply search_here. exact (match_at_datr_marker v post P).
Qed.

Lemma init_reads_datr_inside_js_datr_witness :
  Regex.search Regex.datr page_without_datr = Some "JJJ".
Proof.
  exact (proj2 (init_reads_datr_inside_js_datr without_datr (fresh "c0ffee")
                  page_without_datr eq_refl)
           (js "{'abra_csrf':{'value':'AAA'},'") "JJJ"
           (js "}}, ['LSD',[],{'token':'LLL'}]") eq_refl eq_refl eq_refl).
Defined.

(** ** The first marker of each kind *)

Lemma search_skips (re : Regex.t) (lit : string) (more : list Regex.Atom)
    (pre rest : string) :
  Regex.before re = (Regex.literal lit ++ more)%list ->
  stands_before (String.length pre) lit (pre ++ rest) = false ->
  Regex.search re (pre ++ rest) = Regex.search re rest.
Proof.
  intro B. induction pre as [|c pre IH]; intro H; [reflexivity|].
  cbn [String.length append stands_before] in H.
  apply Bool.orb_false_elim in H. destruct H as [H1 H2].
  cbn [append]. rewrite search_next; [exact (IH H2)|].
  unfold Regex.match_at. rewrite B, atoms_literal_then.
  now apply atoms_literal_fails.
Qed.

Lemma search_marked (re : Regex.t) (marker page pre value post : string) :
  Regex.before re = Regex.literal marker ->
  Regex.after re = [Regex.Ch dquote] ->
  marked marker page pre value post ->
  Regex.search re page = Some value.
Proof.
  intros B A (-> & F & P).
  rewrite (search_skips re marker [] pre _); [| now rewrite B, app_nil_r | exact F].
  apply search_here. unfold Regex.match_at. rewrite B, A, atoms_literal.
  exact (lazy_group_takes value post EmptyString P).
Qed.

Lemma inline_dot (c : ascii) (s : string) :
  inline c = true -> Regex.line_terminator_at (String c s) = false.
Proof.
  intro P. unfold Regex.line_terminator_at. cbn [JsString.startsWith str1].
  destruct (Ascii.eqb_spec "010" c) as [<-|]; [discriminate P|].
  destruct (Ascii.eqb_spec "013" c) as [<-|]; [discriminate P|].
  destruct (Ascii.eqb_spec "226" c) as [<-|]; [discriminate P|].
  reflexivity.
Qed.

Lemma lazy_dots_here {A} (k : string -> option A) (s : string) (r : A) :
  k s = Some r -> Regex.lazy_dots k s = Some r.
Proof. intro K. destruct s; cbn [Regex.lazy_dots]; now rewrite K. Qed.

Lemma lazy_dots_skips {A} (lit : string) (k : string -> option A) (mid rest : string) :
  JsString.all inline mid = true ->
  stands_before (String.length mid) lit (mid ++ rest) = false ->
  Regex.lazy_dots (Regex.atoms (Regex.literal lit) k) (mid ++ rest)
  = Regex.lazy_dots (Regex.atoms (Regex.literal lit) k) rest.
Proof.
  induction mid as [|c mid IH]; intros I H; [reflexivity|].
  cbn [JsString.all] in I. apply andb_prop in I. destruct I as [Ic Im].
  cbn [String.length append stands_before] in H.
  apply Bool.orb_false_elim in H. destruct H as [H1 H2].
  cbn [append Regex.lazy_dots].
  rewrite (atoms_literal_fails lit k _ H1), (inline_dot c _ Ic).
  exact (IH Im H2).
Qed.

Lemma search_lsd_marked (page pre mid value post : string) :
  lsd_marked page pre mid value post -> Regex.search Regex.lsd page = Some value.
Proof.
  intros (-> & F & I & G & P).
  rewrite (search_skips Regex.lsd "LSD" (Regex.LazyDots :: Regex.literal (js "token':'"))
             pre _ eq_refl F).
  apply search_here. unfold Regex.match_at.
  change (Regex.before Regex.lsd)
    with (Regex.literal "LSD" ++ Regex.LazyDots :: Regex.literal (js "token':'"))%list.
  rewrite atoms_literal_then, atoms_literal. cbn [Regex.atoms].
  rewrite (lazy_dots_skips _ _ mid _ I G).
  apply lazy_dots_here. rewrite atoms_literal.
  exact (lazy_group_takes value post EmptyString P).
Qed.

(** X3.  What [init] stores, read off the text of the page.  For each of
    [abra_csrf], [_js_datr] and [datr] it takes the first place where the
    marker stands and the characters from there to the next double quote;
    for [lsd] it takes the first LSD, on the same line the first token
    marker after it, and the characters from there to the next double quote.
    Later markers of the same kind are not read. *)
Theorem init_takes_the_first_markers
    (env : Env) (w : World) (page : string)
    (a_pre abra_csrf a_post j_pre _js_datr j_post d_pre datr d_post : string)
    (l_pre l_mid lsd l_post : string) :
  http env init_request = Resolved {| status := 200; data := VString page |} ->
  marked (js "abra_csrf':{'value':'") page a_pre abra_csrf a_post ->
  marked (js "_js_datr':{'value':'") page j_pre _js_datr j_post ->
  marked (js "datr':{'value':'") page d_pre datr d_post ->
  lsd_marked page l_pre l_mid lsd l_post ->
  init env w
  = (Normal true,
     with_self (set_lsd lsd (set_cookies (cookie_string _js_datr abra_csrf datr lsd)
                               (self w)))
       (logged w init_request)).
Proof.
  intros A Ma Mj Md Ml.
  rewrite init_cases, A. cbn [status data negb Z.eqb Pos.eqb].
  unfold page_groups.
  rewrite (search_marked Regex.abra_csrf _ _ _ _ _ eq_refl eq_refl Ma).
  rewrite (search_marked Regex._js_datr _ _ _ _ _ eq_refl eq_refl Mj).
  rewrite (search_marked Regex.datr _ _ _ _ _ eq_refl eq_refl Md).
  now rewrite (search_lsd_marked _ _ _ _ _ Ml).
Qed.

Lemma init_takes_the_first_markers_witness :
  init repeated_markers (fresh "c0ffee")
  = (Normal true,
     with_self (set_lsd "L1" (set_cookies "_js_datr=J1; abra_csrf=A1; datr=D1; lsd=L1"
                                (self (fresh "c0ffee"))))
       (logged (fresh "c0ffee") init_request)).
Proof.
  refine (init_takes_the_first_markers repeated_markers (fresh "c0ffee") page_with_repeats
            (js "{'") "A1"
            (js "},'datr':{'value':'D1'},'_js_datr':{'value':'J1'},'abra_csrf':{'value':'A2'}} ['LSD',[],{'token':'L1'}] ['LSD',[],{'token':'L2'}]")
            (js "{'abra_csrf':{'value':'A1'},'datr':{'value':'D1'},'") "J1"
            (js "},'abra_csrf':{'value':'A2'}} ['LSD',[],{'token':'L1'}] ['LSD',[],{'token':'L2'}]")
            (js "{'abra_csrf':{'value':'A1'},'") "D1"
            (js "},'_js_datr':{'value':'J1'},'abra_csrf':{'value':'A2'}} ['LSD',[],{'token':'L1'}] ['LSD',[],{'token':'L2'}]")
            (js "{'abra_csrf':{'value':'A1'},'datr':{'value':'D1'},'_js_datr':{'value':'J1'},'abra_csrf':{'value':'A2'}} ['")
            (js "',[],{'") "L1"
            (js "}] ['LSD',[],{'token':'L2'}]")
            eq_refl _ _ _ _);
    repeat split; reflexivity.
Defined.

(** ** What [set_access_token] stores *)

Lemma get_of_nullish (v : Value) (k : Key) :
  nullish v = true -> get v k = Throw TypeError.
Proof. destruct v; try discriminate; reflexivity. Qed.

Lemma get_of_other (v : Value) (k : Key) :
  nullish v = false -> exists x, get v k = Normal x.
Proof.
  destruct v; try discriminate; intros _; cbn [get]; try (now eexists).
  - destruct k; now eexists.
  - destruct (own _ _); now eexists.
Qed.

Lemma path_snoc (ks : list Key) (k : Key) (v : Value) :
  path v (ks ++ [k]) = cbind (path v ks) (fun x => get x k).
Proof.
  revert v. induction ks as [|k' ks IH]; intro v; cbn [app path cbind].
  - destruct (get v k); reflexivity.
  - destruct (get v k') as [x| |]; cbn [cbind]; [apply IH | reflexivity | reflexivity].
Qed.

(** X4.  When the token exchange is answered with status 200 and the body
    holds a value other than [null] and [undefined] at
    [data.xab_abra_accept_terms_of_service.new_temp_user_auth],
    [set_access_token] returns [true] and stores the [access_token] of that
    value as it is ([undefined] when an object has none), leaving the other
    four fields as they were.  Its one request is a POST that carries [lsd]
    as a field of the body and as the header [x-fb-lsd], and [cookies] as
    the header [cookie]. *)
Theorem set_access_token_stores_what_it_reads
    (env : Env) (w : World) (response : Response) (auth : Value) :
  http env (token_request (self w)) = Resolved response ->
  status response = 200%Z ->
  path (data response) [Kdata; Kxab_abra_accept_terms_of_service; Knew_temp_user_auth]
  = Normal auth ->
  nullish auth = false ->
  exists token,
    get auth Kaccess_token = Normal token
    /\ (forall members,
           auth = VObject members ->
           token = match own members "access_token" with
                   | Some x => x
                   | None => VUndefined
                   end)
    /\ set_access_token env w
       = (Normal true,
          {| self := {| access_token := token;
                        cookies := cookies (self w);
                        lsd := lsd (self w);
                        conversation_id := conversation_id (self w);
                        last_fetch_id := last_fetch_id (self w) |};
             sent := (sent w ++ [token_request (self w)])%list;
             draws := draws w |})
    /\ method (token_request (self w)) = "POST"
    /\ url (token_request (self w)) = "https://www.meta.ai/api/graphql/"
    /\ In ("x-fb-lsd", lsd (self w)) (headers (token_request (self w)))
    /\ In ("cookie", cookies (self w)) (headers (token_request (self w)))
    /\ body (token_request (self w))
       = Some ("lsd=" ++ URLSearchParams.encode (lsd (self w))
               ++ "&variables=%7B%22dob%22%3A%221997-01-01%22%2C%22icebreaker_type%22%3A%22TEXT%22%2C%22__relay_internal__pv__WebPixelRatiorelayprovider%22%3A1%7D&server_timestamps=true&doc_id=7604648749596940").
Proof.
  intros A S P N.
  destruct (get_of_other auth Kaccess_token N) as (token & G).
  exists token. split; [exact G|]. split; [|split; [|split; [|split; [|split; [|split]]]]].
  - intros members ->. cbn [get key_name] in G.
    destruct (own members "access_token"); congruence.
  - rewrite set_access_token_cases. cbv zeta. rewrite A.
    apply status_200 in S. rewrite S.
    change [Kdata; Kxab_abra_accept_terms_of_service; Knew_temp_user_auth; Kaccess_token]
      with ([Kdata; Kxab_abra_accept_terms_of_service; Knew_temp_user_auth]
            ++ [Kaccess_token])%list.
    rewrite path_snoc, P. cbn [cbind]. rewrite G. reflexivity.
  - reflexivity.
  - reflexivity.
  - cbn [token_request headers token_headers In]. auto.
  - cbn [token_request headers token_headers In]. do 12 right. now left.
  - cbn [token_request body]. unfold URLSearchParams.toString, token_body.
    cbn [map fst snd JsString.join].
    generalize (URLSearchParams.encode (lsd (self w))). intro l. reflexivity.
Qed.

Lemma set_access_token_stores_what_it_reads_witness :
  access_token (self (snd (set_access_token streaming (fresh "c0ffee")))) = VString "TOK".
Proof.
  destruct (set_access_token_stores_what_it_reads streaming (fresh "c0ffee")
              {| status := 200; data := token_answer |}
              (VObject [("access_token", VString "TOK")])
              eq_refl eq_refl eq_refl eq_refl)
    as (token & G & _ & R & _).
  rewrite R. cbn [snd self access_token]. cbn in G. congruence.
Defined.

(** ** The requests of [prompt] *)

(** The guards of [prompt], request by request. *)
Lemma ensure_cookies_trace (env : Env) (w : World) (r : Completion bool) (w1 : World) :
  ensure_cookies env w = (r, w1) ->
  (cookies (self w) <> EmptyString /\ r = Normal true /\ w1 = w)
  \/ (cookies (self w) = EmptyString
      /\ sent w1 = (sent w ++ [init_request])%list
      /\ draws w1 = draws w
      /\ (r = Normal true -> accepted env init_request)).
Proof.
  rewrite ensure_cookies_cases.
  destruct (String.eqb_spec (cookies (self w)) EmptyString) as [C|C].
  - rewrite init_cases. intro H. right. split; [exact C|].
    destruct (http env init_request) as [response|] eqn:A.
    + destruct (negb (status response =? 200)%Z) eqn:S.
      * inversion H; subst. repeat split. discriminate.
      * apply status_200 in S.
        destruct (page_groups (data response)) as [[[[a j] t] l]|];
          inversion H; subst; repeat split; try discriminate.
        intros _. now exists response.
    + inversion H; subst. repeat split. discriminate.
  - intro H. inversion H; subst. now left.
Qed.

Lemma ensure_access_token_trace (env : Env) (w : World) (r : Completion bool) (w1 : World) :
  ensure_access_token env w = (r, w1) ->
  (loosely_empty (number_text env) (access_token (self w)) = Normal false
   /\ r = Normal true /\ w1 = w)
  \/ (w1 = w /\ exists e, r = Throw e)
  \/ (loosely_empty (number_text env) (access_token (self w)) = Normal true
      /\ sent w1 = (sent w ++ [token_request (self w)])%list
      /\ draws w1 = draws w
      /\ cookies (self w1) = cookies (self w)
      /\ lsd (self w1) = lsd (self w)
      /\ conversation_id (self w1) = conversation_id (self w)
      /\ (r = Normal true -> accepted env (token_request (self w)))).
Proof.
  rewrite ensure_access_token_cases.
  pose proof (loosely_empty_total (number_text env) (access_token (self w))) as T.
  destruct (loosely_empty _ _) as [[|]|e|]; [| | |contradiction].
  - rewrite set_access_token_cases. cbv zeta. intro H. right; right.
    split; [reflexivity|].
    destruct (http env (token_request (self w))) as [response|] eqn:A.
    + destruct (negb (status response =? 200)%Z) eqn:S.
      * inversion H; subst. repeat split. discriminate.
      * apply status_200 in S.
        destruct (path _ _); inversion H; subst; repeat split; try discriminate.
        intros _. now exists response.
    + inversion H; subst. repeat split. discriminate.
  - intro H. inversion H; subst. now left.
  - intro H. inversion H; subst. right; left. split; [reflexivity|]. now exists e.
Qed.

Lemma send_message_trace (message : string) (env : Env) (w : World)
    (r : Completion Value) (w' : World) :
  send_message message env w = (r, w') ->
  cookies (self w') = cookies (self w)
  /\ lsd (self w') = lsd (self w)
  /\ access_token (self w') = access_token (self w)
  /\ conversation_id (self w') = conversation_id (self w)
  /\ ((sent w' = sent w /\ (r = OutOfFuel \/ exists e, r = Throw e))
      \/ exists threading_id drawn token,
          threadingID_loop (random_index env) (loop_bound env) (draws w)
          = Some (threading_id, drawn)
          /\ to_string (number_text env) (access_token (self w)) = Normal token
          /\ sent w' = (sent w ++ [chat_request (self w) message threading_id token])%list).
Proof.
  unfold send_message. cbv zeta.
  destruct (threadingID_loop _ _ _) as [[threading_id drawn]|] eqn:Loop.
  2:{ intro H; inversion H; subst. repeat split. left. auto. }
  destruct (to_string _ _) as [token|e|] eqn:T.
  2:{ intro H; inversion H; subst. repeat split. left. split; [reflexivity|].
      right. now exists e. }
  2:{ intro H; inversion H; subst. repeat split. left. auto. }
  intro H.
  assert (S : sent w' = (sent w ++ [chat_request (self w) message threading_id token])%list
              /\ cookies (self w') = cookies (self w)
              /\ lsd (self w') = lsd (self w)
              /\ access_token (self w') = access_token (self w)
              /\ conversation_id (self w') = conversation_id (self w)).
  { destruct (http env _) as [response|].
    - destruct (negb _); [inversion H; subst; now repeat split|].
      destruct (read_reply _) as [[v f]|e|]; inversion H; subst; now repeat split.
    - inversion H; subst; now repeat split. }
  destruct S as (S & C & L & A & I). repeat split; try assumption.
  right. now exists threading_id, drawn, token.
Qed.

(** The requests of a call of [prompt], guard by guard. *)
Lemma prompt_trace (message : string) (env : Env) (w : World)
    (r : Completion Value) (w' : World) :
  prompt message env w = (r, w') ->
  exists l1 l2 l3,
    sent w' = (sent w ++ l1 ++ l2 ++ l3)%list
    /\ (l1 = [] \/ l1 = [init_request])
    /\ (l2 = [] \/ exists o, l2 = [token_request o])
    /\ (l3 = []
        \/ exists o threading_id token drawn,
            l3 = [chat_request o message threading_id token]
            /\ conversation_id o = conversation_id (self w)
            /\ cookies o = cookies (self w')
            /\ lsd o = lsd (self w')
            /\ to_string (number_text env) (access_token (self w')) = Normal token
            /\ threadingID_loop (random_index env) (loop_bound env) (draws w)
               = Some (threading_id, drawn)).
Proof.
  intro H. rewrite prompt_cases in H.
  destruct (ensure_cookies env w) as [r1 w1] eqn:E1.
  pose proof (ensure_cookies_summary _ _ _ _ E1) as (D1 & C1 & _).
  apply ensure_cookies_trace in E1.
  assert (G1 : exists l1, sent w1 = (sent w ++ l1)%list /\ (l1 = [] \/ l1 = [init_request])).
  { destruct E1 as [(_ & _ & ->) | (_ & S & _)].
    - exists []. rewrite app_nil_r. auto.
    - exists [init_request]. auto. }
  destruct G1 as (l1 & S1 & F1).
  destruct r1 as [[|]|e|].
  2-4: inversion H; subst; exists l1, [], []; rewrite !app_nil_r;
       (split; [assumption|]); auto.
  destruct (ensure_access_token env w1) as [r2 w2] eqn:E2.
  pose proof (ensure_access_token_summary _ _ _ _ E2) as (D2 & C2 & _).
  apply ensure_access_token_trace in E2.
  assert (G2 : exists l2, sent w2 = (sent w1 ++ l2)%list
                          /\ (l2 = [] \/ exists o, l2 = [token_request o])).
  { destruct E2 as [(_ & _ & ->) | [(-> & _) | (_ & S & _)]].
    - exists []. rewrite app_nil_r. auto.
    - exists []. rewrite app_nil_r. auto.
    - exists [token_request (self w1)]. split; [exact S|]. right. now eexists. }
  destruct G2 as (l2 & S2 & F2).
  destruct r2 as [[|]|e|].
  2-4: inversion H; subst; exists l1, l2, []; rewrite !app_nil_r;
       (split; [rewrite S2, S1; now rewrite app_assoc|]); auto.
  apply send_message_trace in H.
  destruct H as (K3 & L3 & A3 & C3 & [(S3 & _) | (tid & drawn & tok & Loop & T & S3)]).
  - exists l1, l2, []. rewrite !app_nil_r.
    split; [rewrite S3, S2, S1; now rewrite app_assoc|]. auto.
  - exists l1, l2, [chat_request (self w2) message tid tok].
    split; [rewrite S3, S2, S1; now rewrite <- !app_assoc|].
    split; [exact F1|]. split; [exact F2|].
    right. exists (self w2), tid, tok, drawn. repeat split; try congruence.
Qed.

(** X5.  A call of [prompt] sends at most one request to each of the three
    endpoints, in the order landing page, token exchange, chat; and it sends
    a request only when every request it sent before was answered with
    status 200. *)
Theorem prompt_sends_in_order
    (message : string) (env : Env) (w : World) (r : Completion Value) (w' : World) :
  prompt message env w = (r, w') ->
  subsequence (map url (new_requests w w')) endpoints = true
  /\ Forall (accepted env) (removelast (new_requests w w')).
Proof.
  intro H. split.
  - apply prompt_trace in H.
    destruct H as (l1 & l2 & l3 & N & F1 & F2 & F3).
    rewrite (new_requests_of _ _ _ N).
    destruct F1 as [-> | ->], F2 as [-> | (o & ->)],
             F3 as [-> | (o' & tid & tok & drawn & -> & _)];
      reflexivity.
  - apply prompt_summary in H.
    destruct H as (_ & lazy & o & Acc & _ & _ & _ & _ & Cases).
    destruct Cases as [(-> & _) | [(q & -> & _) | (q & response & -> & _)]].
    + clear - Acc. induction Acc as [|x l Hx Hl IH]; [constructor|].
      destruct l; [constructor|]. cbn [removelast]. constructor; [exact Hx | exact IH].
    + now rewrite removelast_last.
    + now rewrite removelast_last.
Qed.

Lemma prompt_sends_in_order_witness :
  map url (new_requests (fresh "c0ffee") (snd (prompt "hi" chat_refused (fresh "c0ffee"))))
  = endpoints
  /\ Forall (accepted chat_refused)
       (removelast (new_requests (fresh "c0ffee")
                      (snd (prompt "hi" chat_refused (fresh "c0ffee"))))).
Proof.
  split; [reflexivity|].
  exact (proj2 (prompt_sends_in_order "hi" chat_refused (fresh "c0ffee")
                  (fst (prompt "hi" chat_refused (fresh "c0ffee")))
                  (snd (prompt "hi" chat_refused (fresh "c0ffee"))) eq_refl)).
Defined.

(** X6.  The first [prompt] on a new client, when the landing page and the
    token exchange are answered with status 200 and hold what is read from
    them, sends three requests: the landing page, the token exchange built
    from the cookies and the [lsd] token of that page, and the chat request
    built from those and from the token just received. *)
Theorem first_prompt_sends_three_requests
    (message : string) (env : Env) (uuid page abra_csrf _js_datr datr lsd : string)
    (answer token : Value) (token_text threading_id : string) (drawn : nat) :
  let o1 := {| access_token := VString EmptyString;
               cookies := cookie_string _js_datr abra_csrf datr lsd;
               lsd := lsd;
               conversation_id := uuid;
               last_fetch_id := VString EmptyString |} in
  let o2 := {| access_token := token;
               cookies := cookie_string _js_datr abra_csrf datr lsd;
               lsd := lsd;
               conversation_id := uuid;
               last_fetch_id := VString EmptyString |} in
  http env init_request = Resolved {| status := 200; data := VString page |} ->
  page_groups (VString page) = Some (abra_csrf, _js_datr, datr, lsd) ->
  http env (token_request o1) = Resolved {| status := 200; data := answer |} ->
  path answer [Kdata; Kxab_abra_accept_terms_of_service; Knew_temp_user_auth; Kaccess_token]
  = Normal token ->
  to_string (number_text env) token = Normal token_text ->
  threadingID_loop (random_index env) (loop_bound env) 0 = Some (threading_id, drawn) ->
  sent (snd (prompt message env (fresh uuid)))
  = [init_request; token_request o1; chat_request o2 message threading_id token_text].
Proof.
  intros o1 o2 A1 G A2 P T Loop.
  rewrite prompt_cases, ensure_cookies_cases.
  change (cookies (self (fresh uuid))) with EmptyString. cbn [String.eqb].
  rewrite init_cases, A1. cbn [status data negb Z.eqb Pos.eqb]. rewrite G.
  change (set_lsd lsd (set_cookies (cookie_string _js_datr abra_csrf datr lsd)
                         (self (fresh uuid)))) with o1.
  rewrite ensure_access_token_cases.
  change (access_token (self (with_self o1 (logged (fresh uuid) init_request))))
    with (VString EmptyString).
  cbn [loosely_empty String.eqb].
  rewrite set_access_token_cases. cbv zeta.
  change (self (with_self o1 (logged (fresh uuid) init_request))) with o1.
  rewrite A2. cbn [status data negb Z.eqb Pos.eqb]. rewrite P.
  change (set_token token o1) with o2.
  unfold send_message. cbv zeta.
  set (w2 := with_self o2 _).
  change (draws w2) with 0. change (self w2) with o2.
  rewrite Loop. change (access_token o2) with token. rewrite T.
  destruct (http env (chat_request o2 message threading_id token_text)) as [response|];
    [|reflexivity].
  destruct (negb _); [reflexivity|].
  destruct (read_reply _) as [[v f]|e|]; reflexivity.
Qed.

Lemma first_prompt_sends_three_requests_witness :
  map url (sent (snd (prompt "hi" streaming (fresh "c0ffee")))) = endpoints.
Proof.
  rewrite (first_prompt_sends_three_requests "hi" streaming "c0ffee" landing_page
             "AAA" "JJJ" "DDD" "LLL" token_answer (VString "TOK") "TOK"
             "1111111111111111111" 19
             eq_refl eq_refl eq_refl eq_refl eq_refl eq_refl).
  reflexivity.
Defined.

(** X7.  With cookies there and an [access_token] that is not loosely equal
    to the empty string, [prompt] asks for neither again: it sends the chat
    request alone, built from the session as it is, and leaves [cookies],
    [lsd] and [access_token] as they were.  (It sends nothing when the loop
    of [threadingID] uses up its bound or [access_token] has no string
    conversion.) *)
Theorem prompt_with_session_sends_chat_only
    (message : string) (env : Env) (w : World) (r : Completion Value) (w' : World) :
  cookies (self w) <> EmptyString ->
  loosely_empty (number_text env) (access_token (self w)) = Normal false ->
  prompt message env w = (r, w') ->
  cookies (self w') = cookies (self w)
  /\ lsd (self w') = lsd (self w)
  /\ access_token (self w') = access_token (self w)
  /\ ((exists threading_id drawn token,
          threadingID_loop (random_index env) (loop_bound env) (draws w)
          = Some (threading_id, drawn)
          /\ to_string (number_text env) (access_token (self w)) = Normal token
          /\ new_requests w w' = [chat_request (self w) message threading_id token])
      \/ (new_requests w w' = [] /\ (r = OutOfFuel \/ exists e, r = Throw e))).
Proof.
  intros C T H. rewrite prompt_cases, ensure_cookies_cases in H.
  apply String.eqb_neq in C. rewrite C in H.
  rewrite ensure_access_token_cases, T in H.
  apply send_message_trace in H.
  destruct H as (K & L & A & _ & [(S & R) | (tid & drawn & tok & Loop & Tok & S)]).
  - repeat split; try assumption. right. split; [|exact R].
    apply new_requests_of. now rewrite app_nil_r.
  - repeat split; try assumption. left. exists tid, drawn, tok.
    repeat split; try assumption. now apply new_requests_of.
Qed.

Lemma prompt_with_session_sends_chat_only_witness :
  access_token (self (snd (prompt "again" streaming ready))) = VString "TOK".
Proof.
  exact (proj1 (proj2 (proj2
           (prompt_with_session_sends_chat_only "again" streaming ready
              (fst (prompt "again" streaming ready)) (snd (prompt "again" streaming ready))
              ltac:(discriminate) eq_refl eq_refl)))).
Defined.

(** X8.  A [prompt] that was refused at the token exchange has kept the
    cookies it had or took from the landing page: the session holds cookies
    and the [access_token] it held before, and the next [prompt] (numbers
    being rendered as before) asks for the landing page no more; its first
    request is the token exchange, and the chat request alone can follow
    it. *)
Theorem prompt_resumes_at_the_token_exchange
    (message : string) (env : Env) (w : World) (r : Completion Value) (w1 : World)
    (request : Request) :
  prompt message env w = (r, w1) ->
  In request (new_requests w w1) -> url request = token_url -> refused env request ->
  r = Normal (VBool false)
  /\ cookies (self w1) <> EmptyString
  /\ access_token (self w1) = access_token (self w)
  /\ forall message2 env2 r2 w2,
      number_text env2 = number_text env ->
      prompt message2 env2 w1 = (r2, w2) ->
      exists rest,
        new_requests w1 w2 = token_request (self w1) :: rest
        /\ List.length rest <= 1
        /\ Forall (fun q => url q = chat_url) rest.
Proof.
  intros H I U Rf.
  destruct (prompt_refused _ _ _ _ _ _ H I Rf) as (R & _).
  split; [exact R|].
  rewrite prompt_cases in H.
  destruct (ensure_cookies env w) as [r1 w1'] eqn:E1.
  pose proof (ensure_cookies_summary _ _ _ _ E1) as (_ & _ & _ & T1 & l1 & S1 & _ & G1).
  apply ensure_cookies_trace in E1.
  assert (L1 : l1 = [] \/ l1 = [init_request]).
  { destruct E1 as [(_ & _ & ->) | (_ & S & _)].
    - left. apply (app_inv_head (sent w)). now rewrite app_nil_r.
    - right. apply (app_inv_head (sent w)). congruence. }
  assert (N1 : ~ In request l1).
  { intro In1. destruct L1 as [-> | ->]; [contradiction|].
    destruct In1 as [<-|[]]. discriminate U. }
  destruct r1 as [[|]|e|].
  2-4: inversion H; subst; rewrite (new_requests_of _ _ _ S1) in I; contradiction.
  destruct G1 as [(_ & K1 & _) | (_ & q & _ & [(_ & ?) | [(_ & ?) | (_ & e & ?)]])];
    try discriminate.
  destruct (ensure_access_token env w1') as [r2 w2'] eqn:E2.
  pose proof E2 as E2'.
  apply ensure_access_token_trace in E2.
  destruct E2 as [(_ & -> & ->) | [(-> & e & ->) | (Empty & S2 & _ & K2 & _ & _ & Acc2)]].
  - exfalso. apply send_message_trace in H.
    destruct H as (_ & _ & _ & _ & [(S3 & _) | (tid & drawn & tok & _ & _ & S3)]).
    + rewrite (new_requests_of w w1 l1) in I by congruence. contradiction.
    + rewrite (new_requests_of w w1 (l1 ++ [chat_request (self w1') message tid tok])) in I
        by (rewrite S3, S1; now rewrite app_assoc).
      apply in_app_or in I. destruct I as [I|[<-|[]]]; [contradiction | discriminate U].
  - exfalso. inversion H; subst.
    rewrite (new_requests_of _ _ _ S1) in I. contradiction.
  - assert (Stop : r2 <> Normal true /\ w1 = w2').
    { destruct r2 as [[|]|e|]; try (inversion H; subst; split; [discriminate | reflexivity]).
      exfalso. specialize (Acc2 eq_refl).
      apply send_message_trace in H.
      destruct H as (_ & _ & _ & _ & [(S3 & _) | (tid & drawn & tok & _ & _ & S3)]).
      - rewrite (new_requests_of w w1 (l1 ++ [token_request (self w1')])) in I
          by (rewrite S3, S2, S1; now rewrite app_assoc).
        apply in_app_or in I. destruct I as [I|[<-|[]]]; [contradiction|].
        exact (refused_not_accepted _ _ Rf Acc2).
      - rewrite (new_requests_of w w1 (l1 ++ [token_request (self w1')]
                                       ++ [chat_request (self w2') message tid tok])) in I
          by (rewrite S3, S2, S1; now rewrite <- !app_assoc).
        apply in_app_or in I. destruct I as [I|I]; [contradiction|].
        destruct I as [<-|[<-|[]]]; [|discriminate U].
        exact (refused_not_accepted _ _ Rf Acc2). }
    destruct Stop as [NotTrue <-].
    assert (Same : self w1 = self w1').
    { rewrite ensure_access_token_cases, Empty, set_access_token_cases in E2'.
      cbv zeta in E2'.
      destruct (http env (token_request (self w1'))) as [x|]; [|now inversion E2'].
      destruct (negb _); [now inversion E2'|].
      destruct (path _ _); inversion E2'; subst; try reflexivity.
      now contradiction NotTrue. }
    split; [now rewrite Same|]. split; [now rewrite Same|].
    intros message2 env2 r2' w2 NT H2.
    rewrite <- Same in Empty, K1.
    rewrite prompt_cases, ensure_cookies_cases in H2.
    apply String.eqb_neq in K1. rewrite K1 in H2.
    rewrite ensure_access_token_cases, NT, Empty in H2.
    assert (S3 : exists r3 w3,
               set_access_token env2 w1 = (r3, w3)
               /\ sent w3 = (sent w1 ++ [token_request (self w1)])%list).
    { rewrite set_access_token_cases. cbv zeta.
      destruct (http env2 (token_request (self w1))) as [x|]; [|now eexists; eexists].
      destruct (negb _); [now eexists; eexists|].
      destruct (path _ _); now eexists; eexists. }
    destruct S3 as (r3 & w3 & E3 & S3). rewrite E3 in H2.
    destruct r3 as [[|]|e|].
    2-4: inversion H2; subst; exists [];
         (split; [now apply new_requests_of | split; [cbn; lia | constructor]]).
    apply send_message_trace in H2.
    destruct H2 as (_ & _ & _ & _ & [(S4 & _) | (tid & drawn & tok & _ & _ & S4)]).
    + exists []. split; [apply new_requests_of; congruence|].
      split; [cbn; lia | constructor].
    + exists [chat_request (self w3) message2 tid tok]. split.
      * apply new_requests_of. rewrite S4, S3. now rewrite <- app_assoc.
      * split; [cbn; lia|]. constructor; [reflexivity | constructor].
Qed.

Lemma prompt_resumes_at_the_token_exchange_witness :
  cookies (self (snd (prompt "hi" token_refused (fresh "c0ffee")))) <> EmptyString.
Proof.
  refine (proj1 (proj2
            (prompt_resumes_at_the_token_exchange "hi" token_refused (fresh "c0ffee")
               (fst (prompt "hi" token_refused (fresh "c0ffee")))
               (snd (prompt "hi" token_refused (fresh "c0ffee")))
               (token_request (self (snd (prompt "hi" token_refused (fresh "c0ffee")))))
               eq_refl _ eq_refl _))).
  - vm_compute. right. left. reflexivity.
  - exists {| status := 403; data := VString "Forbidden" |}.
    split; [reflexivity | discriminate].
Defined.

Lemma init_request_sends_no_message : ~ sends_message init_request.
Proof.
  unfold sends_message. cbn [headers init_request init_headers In].
  intros [E|[E|[E|[E|[]]]]]; discriminate E.
Qed.

Lemma token_request_sends_no_message (o : MetaAI) : ~ sends_message (token_request o).
Proof.
  unfold sends_message. cbn [headers token_request token_headers In].
  intro H. repeat (destruct H as [H|H]; [discriminate H|]). exact H.
Qed.

Lemma sources_request_sends_no_message (o : MetaAI) (id token : string) :
  ~ sends_message (sources_request o id token).
Proof.
  unfold sends_message. cbn [headers sources_request chat_headers In].
  intro H. repeat (destruct H as [H|H]; [discriminate H|]). exact H.
Qed.

Lemma chat_request_of (o o' : MetaAI) (message threading_id token : string) :
  cookies o = cookies o' -> lsd o = lsd o' -> conversation_id o = conversation_id o' ->
  chat_request o message threading_id token = chat_request o' message threading_id token.
Proof. unfold chat_request, chat_headers. now intros -> -> ->. Qed.

(** X9.  The chat request of a call of [prompt] is built from the session as
    the call leaves it: the cookies, the [lsd] token, the conversation
    identifier, the [access_token] as a string, the message as it was given,
    and a threading identifier of nineteen decimal digits that starts with
    neither 0 nor 9 (every draw being an index into [characters]); no other
    request of the call bears the name of the chat mutation. *)
Theorem prompt_chat_request
    (message : string) (env : Env) (w : World) (r : Completion Value) (w' : World)
    (request : Request) :
  (forall k, random_index env k < 10) ->
  prompt message env w = (r, w') ->
  In request (new_requests w w') ->
  sends_message request ->
  exists threading_id token,
    request = chat_request (self w') message threading_id token
    /\ to_string (number_text env) (access_token (self w')) = Normal token
    /\ String.length threading_id = 19
    /\ JsString.all decimal_digit threading_id = true
    /\ rejected threading_id = false
    /\ exists earlier, new_requests w w' = (earlier ++ [request])%list.
Proof.
  intros Range H I M.
  pose proof (prompt_summary _ _ _ _ _ H) as (C & _).
  apply prompt_trace in H.
  destruct H as (l1 & l2 & l3 & N & F1 & F2 & F3).
  apply new_requests_of in N. rewrite N in I |- *.
  assert (Guards : forall q, In q (l1 ++ l2)%list -> ~ sends_message q).
  { intros q Iq. apply in_app_or in Iq.
    destruct Iq as [Iq|Iq]; [destruct F1 as [-> | ->] | destruct F2 as [-> | (o & ->)]];
      try contradiction; destruct Iq as [<-|[]].
    - apply init_request_sends_no_message.
    - apply token_request_sends_no_message. }
  rewrite app_assoc in I. apply in_app_or in I.
  destruct I as [I|I]; [now apply Guards in I|].
  destruct F3 as [-> | (o & tid & tok & drawn & -> & Co & K & L & T & Loop)];
    [contradiction|].
  destruct I as [<-|[]].
  exists tid, tok.
  apply (loop_first_accepted (random_index env)) in Loop.
  destruct Loop as (n & _ & _ & Acc & -> & _).
  split; [apply chat_request_of; congruence|]. split; [exact T|].
  split; [now apply sample_length|]. split; [now apply sample_digits|].
  split; [exact Acc|].
  exists (l1 ++ l2)%list. now rewrite app_assoc.
Qed.

Lemma prompt_chat_request_witness :
  exists threading_id token,
    chat_request (self ready) "again" "1111111111111111111" "TOK"
    = chat_request (self (snd (prompt "again" streaming ready))) "again" threading_id token
    /\ String.length threading_id = 19.
Proof.
  destruct (prompt_chat_request "again" streaming ready
              (fst (prompt "again" streaming ready)) (snd (prompt "again" streaming ready))
              (chat_request (self ready) "again" "1111111111111111111" "TOK")
              ltac:(intro; cbn; lia) eq_refl)
    as (tid & tok & E & _ & L & _).
  - vm_compute. now left.
  - unfold sends_message. cbn. repeat (try (left; reflexivity); right).
  - now exists tid, tok.
Defined.

(** ** The bodies of the requests *)

Lemma percent_encode_append (a b : string) :
  URLSearchParams.percent_encode (a ++ b)
  = URLSearchParams.percent_encode a ++ URLSearchParams.percent_encode b.
Proof.
  induction a as [|c a IH]; [reflexivity|].
  cbn [append URLSearchParams.percent_encode]. rewrite IH.
  destruct (URLSearchParams.unreserved c); [reflexivity|].
  destruct (Ascii.eqb c " "); reflexivity.
Qed.

Lemma percent_encode_one_no_separator (c : ascii) :
  JsString.all no_separator (URLSearchParams.percent_encode (str1 c)) = true.
Proof. destruct c as [[] [] [] [] [] [] [] []]; reflexivity. Qed.

Lemma percent_encode_no_separator (s : string) :
  JsString.all no_separator (URLSearchParams.percent_encode s) = true.
Proof.
  induction s as [|c s IH]; [reflexivity|].
  change (String c s) with (str1 c ++ s).
  now rewrite percent_encode_append, all_append, percent_encode_one_no_separator, IH.
Qed.

Lemma encode_no_separator (s : string) :
  JsString.all no_separator (URLSearchParams.encode s) = true.
Proof. unfold URLSearchParams.encode. apply percent_encode_no_separator. Qed.

Lemma split_piece (sep : ascii) (a b : string) :
  JsString.all (fun c => negb (Ascii.eqb c sep)) a = true ->
  JsString.split sep (a ++ String sep b) = a :: JsString.split sep b.
Proof.
  induction a as [|c a IH]; intro H.
  - cbn [append JsString.split]. now rewrite Ascii.eqb_refl.
  - cbn [JsString.all] in H. apply andb_prop in H. destruct H as [Hc Ha].
    cbn [append JsString.split]. apply Bool.negb_true_iff in Hc. rewrite Hc.
    now rewrite (IH Ha).
Qed.

Lemma split_last (sep : ascii) (a : string) :
  JsString.all (fun c => negb (Ascii.eqb c sep)) a = true ->
  JsString.split sep a = [a].
Proof.
  induction a as [|c a IH]; intro H; [reflexivity|].
  cbn [JsString.all] in H. apply andb_prop in H. destruct H as [Hc Ha].
  cbn [JsString.split]. apply Bool.negb_true_iff in Hc. rewrite Hc.
  now rewrite (IH Ha).
Qed.

Lemma all_weaken (p q : ascii -> bool) (s : string) :
  (forall c, p c = true -> q c = true) ->
  JsString.all p s = true -> JsString.all q s = true.
Proof.
  intro I. induction s as [|c s IH]; [reflexivity|].
  cbn [JsString.all]. intro H. apply andb_prop in H. destruct H as [Hc Hs].
  now rewrite (I c Hc), (IH Hs).
Qed.

Lemma field_no_ampersand (kv : string * string) :
  JsString.all (fun c => negb (Ascii.eqb c "&")) (field kv) = true.
Proof.
  unfold field. rewrite !all_append.
  rewrite (all_weaken no_separator _ (URLSearchParams.encode (fst kv))),
          (all_weaken no_separator _ (URLSearchParams.encode (snd kv)));
    try apply encode_no_separator; try reflexivity;
    intros c H; unfold no_separator in H; apply andb_prop in H; tauto.
Qed.

Lemma field_splits (k v : string) :
  JsString.split "=" (field (k, v)) = [URLSearchParams.encode k; URLSearchParams.encode v].
Proof.
  unfold field. cbn [fst snd append].
  rewrite split_piece, split_last; [reflexivity| |];
    refine (all_weaken no_separator _ _ _ (encode_no_separator _));
    intros c H; unfold no_separator in H; apply andb_prop in H; tauto.
Qed.

Lemma toString_splits (body : list (string * string)) :
  body <> [] ->
  JsString.split "&" (URLSearchParams.toString body) = map field body.
Proof.
  unfold URLSearchParams.toString. fold field.
  induction body as [|kv body IH]; [congruence|]. intros _.
  destruct body as [|kv' body].
  - cbn [map JsString.join]. apply split_last, field_no_ampersand.
  - change (JsString.join "&" (map field (kv :: kv' :: body)))
      with (field kv ++ String "&" (JsString.join "&" (map field (kv' :: body)))).
    rewrite split_piece by apply field_no_ampersand.
    rewrite IH by discriminate. reflexivity.
Qed.

Lemma unhex_hex_digits (c : ascii) :
  unhex (URLSearchParams.hex_digit (N_of_ascii c / 16))
        (URLSearchParams.hex_digit (N_of_ascii c mod 16)) = Some c.
Proof. destruct c as [[] [] [] [] [] [] [] []]; reflexivity. Qed.

Lemma percent_encode_injective (a b : string) :
  URLSearchParams.percent_encode a = URLSearchParams.percent_encode b -> a = b.
Proof.
  revert b. induction a as [|c a IH]; intros [|c' b]; cbn [URLSearchParams.percent_encode].
  - reflexivity.
  - destruct (URLSearchParams.unreserved c'); [discriminate|].
    destruct (Ascii.eqb c' " "); discriminate.
  - destruct (URLSearchParams.unreserved c); [discriminate|].
    destruct (Ascii.eqb c " "); discriminate.
  - destruct (URLSearchParams.unreserved c) eqn:U;
      destruct (URLSearchParams.unreserved c') eqn:U'.
    + intro E. inversion E; subst. f_equal. now apply IH.
    + destruct (Ascii.eqb c' " ");
        intro E; inversion E; subst; discriminate U.
    + destruct (Ascii.eqb c " ");
        intro E; inversion E; subst; discriminate U'.
    + destruct (Ascii.eqb_spec c " ") as [->|]; destruct (Ascii.eqb_spec c' " ") as [->|];
        intro E; inversion E; subst.
      * f_equal. now apply IH.
      * f_equal; [|now apply IH].
        pose proof (unhex_hex_digits c) as R. pose proof (unhex_hex_digits c') as R'.
        congruence.
Qed.

(** The conversion to scalar values leaves a text without surrogates as it
    is. *)
Lemma USVString_scalar (s : string) :
  scalar s = true -> URLSearchParams.USVString s = s.
Proof.
  induction s as [|b1 s1 IH]; [reflexivity|].
  destruct s1 as [|b2 [|b3 s3]]; [reflexivity | reflexivity |].
  intro H.
  change (scalar (String b1 (String b2 (String b3 s3))))
    with (negb (URLSearchParams.surrogate b1 b2 b3) && scalar (String b2 (String b3 s3))) in H.
  apply andb_prop in H. destruct H as [N S].
  apply Bool.negb_true_iff in N.
  change (URLSearchParams.USVString (String b1 (String b2 (String b3 s3))))
    with (if URLSearchParams.surrogate b1 b2 b3
          then match s3 with
               | String c1 (String c2 (String c3 s6)) =>
                   if URLSearchParams.surrogate c1 c2 c3
                      && JSON.high_surrogate (URLSearchParams.unit16 b2 b3)
                      && JSON.low_surrogate (URLSearchParams.unit16 c2 c3)
                   then JSON.utf8 (65536 + (URLSearchParams.unit16 b2 b3 - 55296) * 1024
                                   + (URLSearchParams.unit16 c2 c3 - 56320))
                        ++ URLSearchParams.USVString s6
                   else URLSearchParams.replacement ++ URLSearchParams.USVString s3
               | _ => URLSearchParams.replacement ++ URLSearchParams.USVString s3
               end
          else String b1 (URLSearchParams.USVString (String b2 (String b3 s3)))).
  rewrite N. f_equal. exact (IH S).
Qed.

(** A surrogate on its own is sent as U+FFFD. *)
Lemma encode_lone_surrogate (b2 b3 : ascii) :
  URLSearchParams.surrogate "237" b2 b3 = true ->
  URLSearchParams.encode (String "237" (String b2 (str1 b3))) = "%EF%BF%BD".
Proof.
  intro H. unfold URLSearchParams.encode, str1.
  change (URLSearchParams.USVString (String "237" (String b2 (String b3 EmptyString))))
    with (if URLSearchParams.surrogate "237" b2 b3
          then URLSearchParams.replacement ++ EmptyString
          else String "237" (URLSearchParams.USVString (String b2 (String b3 EmptyString)))).
  rewrite H. reflexivity.
Qed.

Lemma prompt_body_fields (token lsd variables : string) :
  map field (prompt_body token lsd variables)
  = [ "access_token=" ++ URLSearchParams.encode token;
      "dpr=1";
      "lsd=" ++ URLSearchParams.encode lsd;
      "jazoest=2925";
      "fb_api_caller_class=useAbraSendMessageMutation";
      "server_timestamps=true";
      "doc_id=7783822248314888";
      "variables=" ++ URLSearchParams.encode variables ].
Proof. reflexivity. Qed.

Lemma sources_body_fields (token lsd variables : string) :
  map field (sources_body token lsd variables)
  = [ "access_token=" ++ URLSearchParams.encode token;
      "av=0";
      "lsd=" ++ URLSearchParams.encode lsd;
      "dpr=1";
      "fbi_api_caller_class=RelayModern";
      "fbi_api_req_friendly_name=AbraSearchPluginDialogQuery";
      "server_timestamps=true";
      "doc_id=6946734308765963";
      "variables=" ++ URLSearchParams.encode variables ].
Proof. reflexivity. Qed.

(** X10.  Whatever the message, the token and the fetch identifier hold, the
    body of the chat request is made of its eight fields and the body of the
    lookup of its nine: split at the ampersand it gives back one piece for
    each field, in the order of the source, and a piece split at the equals
    sign gives its name and its encoded value.  Among the texts that hold no
    surrogate code unit an encoded value stands for one value only; a
    surrogate on its own is sent as U+FFFD, like that character itself. *)
Theorem request_bodies_keep_their_fields
    (o : MetaAI) (message threading_id fetch_id token : string) :
  (exists b,
      body (chat_request o message threading_id token) = Some b
      /\ JsString.split "&" b
         = [ "access_token=" ++ URLSearchParams.encode token;
             "dpr=1";
             "lsd=" ++ URLSearchParams.encode (lsd o);
             "jazoest=2925";
             "fb_api_caller_class=useAbraSendMessageMutation";
             "server_timestamps=true";
             "doc_id=7783822248314888";
             "variables=" ++ URLSearchParams.encode
                               (prompt_variables message (conversation_id o) threading_id) ])
  /\ (exists b,
         body (sources_request o fetch_id token) = Some b
         /\ JsString.split "&" b
            = [ "access_token=" ++ URLSearchParams.encode token;
                "av=0";
                "lsd=" ++ URLSearchParams.encode (lsd o);
                "dpr=1";
                "fbi_api_caller_class=RelayModern";
                "fbi_api_req_friendly_name=AbraSearchPluginDialogQuery";
                "server_timestamps=true";
                "doc_id=6946734308765963";
                "variables=" ++ URLSearchParams.encode (sources_variables fetch_id) ])
  /\ (forall name value,
         JsString.split "=" (URLSearchParams.encode name ++ "=" ++ URLSearchParams.encode value)
         = [URLSearchParams.encode name; URLSearchParams.encode value])
  /\ (forall value value',
         scalar value = true -> scalar value' = true ->
         URLSearchParams.encode value = URLSearchParams.encode value' -> value = value')
  /\ (forall b2 b3,
         URLSearchParams.surrogate "237" b2 b3 = true ->
         URLSearchParams.encode (String "237" (String b2 (str1 b3)))
         = URLSearchParams.encode (JSON.utf8 65533)).
Proof.
  split; [|split; [|split; [|split]]].
  - exists (URLSearchParams.toString
              (prompt_body token (lsd o)
                 (prompt_variables message (conversation_id o) threading_id))).
    split; [reflexivity|].
    rewrite toString_splits by discriminate. apply prompt_body_fields.
  - exists (URLSearchParams.toString
              (sources_body token (lsd o) (sources_variables fetch_id))).
    split; [reflexivity|].
    rewrite toString_splits by discriminate. apply sources_body_fields.
  - intros name value. exact (field_splits name value).
  - intros value value' S S' E. unfold URLSearchParams.encode in E.
    apply percent_encode_injective in E.
    now rewrite (USVString_scalar _ S), (USVString_scalar _ S') in E.
  - intros b2 b3 H. now rewrite (encode_lone_surrogate b2 b3 H).
Qed.

(** ** Lines that end with a carriage return *)

Lemma digits_cr (s : string) :
  JSON.digits (s ++ str1 cr) = (fst (JSON.digits s), snd (JSON.digits s) ++ str1 cr).
Proof.
  induction s as [|c s IH]; [reflexivity|].
  cbn [append JSON.digits]. destruct (JSON.is_digit c); [|reflexivity].
  rewrite IH. now destruct (JSON.digits s).
Qed.

Lemma scan_int_cr (s : string) : JSON.scan_int (s ++ str1 cr) = then_cr (JSON.scan_int s).
Proof.
  destruct s as [|c s]; [reflexivity|].
  cbn [append JSON.scan_int]. destruct (Ascii.eqb c "0"); [reflexivity|].
  destruct (JSON.is_digit c) eqn:D; [|reflexivity].
  change (String c (s ++ str1 cr)) with (String c s ++ str1 cr).
  rewrite digits_cr. now destruct (JSON.digits (String c s)).
Qed.

Lemma scan_frac_cr (s : string) : JSON.scan_frac (s ++ str1 cr) = then_cr (JSON.scan_frac s).
Proof.
  destruct s as [|c s]; [reflexivity|].
  cbn [append]. unfold JSON.scan_frac.
  destruct (Ascii.eqb_spec c ".") as [->|N].
  - rewrite digits_cr. destruct (JSON.digits s) as [[|d ds] r]; reflexivity.
  - destruct c as [[] [] [] [] [] [] [] []]; try reflexivity. now contradiction N.
Qed.

Lemma scan_exp_cr (s : string) : JSON.scan_exp (s ++ str1 cr) = then_cr (JSON.scan_exp s).
Proof.
  destruct s as [|c s]; [reflexivity|].
  cbn [append JSON.scan_exp].
  destruct (Ascii.eqb c "e" || Ascii.eqb c "E"); [|reflexivity].
  assert (Sg : JSON.scan_sign (s ++ str1 cr)
               = (fst (JSON.scan_sign s), snd (JSON.scan_sign s) ++ str1 cr)).
  { destruct s as [|x s]; [reflexivity|]. cbn [append JSON.scan_sign].
    destruct (Ascii.eqb x "+" || Ascii.eqb x "-"); reflexivity. }
  rewrite Sg. destruct (JSON.scan_sign s) as [sg s1]. cbn [fst snd].
  rewrite digits_cr. destruct (JSON.digits s1) as [[|d ds] r]; reflexivity.
Qed.

Lemma scan_number_cr (s : string) :
  JSON.scan_number (s ++ str1 cr) = then_cr (JSON.scan_number s).
Proof.
  assert (Body : forall minus s0,
             match JSON.scan_int (s0 ++ str1 cr) with
             | None => None
             | Some (i, s1) =>
                 match JSON.scan_frac s1 with
                 | None => None
                 | Some (f, s2) =>
                     match JSON.scan_exp s2 with
                     | None => None
                     | Some (e, s3) => Some (minus ++ i ++ f ++ e, s3)
                     end
                 end
             end
             = then_cr match JSON.scan_int s0 with
                       | None => None
                       | Some (i, s1) =>
                           match JSON.scan_frac s1 with
                           | None => None
                           | Some (f, s2) =>
                               match JSON.scan_exp s2 with
                               | None => None
                               | Some (e, s3) => Some (minus ++ i ++ f ++ e, s3)
                               end
                           end
                       end).
  { intros minus s0. rewrite scan_int_cr.
    destruct (JSON.scan_int s0) as [[i s1]|]; [|reflexivity]. cbn [then_cr].
    rewrite scan_frac_cr.
    destruct (JSON.scan_frac s1) as [[f s2]|]; [|reflexivity]. cbn [then_cr].
    rewrite scan_exp_cr.
    destruct (JSON.scan_exp s2) as [[e s3]|]; reflexivity. }
  unfold JSON.scan_number.
  destruct s as [|c s]; [reflexivity|]. cbn [append].
  destruct (Ascii.eqb_spec c "-") as [->|N].
  - exact (Body "-" s).
  - replace (match c with
             | "-"%char => ("-", s ++ str1 cr)
             | _ => (EmptyString, String c (s ++ str1 cr))
             end) with (EmptyString, String c (s ++ str1 cr)).
    2:{ destruct c as [[] [] [] [] [] [] [] []]; try reflexivity. now contradiction N. }
    replace (match c with
             | "-"%char => ("-", s)
             | _ => (EmptyString, String c s)
             end) with (EmptyString, String c s).
    2:{ destruct c as [[] [] [] [] [] [] [] []]; try reflexivity. now contradiction N. }
    exact (Body EmptyString (String c s)).
Qed.

Lemma more_then_cr (p : JSON.Piece) (r : option (list JSON.Piece * string)) :
  JSON.more p (pieces_then_cr r) = pieces_then_cr (JSON.more p r).
Proof. now destruct r as [[ps rest]|]. Qed.

Lemma scan_string_cr (n : nat) :
  forall s, String.length s <= n ->
  JSON.scan_string (s ++ str1 cr) = pieces_then_cr (JSON.scan_string s).
Proof.
  induction n as [|n IH]; intros s L.
  - destruct s; [reflexivity | simpl in L; lia].
  - destruct s as [|c s]; [reflexivity|].
    cbn [String.length] in L. cbn [append JSON.scan_string].
    destruct (Ascii.eqb c dquote); [reflexivity|].
    destruct (Ascii.eqb c backslash).
    + destruct s as [|e s]; [reflexivity|].
      cbn [String.length] in L. cbn [append].
      destruct (JSON.simple_escape e).
      * rewrite IH by lia. apply more_then_cr.
      * destruct (Ascii.eqb e "u"%char); [|reflexivity].
        destruct s as [|h1 [|h2 [|h3 [|h4 s]]]]; try reflexivity.
        -- cbn [append str1]. unfold JSON.hex4.
           destruct (JSON.hex h1), (JSON.hex h2), (JSON.hex h3); reflexivity.
        -- cbn [String.length] in L. cbn [append].
           destruct (JSON.hex4 h1 h2 h3 h4); [|reflexivity].
           rewrite IH by lia. apply more_then_cr.
    + destruct (N.ltb (JSON.code c) 32); [reflexivity|].
      rewrite IH by lia. apply more_then_cr.
Qed.

Lemma startsWith_cr (s lit : string) :
  JsString.all (fun c => negb (Ascii.eqb c cr)) lit = true ->
  JsString.startsWith (s ++ str1 cr) lit = JsString.startsWith s lit.
Proof.
  revert lit. induction s as [|c s IH]; intros [|a lit] H; try reflexivity.
  - cbn [JsString.all] in H. apply andb_prop in H. destruct H as [Ha _].
    apply Bool.negb_true_iff in Ha.
    cbn [append str1 JsString.startsWith]. now rewrite Ha.
  - cbn [JsString.all] in H. apply andb_prop in H. destruct H as [_ Hl].
    cbn [append JsString.startsWith]. now rewrite (IH lit Hl).
Qed.

Lemma drop_cr (k : nat) (s lit : string) :
  String.length lit = k -> JsString.startsWith s lit = true ->
  JsString.drop k (s ++ str1 cr) = JsString.drop k s ++ str1 cr.
Proof.
  revert s lit. induction k as [|k IH]; intros s lit L H; [reflexivity|].
  destruct lit as [|a lit]; [discriminate L|].
  destruct s as [|c s]; [discriminate H|].
  cbn [JsString.startsWith] in H. apply andb_prop in H. destruct H as [_ H].
  cbn [append JsString.drop]. apply (IH s lit); [|exact H].
  cbn [String.length] in L. lia.
Qed.

(** A carriage return at the end of a text is white space to [lex]. *)
Lemma lex_cr (f : nat) :
  forall s, String.length s < f -> JSON.lex (S f) (s ++ str1 cr) = JSON.lex f s.
Proof.
  induction f as [|f IH]; intros s L; [lia|].
  destruct s as [|c s].
  - destruct f; reflexivity.
  - cbn [String.length] in L.
    assert (Step : forall rest, String.length rest <= String.length s ->
                   JSON.lex (S f) (rest ++ str1 cr) = JSON.lex f rest).
    { intros rest Lr. apply IH. lia. }
    cbn [append]. 
    change (JSON.lex (S (S f)) (String c (s ++ str1 cr)))
      with (if JSON.is_ws c then JSON.lex (S f) (s ++ str1 cr)
            else if Ascii.eqb c "{"%char then JSON.cons_token JSON.TLBrace (JSON.lex (S f) (s ++ str1 cr))
            else if Ascii.eqb c "}"%char then JSON.cons_token JSON.TRBrace (JSON.lex (S f) (s ++ str1 cr))
            else if Ascii.eqb c "["%char then JSON.cons_token JSON.TLBracket (JSON.lex (S f) (s ++ str1 cr))
            else if Ascii.eqb c "]"%char then JSON.cons_token JSON.TRBracket (JSON.lex (S f) (s ++ str1 cr))
            else if Ascii.eqb c ":"%char then JSON.cons_token JSON.TColon (JSON.lex (S f) (s ++ str1 cr))
            else if Ascii.eqb c ","%char then JSON.cons_token JSON.TComma (JSON.lex (S f) (s ++ str1 cr))
            else if Ascii.eqb c dquote then
              match JSON.scan_string (s ++ str1 cr) with
              | Some (ps, rest) => JSON.cons_token (JSON.TString (JSON.text ps)) (JSON.lex (S f) rest)
              | None => None
              end
            else if Ascii.eqb c "-"%char || JSON.is_digit c then
              match JSON.scan_number (String c (s ++ str1 cr)) with
              | Some (n, rest) => JSON.cons_token (JSON.TNumber n) (JSON.lex (S f) rest)
              | None => None
              end
            else if JsString.startsWith (String c (s ++ str1 cr)) "true" then
              JSON.cons_token JSON.TTrue (JSON.lex (S f) (JsString.drop 4 (String c (s ++ str1 cr))))
            else if JsString.startsWith (String c (s ++ str1 cr)) "false" then
              JSON.cons_token JSON.TFalse (JSON.lex (S f) (JsString.drop 5 (String c (s ++ str1 cr))))
            else if JsString.startsWith (String c (s ++ str1 cr)) "null" then
              JSON.cons_token JSON.TNull (JSON.lex (S f) (JsString.drop 4 (String c (s ++ str1 cr))))
            else None).
    change (JSON.lex (S f) (String c s))
      with (if JSON.is_ws c then JSON.lex f s
            else if Ascii.eqb c "{"%char then JSON.cons_token JSON.TLBrace (JSON.lex f s)
            else if Ascii.eqb c "}"%char then JSON.cons_token JSON.TRBrace (JSON.lex f s)
            else if Ascii.eqb c "["%char then JSON.cons_token JSON.TLBracket (JSON.lex f s)
            else if Ascii.eqb c "]"%char then JSON.cons_token JSON.TRBracket (JSON.lex f s)
            else if Ascii.eqb c ":"%char then JSON.cons_token JSON.TColon (JSON.lex f s)
            else if Ascii.eqb c ","%char then JSON.cons_token JSON.TComma (JSON.lex f s)
            else if Ascii.eqb c dquote then
              match JSON.scan_string s with
              | Some (ps, rest) => JSON.cons_token (JSON.TString (JSON.text ps)) (JSON.lex f rest)
              | None => None
              end
            else if Ascii.eqb c "-"%char || JSON.is_digit c then
              match JSON.scan_number (String c s) with
              | Some (n, rest) => JSON.cons_token (JSON.TNumber n) (JSON.lex f rest)
              | None => None
              end
            else if JsString.startsWith (String c s) "true" then
              JSON.cons_token JSON.TTrue (JSON.lex f (JsString.drop 4 (String c s)))
            else if JsString.startsWith (String c s) "false" then
              JSON.cons_token JSON.TFalse (JSON.lex f (JsString.drop 5 (String c s)))
            else if JsString.startsWith (String c s) "null" then
              JSON.cons_token JSON.TNull (JSON.lex f (JsString.drop 4 (String c s)))
            else None).
    rewrite (Step s (le_n _)).
    change (String c (s ++ str1 cr)) with (String c s ++ str1 cr).
    rewrite !startsWith_cr by reflexivity.
    repeat match goal with
           | |- (if ?b then _ else _) = _ => destruct b eqn:?; [try reflexivity|]
           end; try reflexivity.
    + rewrite (scan_string_cr (String.length s) s (le_n _)).
      pose proof (scan_string_shorter (String.length s) s) as Sh.
      destruct (JSON.scan_string s) as [[ps rest]|]; [|reflexivity].
      cbn [pieces_then_cr]. rewrite Step; [reflexivity|].
      specialize (Sh ps rest (le_n _) eq_refl). lia.
    + rewrite scan_number_cr.
      pose proof (scan_number_shorter (String c s)) as Sh.
      destruct (JSON.scan_number (String c s)) as [[n rest]|]; [|reflexivity].
      cbn [then_cr]. rewrite Step; [reflexivity|].
      specialize (Sh n rest eq_refl). cbn [String.length] in Sh. lia.
    + rewrite (drop_cr 4 (String c s) "true") by (reflexivity || assumption).
      pose proof (drop_shorter 3 (String c s) ltac:(discriminate)) as Sh.
      cbn [String.length] in Sh. rewrite Step; [reflexivity | lia].
    + rewrite (drop_cr 5 (String c s) "false") by (reflexivity || assumption).
      pose proof (drop_shorter 4 (String c s) ltac:(discriminate)) as Sh.
      cbn [String.length] in Sh. rewrite Step; [reflexivity | lia].
    + rewrite (drop_cr 4 (String c s) "null") by (reflexivity || assumption).
      pose proof (drop_shorter 3 (String c s) ltac:(discriminate)) as Sh.
      cbn [String.length] in Sh. rewrite Step; [reflexivity | lia].
Qed.

Lemma document_cr (s : string) : JSON.document (s ++ str1 cr) = JSON.document s.
Proof.
  unfold JSON.document. rewrite length_append. cbn [String.length str1].
  replace (S (String.length s + 1)) with (S (S (String.length s))) by lia.
  now rewrite (lex_cr (S (String.length s)) s (le_n _)).
Qed.

Lemma split_lines_lf (x : string) (rest : list string) :
  forallb no_line_feed (x :: rest) = true ->
  JsString.split newline (JsString.join (str1 newline) (x :: rest)) = x :: rest.
Proof.
  revert x. induction rest as [|y rest IH]; intros x H.
  - cbn [forallb] in H. apply andb_prop in H. destruct H as [Hx _].
    cbn [JsString.join]. now apply split_last.
  - cbn [forallb] in H. apply andb_prop in H. destruct H as [Hx Hr].
    change (JsString.join (str1 newline) (x :: y :: rest))
      with (x ++ String newline (JsString.join (str1 newline) (y :: rest))).
    rewrite split_piece by exact Hx. now rewrite IH.
Qed.

Lemma split_lines_crlf (x : string) (rest : list string) :
  forallb no_line_feed (x :: rest) = true ->
  JsString.split newline (JsString.join (String cr (str1 newline)) (x :: rest))
  = with_cr (x :: rest).
Proof.
  revert x. induction rest as [|y rest IH]; intros x H.
  - cbn [forallb] in H. apply andb_prop in H. destruct H as [Hx _].
    cbn [JsString.join with_cr]. now apply split_last.
  - cbn [forallb] in H. apply andb_prop in H. destruct H as [Hx Hr].
    change (JsString.join (String cr (str1 newline)) (x :: y :: rest))
      with (x ++ String cr (String newline
                              (JsString.join (String cr (str1 newline)) (y :: rest)))).
    change (x ++ String cr (String newline ?r)) with (x ++ str1 cr ++ String newline r).
    rewrite <- append_assoc.
    rewrite split_piece.
    + rewrite IH by exact Hr. reflexivity.
    + unfold no_line_feed in Hx. now rewrite all_append, Hx.
Qed.

Lemma includes_cr (s : string) :
  JsString.includes (s ++ str1 cr) marker = JsString.includes s marker.
Proof.
  induction s as [|c s IH]; [reflexivity|].
  change (String c s ++ str1 cr) with (String c (s ++ str1 cr)).
  cbn [JsString.includes]. rewrite IH.
  change (String c (s ++ str1 cr)) with (String c s ++ str1 cr).
  now rewrite startsWith_cr.
Qed.

Lemma scan_with_cr (fragments : list string) :
  forall llm_done llm_done',
    (llm_done' = llm_done \/ llm_done' = llm_done ++ str1 cr) ->
    scan (with_cr fragments) llm_done' = scan fragments llm_done
    \/ scan (with_cr fragments) llm_done' = scan fragments llm_done ++ str1 cr.
Proof.
  induction fragments as [|x rest IH]; intros a a' R; [exact R|].
  destruct rest as [|y rest].
  - cbn [with_cr scan]. destruct (JsString.includes x marker); [now left | exact R].
  - change (with_cr (x :: y :: rest)) with ((x ++ str1 cr) :: with_cr (y :: rest)).
    cbn [scan]. rewrite includes_cr. apply IH.
    destruct (JsString.includes x marker); [now right | exact R].
Qed.

Lemma parse_cr (s : string) : JSON.parse (s ++ str1 cr) = JSON.parse s.
Proof. unfold JSON.parse. now rewrite document_cr. Qed.

Lemma reply_of_crlf_lines (fragments : list string) :
  forallb no_line_feed fragments = true ->
  read_reply (VString (JsString.join (String cr (str1 newline)) fragments))
  = read_reply (VString (JsString.join (str1 newline) fragments)).
Proof.
  intro H. destruct fragments as [|x rest]; [reflexivity|].
  unfold read_reply. rewrite (split_lines_crlf x rest H), (split_lines_lf x rest H).
  destruct (scan_with_cr (x :: rest) EmptyString EmptyString (or_introl eq_refl)) as [-> | ->];
    [reflexivity|].
  now rewrite parse_cr.
Qed.

(** X11.  A chat answer whose lines end with a carriage return and a line feed
    is read like the answer whose lines end with the line feed alone:
    [prompt] returns the reply, and stores the fetch identifier, of the last
    of the lines that includes the completion marker, or throws what reading
    that line throws. *)
Theorem prompt_reads_crlf_lines
    (message : string) (env : Env) (w : World) (r : Completion Value) (w' : World)
    (request : Request) (fragments : list string) :
  prompt message env w = (r, w') ->
  In request (new_requests w w') -> url request = chat_url ->
  http env request
  = Resolved {| status := 200;
                data := VString (JsString.join (String cr (str1 newline)) fragments) |} ->
  forallb no_line_feed fragments = true ->
  match cbind (JSON.parse (scan fragments EmptyString)) (fun json_resp =>
        cbind (path json_resp reply_path) (fun llm_response =>
        cbind (path json_resp fetch_id_path) (fun fetch_id =>
        Normal (llm_response, fetch_id)))) with
  | Normal (llm_response, fetch_id) =>
      r = Normal llm_response /\ last_fetch_id (self w') = fetch_id
  | Throw e => r = Throw e /\ last_fetch_id (self w') = last_fetch_id (self w)
  | OutOfFuel => False
  end.
Proof.
  intros H I U A Lines.
  apply prompt_summary in H.
  destruct H as (_ & lazy & o & Acc & Urls & F & _ & _ & Cases).
  assert (Last : forall q, new_requests w w' = (lazy ++ [q])%list -> request = q).
  { intros q N. rewrite N in I. apply in_app_or in I. destruct I as [I|[<-|[]]].
    - rewrite Forall_forall in Urls. now contradiction (Urls request I).
    - reflexivity. }
  assert (Read : read_reply (VString (JsString.join (String cr (str1 newline)) fragments))
                 = cbind (JSON.parse (scan fragments EmptyString)) (fun json_resp =>
                   cbind (path json_resp reply_path) (fun llm_response =>
                   cbind (path json_resp fetch_id_path) (fun fetch_id =>
                   Normal (llm_response, fetch_id))))).
  { rewrite (reply_of_crlf_lines fragments Lines).
    destruct fragments as [|x rest]; [reflexivity|].
    unfold read_reply. now rewrite (split_lines_lf x rest Lines). }
  destruct Cases as [(N & _) | [(q & N & _ & Stop) | (q & response & N & _ & A' & _ & R)]].
  - exfalso. rewrite N in I. rewrite Forall_forall in Urls. exact (Urls request I U).
  - exfalso. rewrite (Last q N) in A.
    destruct Stop as [((x & Ax & Sx) & _) | (Rj & _)]; [|congruence].
    rewrite A in Ax. inversion Ax; subst x. now contradiction Sx.
  - rewrite (Last q N) in A. rewrite A in A'. inversion A'; subst response.
    cbn [data] in R. rewrite Read in R.
    destruct (cbind _ _) as [[v f]|e|]; [| |exact R].
    + destruct R as [-> ->]. now split.
    + destruct R as [-> ->]. now split.
Qed.

Lemma prompt_reads_crlf_lines_witness :
  fst (prompt "hi" carriage_returns ready) = Normal (VString "hello").
Proof.
  exact (proj1 (prompt_reads_crlf_lines "hi" carriage_returns ready
                  (fst (prompt "hi" carriage_returns ready))
                  (snd (prompt "hi" carriage_returns ready))
                  (chat_request (self ready) "hi" "1111111111111111111" "TOK")
                  ["{}"; third_fragment; "{}"]
                  eq_refl (or_introl eq_refl) eq_refl eq_refl eq_refl)).
Defined.

(** ** What [sources] returns *)

Lemma sources_reads (fetch_id : option string) (env : Env) (w : World)
    (r : Completion SourcesOrFalse) (w' : World) (request : Request) (response : Response) :
  sources fetch_id env w = (r, w') ->
  In request (new_requests w w') ->
  http env request = Resolved response -> status response = 200%Z ->
  r = read_sources (data response) /\ self w' = self w.
Proof.
  intros H I A S.
  destruct (sources_sent _ _ _ _ _ _ H I) as (id & token & Id & T & ->).
  rewrite (sources_sends fetch_id env w id token Id T) in H. cbv zeta in H.
  rewrite A in H. apply status_200 in S. rewrite S in H.
  inversion H; subst. now split.
Qed.

Lemma push_references_all (items : list Value) :
  forallb (fun item => negb (nullish item)) items = true ->
  exists refs,
    push_references items = Normal refs
    /\ Forall2 (fun item reference =>
                  get item Klink = Normal (link reference)
                  /\ get item Ktitle = Normal (title reference)) items refs.
Proof.
  induction items as [|item items IH]; cbn [forallb push_references].
  - intros _. exists []. split; [reflexivity | constructor].
  - intro H. apply andb_prop in H. destruct H as [Hi Hr].
    apply Bool.negb_true_iff in Hi.
    destruct (get_of_other item Klink Hi) as (l & L).
    destruct (get_of_other item Ktitle Hi) as (t & T).
    destruct (IH Hr) as (refs & P & F).
    rewrite L, T, P. cbn [cbind].
    exists ({| link := l; title := t |} :: refs). split; [reflexivity|].
    constructor; [now split | exact F].
Qed.

Lemma push_references_none (items : list Value) :
  forallb (fun item => negb (nullish item)) items = false ->
  push_references items = Throw TypeError.
Proof.
  induction items as [|item items IH]; cbn [forallb push_references]; [discriminate|].
  destruct (nullish item) eqn:Hi; cbn [negb andb].
  - intros _. now rewrite (get_of_nullish item Klink Hi).
  - intro Hr.
    destruct (get_of_other item Klink Hi) as (l & L).
    destruct (get_of_other item Ktitle Hi) as (t & T).
    now rewrite L, T, (IH Hr).
Qed.

(** X12.  When the lookup is answered with status 200 and
    [data.message.searchResults.references] is an array, [sources] returns
    one reference for each element, in the order of the array, with the
    [link] and the [title] read off that element ([undefined] for one that
    is not there), beside the [search_engine] and the [search_query] of the
    results.  When an element of the array is [null], [sources] throws a
    TypeError and returns no part of the list.  The fields stay as they
    were. *)
Theorem sources_lists_the_references
    (fetch_id : option string) (env : Env) (w : World)
    (r : Completion SourcesOrFalse) (w' : World)
    (request : Request) (response : Response) (results : Value) (items : list Value) :
  sources fetch_id env w = (r, w') ->
  In request (new_requests w w') ->
  http env request = Resolved response -> status response = 200%Z ->
  path (data response) [Kdata; Kmessage; KsearchResults] = Normal results ->
  get results Kreferences = Normal (VArray items) ->
  self w' = self w
  /\ (forallb (fun item => negb (nullish item)) items = true ->
      exists engine query refs,
        r = Normal (TheSources {| search_engine := engine;
                                  search_query := query;
                                  references := refs |})
        /\ get results Ksearch_engine = Normal engine
        /\ get results Ksearch_query = Normal query
        /\ Forall2 (fun item reference =>
                      get item Klink = Normal (link reference)
                      /\ get item Ktitle = Normal (title reference)) items refs)
  /\ (forallb (fun item => negb (nullish item)) items = false -> r = Throw TypeError).
Proof.
  intros H I A S P L.
  destruct (sources_reads _ _ _ _ _ _ _ H I A S) as [-> O].
  split; [exact O|].
  assert (N : nullish results = false).
  { destruct results; try reflexivity; discriminate L. }
  destruct (get_of_other results Ksearch_engine N) as (engine & E).
  destruct (get_of_other results Ksearch_query N) as (query & Q).
  unfold read_sources. rewrite P. cbn [cbind]. rewrite E, Q, L. cbn [cbind iterate].
  split.
  - intro All. destruct (push_references_all items All) as (refs & R & F).
    rewrite R. cbn [cbind]. now exists engine, query, refs.
  - intro Some. now rewrite (push_references_none items Some).
Qed.

Lemma sources_lists_the_references_witness :
  exists refs,
    fst (sources None found ready)
    = Normal (TheSources {| search_engine := VString "BING";
                            search_query := VString "rocq";
                            references := refs |})
    /\ List.length refs = 2.
Proof.
  destruct (proj1 (proj2 (sources_lists_the_references None found ready
                     (fst (sources None found ready)) (snd (sources None found ready))
                     (sources_request (self ready) "F1" "TOK")
                     {| status := 200;
                        data := VObject [("data", VObject [("message", VObject [("searchResults",
                          VObject [("search_engine", VString "BING");
                                   ("search_query", VString "rocq");
                                   ("references",
                                    VArray [VObject [("link", VString "https://a.example");
                                                     ("title", VString "A")];
                                            VObject [("link", VString "https://b.example");
                                                     ("title", VString "B")]])])])])] |}
                     _ _ eq_refl (or_introl eq_refl) eq_refl eq_refl eq_refl eq_refl))
              eq_refl)
    as (engine & query & refs & R & E & Q & F).
  exists refs. split.
  - cbn [get own key_name String.eqb Ascii.eqb Bool.eqb] in E, Q. congruence.
  - apply Forall2_length in F. now rewrite <- F.
Defined.

(** ** A body in the other form *)

(** X13.  [init] and [prompt] read the body of the answer as text, and
    [set_access_token] and [sources] read it as the value of a JSON body:
    an answer of status 200 in the other form makes each of them throw a
    TypeError and leaves the fields as they were. *)
Theorem body_in_the_other_form_throws (env : Env) (w : World) :
  (forall response,
      http env init_request = Resolved response -> status response = 200%Z ->
      is_text (data response) = false ->
      init env w = (Throw TypeError, logged w init_request))
  /\ (forall response,
         http env (token_request (self w)) = Resolved response ->
         status response = 200%Z -> is_text (data response) = true ->
         set_access_token env w = (Throw TypeError, logged w (token_request (self w))))
  /\ (forall message r w' request response,
         prompt message env w = (r, w') ->
         In request (new_requests w w') -> url request = chat_url ->
         http env request = Resolved response -> status response = 200%Z ->
         is_text (data response) = false ->
         r = Throw TypeError /\ last_fetch_id (self w') = last_fetch_id (self w))
  /\ (forall fetch_id r w' request response,
         sources fetch_id env w = (r, w') ->
         In request (new_requests w w') ->
         http env request = Resolved response -> status response = 200%Z ->
         is_text (data response) = true ->
         r = Throw TypeError /\ self w' = self w).
Proof.
  split; [|split; [|split]].
  - intros response A S T. rewrite init_cases, A.
    apply status_200 in S. rewrite S.
    destruct (data response); try discriminate T; reflexivity.
  - intros response A S T. rewrite set_access_token_cases. cbv zeta. rewrite A.
    apply status_200 in S. rewrite S.
    destruct (data response); try discriminate T; reflexivity.
  - intros message r w' request response H I U A S T.
    apply prompt_summary in H.
    destruct H as (_ & lazy & o & Acc & Urls & F & _ & _ & Cases).
    assert (Last : forall q, new_requests w w' = (lazy ++ [q])%list -> request = q).
    { intros q N. rewrite N in I. apply in_app_or in I. destruct I as [I|[<-|[]]].
      - rewrite Forall_forall in Urls. now contradiction (Urls request I).
      - reflexivity. }
    destruct Cases as [(N & _) | [(q & N & _ & Stop) | (q & response' & N & _ & A' & _ & R)]].
    + exfalso. rewrite N in I. rewrite Forall_forall in Urls. exact (Urls request I U).
    + exfalso. rewrite (Last q N) in A.
      destruct Stop as [((x & Ax & Sx) & _) | (Rj & _)]; congruence.
    + rewrite (Last q N) in A. rewrite A in A'. inversion A'; subst response'.
      destruct (data response); try discriminate T; cbn [read_reply] in R;
        destruct R as [-> ->]; now split.
  - intros fetch_id r w' request response H I A S T.
    destruct (sources_reads _ _ _ _ _ _ _ H I A S) as [-> O]. split; [|exact O].
    destruct (data response); try discriminate T. reflexivity.
Qed.

(** ** The [variables] of [sources] as JSON text *)

Lemma lex_sources_variables (f : nat) (X : string) :
  JSON.lex (3 + S f) (js "{'abraMessageFetchID':'" ++ X)
  = cons_tokens [JSON.TLBrace; JSON.TString "abraMessageFetchID"; JSON.TColon]
      (then_string f X).
Proof. reflexivity. Qed.

Lemma more_inv (p : JSON.Piece) (r : option (list JSON.Piece * string))
    (ps : list JSON.Piece) (rest : string) :
  JSON.more p r = Some (ps, rest) -> exists ps', r = Some (ps', rest) /\ ps = p :: ps'.
Proof.
  destruct r as [[ps' rest']|]; simpl; [|discriminate].
  intro H. inversion H; subst. now exists ps'.
Qed.

Lemma utf8_length (cp : N) : String.length (JSON.utf8 cp) <= 4.
Proof.
  unfold JSON.utf8.
  destruct (N.ltb cp 128); [simpl; lia|].
  destruct (N.ltb cp 2048); [simpl; lia|].
  destruct (N.ltb cp 65536); simpl; lia.
Qed.

Lemma surrogates_apart (v : N) :
  JSON.low_surrogate v = true -> JSON.high_surrogate v = false.
Proof.
  unfold JSON.low_surrogate, JSON.high_surrogate. intro L.
  apply andb_prop in L. destruct L as [L _]. apply N.leb_le in L.
  apply Bool.andb_false_iff. right. apply N.leb_gt. lia.
Qed.

Lemma text_unit16 (u : N) (r : list JSON.Piece) :
  String.length (JSON.text (JSON.Unit16 u :: r)) <= 4 + String.length (JSON.text r).
Proof.
  pose proof (utf8_length u) as Lu.
  destruct r as [|[c|v] r'].
  - cbn [JSON.text]. rewrite length_append. simpl. lia.
  - cbn [JSON.text]. rewrite length_append. simpl. lia.
  - change (JSON.text (JSON.Unit16 u :: JSON.Unit16 v :: r'))
      with (if JSON.high_surrogate u && JSON.low_surrogate v
            then JSON.utf8 (65536 + (u - 55296) * 1024 + (v - 56320)) ++ JSON.text r'
            else JSON.utf8 u ++ JSON.text (JSON.Unit16 v :: r')).
    destruct (JSON.high_surrogate u && JSON.low_surrogate v) eqn:S.
    + apply andb_prop in S. destruct S as [_ Lv]. apply surrogates_apart in Lv.
      assert (E : JSON.text (JSON.Unit16 v :: r') = JSON.utf8 v ++ JSON.text r').
      { cbn [JSON.text]. rewrite Lv. cbn [andb]. now destruct r' as [|[|] ?]. }
      rewrite E, !length_append.
      pose proof (utf8_length (65536 + (u - 55296) * 1024 + (v - 56320))). lia.
    + rewrite length_append. lia.
Qed.

(** What [scan_string] takes off a text: the characters up to the closing
    quote.  The string it makes of them is no longer than they are, and as
    long only when each of them stands for itself. *)
Lemma scan_string_consumes (n : nat) :
  forall s ps rest,
    String.length s <= n -> JSON.scan_string s = Some (ps, rest) ->
    exists consumed,
      s = consumed ++ String dquote rest
      /\ String.length (JSON.text ps) <= String.length consumed
      /\ (String.length (JSON.text ps) = String.length consumed ->
          JsString.all plain consumed = true).
Proof.
  induction n as [|n IH]; intros s ps rest L H.
  - destruct s; [discriminate | simpl in L; lia].
  - destruct s as [|c s]; [discriminate|]. cbn [JSON.scan_string] in H.
    cbn [String.length] in L.
    destruct (Ascii.eqb_spec c dquote) as [->|Q].
    { inversion H; subst. exists EmptyString. repeat split. simpl. lia. }
    destruct (Ascii.eqb_spec c backslash) as [->|B].
    + destruct s as [|e s]; [discriminate|]. cbn [String.length] in L.
      destruct (JSON.simple_escape e).
      * apply more_inv in H. destruct H as (ps' & H & ->).
        apply IH in H; [|lia]. destruct H as (consumed & -> & Len & _).
        exists (String backslash (String e consumed)).
        split; [reflexivity|]. cbn [JSON.text String.length]. split; lia.
      * destruct (Ascii.eqb e "u"%char); [|discriminate].
        destruct s as [|h1 [|h2 [|h3 [|h4 s]]]]; try discriminate.
        cbn [String.length] in L.
        destruct (JSON.hex4 h1 h2 h3 h4) as [u|]; [|discriminate].
        apply more_inv in H. destruct H as (ps' & H & ->).
        apply IH in H; [|lia]. destruct H as (consumed & -> & Len & _).
        exists (String backslash (String e (String h1 (String h2 (String h3
                  (String h4 consumed)))))).
        split; [reflexivity|].
        pose proof (text_unit16 u ps'). cbn [String.length]. split; lia.
    + destruct (N.ltb (JSON.code c) 32) eqn:C; [discriminate|].
      apply more_inv in H. destruct H as (ps' & H & ->).
      apply IH in H; [|lia]. destruct H as (consumed & -> & Len & Eq).
      exists (String c consumed). split; [reflexivity|].
      cbn [JSON.text String.length JsString.all]. split; [lia|].
      intro E. rewrite Eq by lia. rewrite Bool.andb_true_r.
      unfold plain. fold (JSON.code c). rewrite C.
      apply Ascii.eqb_neq in Q, B. now rewrite Q, B.
Qed.

Lemma append_same_length (a b x y : string) :
  a ++ x = b ++ y -> String.length a = String.length b -> a = b.
Proof.
  revert b. induction a as [|c a IH]; intros [|d b] E L; try discriminate L.
  - reflexivity.
  - cbn [append] in E. inversion E; subst. f_equal. apply IH; [assumption|].
    cbn [String.length] in L. lia.
Qed.

Lemma members_not_empty (f : nat) (ts : list JSON.Token)
    (ms : list (string * Value)) (r : list JSON.Token) :
  JSON.members f ts = Some (ms, r) -> ms <> [].
Proof.
  destruct f as [|f]; [discriminate|]. cbn [JSON.members].
  destruct ts as [|[| | | | | |k| | | |] [|[] ts]]; try discriminate.
  destruct (JSON.value f ts) as [[v [|[] r']]|]; try discriminate.
  - intro H. inversion H; subst. discriminate.
  - destruct (JSON.members f r') as [[ms' r'']|]; [|discriminate].
    intro H. inversion H; subst. discriminate.
Qed.

(** The value of an object whose first member is a string. *)
Lemma value_object_string (f : nat) (k t : string) (ts : list JSON.Token) :
  JSON.value (S (S (S f))) (JSON.TLBrace :: JSON.TString k :: JSON.TColon
                            :: JSON.TString t :: ts)
  = match ts with
    | JSON.TRBrace :: r => Some (VObject [(k, VString t)], r)
    | JSON.TComma :: r =>
        match JSON.members (S f) r with
        | Some (ms, r') => Some (VObject ((k, VString t) :: ms), r')
        | None => None
        end
    | _ => None
    end.
Proof.
  destruct ts as [|[] ts]; try reflexivity.
  change (JSON.value (S (S (S f))) (JSON.TLBrace :: JSON.TString k :: JSON.TColon
                                    :: JSON.TString t :: JSON.TComma :: ts))
    with (match match JSON.members (S f) ts with
                | Some (ms, r'') => Some ((k, VString t) :: ms, r'')
                | None => None
                end with
          | Some (ms, r') => Some (VObject ms, r')
          | None => None
          end).
  now destruct (JSON.members (S f) ts) as [[ms r]|].
Qed.

(** X14.  [sources] puts the fetch identifier between the quotes of a JSON
    string as it is: [variables] is the JSON document whose
    [abraMessageFetchID] is the identifier exactly when the identifier holds
    no double quote, no backslash and no control character. *)
Theorem sources_variables_plain_identifier (fetch_id : string) :
  JSON.document (sources_variables fetch_id)
  = Some (VObject [("abraMessageFetchID", VString fetch_id)])
  <-> JsString.all plain fetch_id = true.
Proof.
  unfold JSON.document, sources_variables.
  set (s := js "{'abraMessageFetchID':'" ++ fetch_id ++ js "'}").
  assert (Len : S (String.length s) = 3 + S (String.length fetch_id + 22)).
  { subst s. rewrite !length_append.
    change (String.length (js "{'abraMessageFetchID':'")) with 23.
    change (String.length (js "'}")) with 2. lia. }
  split.
  - rewrite Len. subst s. rewrite lex_sources_variables.
    change (js "'}") with (String dquote "}").
    unfold then_string.
    destruct (JSON.scan_string (fetch_id ++ String dquote "}")) as [[ps rest]|] eqn:Scan;
      [|discriminate].
    destruct (JSON.lex _ rest) as [ts|] eqn:Lex; [|discriminate].
    cbn [cons_tokens JSON.cons_token List.length].
    rewrite value_object_string. intro V.
    assert (E : JSON.text ps = fetch_id /\ ts = [JSON.TRBrace]).
    { destruct ts as [|[] ts]; try discriminate V.
      - destruct ts; [|discriminate V]. inversion V. now split.
      - destruct (JSON.members _ ts) as [[ms r]|] eqn:M; [|discriminate V].
        apply members_not_empty in M. destruct r; [|discriminate V].
        inversion V. congruence. }
    destruct E as [T ->].
    assert (R : 1 <= String.length rest).
    { destruct rest; [|simpl; lia]. rewrite Nat.add_comm in Lex. discriminate Lex. }
    destruct (scan_string_consumes _ _ _ _ (le_n _) Scan) as (consumed & Cut & L & Eq).
    rewrite T in L, Eq.
    assert (Same : String.length fetch_id = String.length consumed).
    { apply (f_equal String.length) in Cut. rewrite !length_append in Cut.
      cbn [String.length] in Cut. lia. }
    rewrite (append_same_length _ _ _ _ Cut Same). now apply Eq.
  - intro P.
    assert (L : JSON.lex 6 s
                = Some [JSON.TLBrace; JSON.TString "abraMessageFetchID"; JSON.TColon;
                        JSON.TString fetch_id; JSON.TRBrace]).
    { subst s. change 6 with (3 + S 2). rewrite lex_sources_variables.
      change (js "'}") with (String dquote "}").
      now rewrite (then_string_plain _ _ _ P). }
    replace (S (String.length s)) with (6 + (S (String.length s) - 6)) by lia.
    rewrite (lex_more_fuel 6 _ _ L). reflexivity.
Qed.

(** ** [sources] after [prompt] *)

(** A call of [prompt] that returns with all its requests answered with
    status 200. *)
Lemma prompt_success (message : string) (env : Env) (w : World) (reply : Value) (w' : World) :
  prompt message env w = (Normal reply, w') ->
  Forall (accepted env) (new_requests w w') ->
  exists earlier threading_id token body fetch_id,
    new_requests w w'
    = (earlier ++ [chat_request (self w') message threading_id token])%list
    /\ http env (chat_request (self w') message threading_id token)
       = Resolved {| status := 200; data := VString body |}
    /\ read_reply (VString body) = Normal (reply, fetch_id)
    /\ last_fetch_id (self w') = fetch_id.
Proof.
  intros H All.
  pose proof (prompt_trace _ _ _ _ _ H) as (l1 & l2 & l3 & N & F1 & F2 & F3).
  apply new_requests_of in N.
  pose proof (prompt_summary _ _ _ _ _ H) as (C & lazy & o & _ & _ & _ & _ & _ & Cases).
  destruct Cases as [(_ & _ & [[R _]|(e & R)]) | [(q & N' & _ & Stop) | Read]];
    try discriminate.
  - exfalso. rewrite N' in All. apply accepted_all_but in All.
    destruct Stop as [(Rf & _) | (Rj & _)].
    + exact (refused_not_accepted _ _ Rf All).
    + exact (rejected_not_accepted _ _ Rj All).
  - destruct Read as (q & response & N' & Url & A & S & R).
    assert (Q : exists tid tok, q = chat_request (self w') message tid tok
                                /\ (l1 ++ l2)%list = lazy).
    { rewrite N' in N. destruct F3 as [-> | (o' & tid & tok & drawn & -> & Co & K & L & _)].
      - exfalso. rewrite app_nil_r in N.
        assert (I : In q (l1 ++ l2)%list).
        { rewrite <- N. apply in_or_app. right. now left. }
        apply in_app_or in I.
        destruct I as [I|I]; [destruct F1 as [-> | ->] | destruct F2 as [-> | (o' & ->)]];
          try contradiction; destruct I as [<-|[]]; discriminate Url.
      - rewrite app_assoc in N. apply app_inj_tail in N. destruct N as [<- ->].
        exists tid, tok. split; [|reflexivity].
        apply chat_request_of; congruence. }
    destruct Q as (tid & tok & -> & _).
    destruct response as [status body]. cbn [Client.status data] in S, R. subst status.
    destruct body as [| | | |body| | |]; try (destruct R; discriminate).
    destruct (read_reply (VString body)) as [[v f]|e|] eqn:RR;
      [| destruct R; discriminate | contradiction].
    destruct R as [Rv O]. inversion Rv; subst v.
    exists lazy, tid, tok, body, f. repeat split; try assumption.
    now rewrite O.
Qed.

(** X15.  [sources()] after a [prompt] that succeeded looks up the answer of
    that [prompt]: the fetch identifier it sends is the [fetch_id] of the
    fragment the [prompt] selected, and its request carries the cookies and
    the [lsd] token the chat request carried. *)
Theorem sources_follows_prompt
    (message : string) (env : Env) (w : World) (reply : Value) (w1 : World) (env2 : Env) :
  prompt message env w = (Normal reply, w1) ->
  Forall (accepted env) (new_requests w w1) ->
  exists earlier threading_id token body fragment json_resp fetch_id,
    new_requests w w1
    = (earlier ++ [chat_request (self w1) message threading_id token])%list
    /\ http env (chat_request (self w1) message threading_id token)
       = Resolved {| status := 200; data := VString body |}
    /\ last_with_marker (JsString.split newline body) fragment
    /\ JSON.parse fragment = Normal json_resp
    /\ path json_resp fetch_id_path = Normal fetch_id
    /\ forall request,
        In request (new_requests w1 (snd (sources None env2 w1))) ->
        exists id token2,
          to_string (number_text env2) fetch_id = Normal id
          /\ request = sources_request (self w1) id token2.
Proof.
  intros H All.
  destruct (prompt_success _ _ _ _ _ H All) as (earlier & tid & tok & body & f & N & A & R & L).
  pose proof (scan_result (JsString.split newline body) EmptyString) as Sel.
  destruct Sel as [[E _]|Last].
  { unfold read_reply in R. rewrite E, parse_empty in R. discriminate R. }
  pose proof (read_reply_last body _ Last) as RL. rewrite R in RL.
  destruct RL as (j & P & _ & Fj).
  exists earlier, tid, tok, body, (scan (JsString.split newline body) EmptyString), j, f.
  repeat split; try assumption.
  intros request I.
  destruct (sources_sent None env2 w1 _ _ request (surjective_pairing _) I)
    as (id & token2 & Id & _ & ->).
  exists id, token2. split; [now rewrite <- L | reflexivity].
Qed.

Lemma sources_follows_prompt_witness :
  exists earlier threading_id token,
    new_requests (fresh "c0ffee") (snd (prompt "hi" streaming (fresh "c0ffee")))
    = (earlier ++ [chat_request (self (snd (prompt "hi" streaming (fresh "c0ffee"))))
                     "hi" threading_id token])%list.
Proof.
  destruct (sources_follows_prompt "hi" streaming (fresh "c0ffee") (VString "hello")
              (snd (prompt "hi" streaming (fresh "c0ffee"))) found eq_refl)
    as (earlier & tid & tok & _ & _ & _ & _ & N & _).
  - repeat constructor; eexists; (split; [reflexivity | reflexivity]).
  - now exists earlier, tid, tok.
Defined.

(** ** The conversation on the wire *)

Lemma call_sends (c : Call) (env : Env) (w : World) :
  exists l,
    sent (call c env w) = (sent w ++ l)%list
    /\ Forall (fun q => sends_message q -> in_conversation (conversation_id (self w)) q) l.
Proof.
  destruct c as [| |message|fetch_id]; cbn [call].
  - exists [init_request]. split.
    + rewrite init_cases. destruct (http env init_request) as [x|]; [|reflexivity].
      destruct (negb _); [reflexivity|].
      destruct (page_groups _) as [[[[? ?] ?] ?]|]; reflexivity.
    + constructor; [|constructor]. intro M. now apply init_request_sends_no_message in M.
  - exists [token_request (self w)]. split.
    + rewrite set_access_token_cases. cbv zeta.
      destruct (http env _) as [x|]; [|reflexivity].
      destruct (negb _); [reflexivity|].
      destruct (path _ _); reflexivity.
    + constructor; [|constructor]. intro M. now apply token_request_sends_no_message in M.
  - destruct (prompt message env w) as [r w'] eqn:H. cbn [snd].
    pose proof (prompt_trace _ _ _ _ _ H) as (l1 & l2 & l3 & N & F1 & F2 & F3).
    exists (l1 ++ l2 ++ l3)%list. split; [exact N|].
    apply Forall_app. split; [|apply Forall_app; split].
    + destruct F1 as [-> | ->]; constructor; [|constructor].
      intro M. now apply init_request_sends_no_message in M.
    + destruct F2 as [-> | (o & ->)]; constructor; [|constructor].
      intro M. now apply token_request_sends_no_message in M.
    + destruct F3 as [-> | (o & tid & tok & drawn & -> & C & _)]; constructor; [|constructor].
      intros _. exists message, tid, tok, (lsd o). now rewrite <- C.
  - rewrite sources_cases. cbv zeta.
    destruct (to_string _ _) as [id| |];
      try (exists []; rewrite app_nil_r; split; [reflexivity | constructor]).
    destruct (to_string _ (access_token (self w))) as [token| |];
      try (exists []; rewrite app_nil_r; split; [reflexivity | constructor]).
    exists [sources_request (self w) id token]. split.
    + destruct (http env _) as [x|]; [|reflexivity]. destruct (negb _); reflexivity.
    + constructor; [|constructor].
      intro M. now apply sources_request_sends_no_message in M.
Qed.

Lemma run_chat_requests (calls : list (Call * Env)) (w : World) :
  Forall (fun q => sends_message q -> in_conversation (conversation_id (self w)) q) (sent w) ->
  Forall (fun q => sends_message q -> in_conversation (conversation_id (self w)) q)
    (sent (run calls w)).
Proof.
  revert w. induction calls as [|[c env] calls IH]; intros w Inv; cbn [run]; [exact Inv|].
  rewrite <- (call_keeps_conversation_id c env w).
  apply IH. rewrite (call_keeps_conversation_id c env w).
  destruct (call_sends c env w) as (l & -> & F).
  apply Forall_app. now split.
Qed.

(** X16.  Through any run of calls on a client, each with a backend of its
    own, every chat request the client sends carries, as
    [externalConversationId], the identifier the constructor made. *)
Theorem chat_requests_carry_the_conversation
    (uuid : string) (calls : list (Call * Env)) (request : Request) :
  In request (sent (run calls (fresh uuid))) ->
  sends_message request ->
  in_conversation uuid request.
Proof.
  intros I M.
  pose proof (run_chat_requests calls (fresh uuid) (Forall_nil _)) as G.
  rewrite Forall_forall in G. exact (G request I M).
Qed.

Lemma chat_requests_carry_the_conversation_witness :
  in_conversation "c0ffee" (chat_request (self ready) "again" "1111111111111111111" "TOK").
Proof.
  apply (chat_requests_carry_the_conversation "c0ffee"
           [(CallPrompt "hi", streaming); (CallSources None, found);
            (CallPrompt "again", streaming)]).
  - vm_compute. right; right; right; right. left. reflexivity.
  - unfold sends_message. cbn. repeat (try (left; reflexivity); right).
Defined.

(** ** The command line *)

Section CommandLine.
Variable toUpperCase : string -> string.

Lemma log_references_world (env : Env) (references : list Reference) (t : Cli.Terminal) :
  Cli.world (snd (Cli.log_references env references t)) = Cli.world t.
Proof.
  revert t. induction references as [|reference rest IH]; intro t; [reflexivity|].
  cbn [Cli.log_references]. unfold Cli.bind, Cli.console_log, Cli.output, Cli.template, Cli.lift.
  destruct (to_string _ (title reference)); try reflexivity.
  destruct (to_string _ (link reference)); try reflexivity.
  cbv beta iota zeta. now rewrite IH.
Qed.

Lemma round_world (typed : option string) (env : Env) (t : Cli.Terminal) :
  Cli.world (snd (Cli.round toUpperCase typed env t))
  = match served_by toUpperCase typed with
    | Some c => call c env (Cli.world t)
    | None => Cli.world t
    end.
Proof.
  unfold Cli.round, served_by, Cli.bind, Cli.console_log, Cli.output, Cli.template,
    Cli.lift, Cli.await.
  destruct typed as [message|]; [|reflexivity].
  destruct (String.eqb (toUpperCase message) "SOURCES"); cbn [Cli.world Cli.shown call].
  - destruct (sources None env (Cli.world t)) as [[[|s]|e|] w]; try reflexivity.
    cbv beta iota zeta. cbn [Cli.world Cli.shown snd].
    destruct (to_string _ (search_engine s)); try reflexivity.
    destruct (to_string _ (search_query s)); try reflexivity.
    now rewrite log_references_world.
  - destruct (prompt message env (Cli.world t)) as [[resp|e|] w]; reflexivity.
Qed.

(** A session of the command line is a run of calls of [prompt] and
    [sources()] on the client. *)
Lemma loop_is_run (session : list (option string * Env)) (t : Cli.Terminal) :
  exists calls,
    Cli.world (snd (Cli.loop toUpperCase session t)) = run calls (Cli.world t)
    /\ Forall (fun c => fst c = CallSources None \/ exists message, fst c = CallPrompt message)
         calls.
Proof.
  assert (Served : forall typed c,
             served_by toUpperCase typed = Some c ->
             c = CallSources None \/ exists message, c = CallPrompt message).
  { intros [message|] c; cbn [served_by]; [|discriminate].
    destruct (String.eqb _ _); intro S; inversion S; [now left | right; now eexists]. }
  revert t. induction session as [|[typed env] rest IH]; intro t.
  - exists []. now split.
  - cbn [Cli.loop]. unfold Cli.bind.
    pose proof (round_world typed env t) as W.
    pose proof (Served typed) as Sv.
    destruct (Cli.round toUpperCase typed env t) as [[[]|e|] t1]; cbn [snd] in W.
    + destruct (IH t1) as (calls & R & D). rewrite R, W.
      destruct (served_by toUpperCase typed) as [c|].
      * exists ((c, env) :: calls). split; [reflexivity|].
        constructor; [exact (Sv c eq_refl) | exact D].
      * now exists calls.
    + cbn [snd]. rewrite W.
      destruct (served_by toUpperCase typed) as [c|].
      * exists [(c, env)]. split; [reflexivity|].
        constructor; [exact (Sv c eq_refl) | constructor].
      * exists []. now split.
    + cbn [snd]. rewrite W.
      destruct (served_by toUpperCase typed) as [c|].
      * exists [(c, env)]. split; [reflexivity|].
        constructor; [exact (Sv c eq_refl) | constructor].
      * exists []. now split.
Qed.

Lemma run_invariants (calls : list (Call * Env)) (w : World) :
  conversation_id (self (run calls w)) = conversation_id (self w)
  /\ (forallb (fun c => negb (direct_token_call c)) calls = true ->
      token_behind_cookies (self w) -> token_behind_cookies (self (run calls w))).
Proof.
  revert w. induction calls as [|[c env] calls IH]; intro w; cbn [run].
  - split; [reflexivity | auto].
  - destruct (IH (call c env w)) as [C I]. split.
    + rewrite C. apply call_keeps_conversation_id.
    + cbn [forallb]. intros D Inv. apply andb_prop in D. destruct D as [D1 D2].
      apply I; [exact D2|].
      apply call_keeps_token_behind_cookies; [|exact Inv].
      now apply Bool.negb_true_iff in D1.
Qed.

(** X17.  A session of the command line is a run of calls of [prompt] and of
    [sources()] on the client, and of no other call.  Through it the client
    keeps the conversation identifier the constructor made, holds an
    [access_token] other than the empty string of the constructor only when
    [cookies] is not empty, and sends every chat request with that
    conversation identifier. *)
Theorem command_line_keeps_the_session
    (uuid : string) (session : list (option string * Env)) :
  let metaai := Cli.world (snd (Cli.main toUpperCase uuid session)) in
  (exists calls,
      metaai = run calls (fresh uuid)
      /\ Forall (fun c => fst c = CallSources None \/ exists message, fst c = CallPrompt message)
           calls)
  /\ conversation_id (self metaai) = uuid
  /\ (access_token (self metaai) <> VString EmptyString -> cookies (self metaai) <> EmptyString)
  /\ (forall request,
         In request (sent metaai) -> sends_message request -> in_conversation uuid request).
Proof.
  cbv zeta. unfold Cli.main.
  destruct (loop_is_run session {| Cli.world := fresh uuid; Cli.shown := [] |})
    as (calls & -> & F).
  cbn [Cli.world].
  split; [now exists calls|].
  destruct (run_invariants calls (fresh uuid)) as [C I].
  split; [exact C|]. split.
  - apply I; [|intro N; now contradiction N].
    clear - F. induction F as [|[c env] calls Hc _ IH]; [reflexivity|].
    cbn [forallb]. rewrite IH, Bool.andb_true_r.
    cbn [fst] in Hc. destruct Hc as [-> | (message & ->)]; reflexivity.
  - intros request In_ M.
    pose proof (run_chat_requests calls (fresh uuid) (Forall_nil _)) as G.
    rewrite Forall_forall in G. exact (G request In_ M).
Qed.

Lemma log_references_lines (env : Env) (references : list Reference) (t t' : Cli.Terminal) :
  Cli.log_references env references t = (Normal tt, t') ->
  exists lines,
    Cli.shown t' = (Cli.shown t ++ map (fun line => Cli.Logged [VString line]) lines)%list
    /\ Forall2 (fun reference line =>
                  exists title_text link_text,
                    to_string (number_text env) (title reference) = Normal title_text
                    /\ to_string (number_text env) (link reference) = Normal link_text
                    /\ line = title_text ++ " - " ++ link_text) references lines.
Proof.
  revert t. induction references as [|reference rest IH]; intro t.
  - intro H. inversion H; subst. exists []. split; [now rewrite app_nil_r | constructor].
  - cbn [Cli.log_references].
    unfold Cli.bind, Cli.console_log, Cli.output, Cli.template, Cli.lift.
    destruct (to_string _ (title reference)) as [title_text| |] eqn:T; try discriminate.
    destruct (to_string _ (link reference)) as [link_text| |] eqn:L; try discriminate.
    cbv beta iota zeta. intro H. apply IH in H. destruct H as (lines & S & F).
    exists ((title_text ++ " - " ++ link_text) :: lines). split.
    + rewrite S. cbn [Cli.shown map]. now rewrite <- app_assoc.
    + constructor; [|exact F]. now exists title_text, link_text.
Qed.

(** X18.  A line whose upper-case form is SOURCES is not sent to the chat:
    the round calls [sources()] and nothing else on the client.  When
    [sources()] returns [false] the round prints the one line of the error
    and the loop goes on.  When it returns the sources, a round that ends
    well has printed the line of the search engine and the query, then one
    line for each reference, in their order, each made of the title, a
    hyphen between two spaces, and the link. *)
Theorem command_line_sources_command
    (message : string) (env : Env) (t : Cli.Terminal) :
  toUpperCase message = "SOURCES" ->
  let looked_up := sources None env (Cli.world t) in
  let served := Cli.round toUpperCase (Some message) env t in
  Cli.world (snd served) = snd looked_up
  /\ (fst looked_up = Normal NoSources ->
      served
      = (Normal tt,
         {| Cli.world := snd looked_up;
            Cli.shown := (Cli.shown t
                          ++ [Cli.Asked "Ask me anything: ";
                              Cli.Logged [VString "There was an error grabbing sources."]])%list
         |}))
  /\ (forall found,
         fst looked_up = Normal (TheSources found) ->
         fst served = Normal tt ->
         exists engine query lines,
           to_string (number_text env) (search_engine found) = Normal engine
           /\ to_string (number_text env) (search_query found) = Normal query
           /\ Cli.shown (snd served)
              = (Cli.shown t
                 ++ Cli.Asked "Ask me anything: "
                 :: Cli.Logged [VString ("Search Engine: " ++ engine ++ " | Query: " ++ query)]
                 :: map (fun line => Cli.Logged [VString line]) lines)%list
           /\ Forall2 (fun reference line =>
                         exists title_text link_text,
                           to_string (number_text env) (title reference) = Normal title_text
                           /\ to_string (number_text env) (link reference) = Normal link_text
                           /\ line = title_text ++ " - " ++ link_text)
                (references found) lines).
Proof.
  intro U. cbv zeta. split; [|split].
  - rewrite round_world. unfold served_by. now rewrite U.
  - unfold Cli.round, Cli.bind, Cli.console_log, Cli.output, Cli.template, Cli.lift, Cli.await.
    rewrite U. cbn [String.eqb Ascii.eqb Bool.eqb Cli.world Cli.shown].
    destruct (sources None env (Cli.world t)) as [r w]. cbn [fst snd].
    intros ->. cbv beta iota zeta. cbn [Cli.world Cli.shown].
    now rewrite <- app_assoc.
  - intro found.
    unfold Cli.round, Cli.bind, Cli.console_log, Cli.output, Cli.template, Cli.lift, Cli.await.
    rewrite U. cbn [String.eqb Ascii.eqb Bool.eqb Cli.world Cli.shown].
    destruct (sources None env (Cli.world t)) as [r w]. cbn [fst snd].
    intros ->. cbv beta iota zeta. cbn [Cli.world Cli.shown].
    destruct (to_string _ (search_engine found)) as [engine| |]; try discriminate.
    destruct (to_string _ (search_query found)) as [query| |]; try discriminate.
    cbv beta iota zeta. cbn [Cli.world Cli.shown].
    destruct (Cli.log_references _ _ _) as [r t'] eqn:Log. cbn [fst snd].
    intros ->. apply log_references_lines in Log. destruct Log as (lines & S & F).
    exists engine, query, lines. repeat split; try assumption.
    rewrite S. cbn [Cli.shown]. now rewrite <- !app_assoc.
Qed.

(** X19.  A line that is not the command is sent to [prompt] as it was typed.
    The round prints an empty line before the call; when the call returns, be
    it the reply or [false], the round prints what it returned and two empty
    lines, and the loop goes on with the next line.  When the call throws,
    the loop ends there: nothing more is printed and no later line is
    read. *)
Theorem command_line_chat_round
    (message : string) (env : Env) (rest : list (option string * Env)) (t : Cli.Terminal) :
  toUpperCase message <> "SOURCES" ->
  (forall resp w',
      prompt message env (Cli.world t) = (Normal resp, w') ->
      Cli.loop toUpperCase ((Some message, env) :: rest) t
      = Cli.loop toUpperCase rest
          {| Cli.world := w';
             Cli.shown := (Cli.shown t
                           ++ [Cli.Asked "Ask me anything: "; Cli.Logged [];
                               Cli.Logged [resp]; Cli.Logged []; Cli.Logged []])%list |})
  /\ (forall e w',
         prompt message env (Cli.world t) = (Throw e, w') ->
         Cli.loop toUpperCase ((Some message, env) :: rest) t
         = (Throw e,
            {| Cli.world := w';
               Cli.shown := (Cli.shown t
                             ++ [Cli.Asked "Ask me anything: "; Cli.Logged []])%list |}))
  /\ (forall request w',
         In request (new_requests (Cli.world t) w') -> refused env request ->
         snd (prompt message env (Cli.world t)) = w' ->
         Cli.loop toUpperCase ((Some message, env) :: rest) t
         = Cli.loop toUpperCase rest
             {| Cli.world := w';
                Cli.shown := (Cli.shown t
                              ++ [Cli.Asked "Ask me anything: "; Cli.Logged [];
                                  Cli.Logged [VBool false]; Cli.Logged []; Cli.Logged []])%list
             |}).
Proof.
  intro U. apply String.eqb_neq in U.
  assert (Returned : forall resp w',
             prompt message env (Cli.world t) = (Normal resp, w') ->
             Cli.loop toUpperCase ((Some message, env) :: rest) t
             = Cli.loop toUpperCase rest
                 {| Cli.world := w';
                    Cli.shown := (Cli.shown t
                                  ++ [Cli.Asked "Ask me anything: "; Cli.Logged [];
                                      Cli.Logged [resp]; Cli.Logged []; Cli.Logged []])%list
                 |}).
  { intros resp w' H. cbn [Cli.loop].
    unfold Cli.round, Cli.bind, Cli.console_log, Cli.output, Cli.template, Cli.lift, Cli.await.
    rewrite U. cbn [Cli.world Cli.shown]. rewrite H. cbn [Cli.world Cli.shown].
    now rewrite <- !app_assoc. }
  split; [exact Returned|]. split.
  - intros e w' H. cbn [Cli.loop].
    unfold Cli.round, Cli.bind, Cli.console_log, Cli.output, Cli.template, Cli.lift, Cli.await.
    rewrite U. cbn [Cli.world Cli.shown]. rewrite H. cbn [Cli.world Cli.shown].
    now rewrite <- !app_assoc.
  - intros request w' I Rf W.
    destruct (prompt message env (Cli.world t)) as [r w1] eqn:H. cbn [snd] in W. subst w1.
    destruct (prompt_refused _ _ _ _ _ _ H I Rf) as (-> & _).
    now apply Returned.
Qed.

End CommandLine.

Lemma command_line_sources_command_witness :
  Cli.world (snd (Cli.round ascii_upper (Some "sources") found
                    {| Cli.world := ready; Cli.shown := [] |}))
  = snd (sources None found ready).
Proof.
  exact (proj1 (command_line_sources_command ascii_upper "sources" found
                  {| Cli.world := ready; Cli.shown := [] |} eq_refl)).
Defined.

Lemma command_line_chat_round_witness :
  Cli.main ascii_upper "c0ffee" [(Some "hi", chat_refused)]
  = (Normal tt,
     {| Cli.world := snd (prompt "hi" chat_refused (fresh "c0ffee"));
        Cli.shown := [Cli.Asked "Ask me anything: "; Cli.Logged [];
                      Cli.Logged [VBool false]; Cli.Logged []; Cli.Logged []] |}).
Proof.
  exact (proj1 (command_line_chat_round ascii_upper "hi" chat_refused []
                  {| Cli.world := fresh "c0ffee"; Cli.shown := [] |}
                  ltac:(discriminate))
           (VBool false) (snd (prompt "hi" chat_refused (fresh "c0ffee"))) eq_refl).
Defined.
